(** * Notebook cell chat: progressive edits and undo coalescing

    A shallow embedding of [EditStrategy] and of the request loop of
    [NotebookCellChatController]
    (src/vs/workbench/contrib/notebook/browser/view/cellParts/chat/cellChatController.ts).

    The editor, the widget and the context keys are objects the controller only
    calls into; each is modelled by the record of its observable fields together
    with the chronological list of the calls it received. *)

From Equations Require Import Equations.
From Stdlib Require Import List ZArith Floats String Bool Arith Lia.
From Stdlib Require Import Permutation.
Import ListNotations.

Set Implicit Arguments.
Local Open Scope Z_scope.

(** ** JavaScript numbers

    Durations, word counts and speeds are JavaScript [number]s: IEEE 754
    binary64 values, with the operations of the standard (round to nearest,
    ties to even; division by zero gives an infinity or NaN).  These are the
    primitive floating-point numbers of the kernel. *)

Definition number : Type := float.

(** ** Positions, ranges, selections and edits (vs/editor/common/core) *)

Module Position.

Record t : Type := mk { lineNumber : Z; column : Z }.

(** Modelled from the spec: [Position.isBefore] (vs/editor/common/core/position)
    is not part of the excerpt.  §4.3 compares end positions by their offset
    in the document ("the greatest end offset"): the strict order by line,
    then by column. *)
Definition isBefore (a b : t) : bool :=
  if a.(lineNumber) <? b.(lineNumber) then true
  else if b.(lineNumber) <? a.(lineNumber) then false
  else a.(column) <? b.(column).

(** The non-strict order, used only to phrase the specification's wording. *)
Definition isBeforeOrEqual (a b : t) : bool :=
  if a.(lineNumber) <? b.(lineNumber) then true
  else if b.(lineNumber) <? a.(lineNumber) then false
  else a.(column) <=? b.(column).

End Position.

Module Range.

Record t : Type := mk {
  startLineNumber : Z;
  startColumn : Z;
  endLineNumber : Z;
  endColumn : Z
}.

Definition getEndPosition (r : t) : Position.t :=
  Position.mk r.(endLineNumber) r.(endColumn).

End Range.

Module Selection.

Record t : Type := mk {
  selectionStartLineNumber : Z;
  selectionStartColumn : Z;
  positionLineNumber : Z;
  positionColumn : Z
}.

(** [Selection.fromPositions(start, end = start)]. *)
Definition fromPositions (start : Position.t) : t :=
  mk start.(Position.lineNumber) start.(Position.column)
     start.(Position.lineNumber) start.(Position.column).

End Selection.

(** [TextEdit] of vs/editor/common/languages: what the provider sends. *)
Record TextEdit : Type := mkTextEdit {
  te_range : Range.t;
  te_text : string
}.

(** [ISingleEditOperation]: [text] may be [null]. *)
Record ISingleEditOperation : Type := mkEditOperation {
  range : Range.t;
  text : option string
}.

(** [TextEdit.asEditOperation]. *)
Definition asEditOperation (e : TextEdit) : ISingleEditOperation :=
  mkEditOperation e.(te_range) (Some e.(te_text)).

(** [IValidEditOperation]: the inverse edits the editor hands to a cursor state
    computer; their ranges are those of the text just written. *)
Record IValidEditOperation : Type := mkValidEditOperation {
  v_range : Range.t;
  v_text : string
}.

Record CancellationToken : Type := mkToken {
  isCancellationRequested : bool
}.

(** [ProgressingEditsOptions] of inlineChatStrategies. *)
Record ProgressingEditsOptions : Type := mkOpts {
  duration : number;
  token : CancellationToken
}.

(** [ICursorStateComputer] of vs/editor/common/model: from the inverse edit
    operations to the selections to set, or [null]. *)
Definition ICursorStateComputer : Type :=
  list IValidEditOperation -> option (list Selection.t).

(** ** The editor, as the calls it receives *)

Inductive EditorEvent : Type :=
| PushUndoStop
    (* editor.pushUndoStop() *)
| ExecuteEdits (source : string) (edits : list ISingleEditOperation)
               (endCursorState : ICursorStateComputer)
    (* editor.executeEdits(source, edits, endCursorState) *)
| PerformAsyncTextEdit (edit : ISingleEditOperation) (speed : number)
                       (tok : CancellationToken).
    (* performAsyncTextEdit(editor.getModel(), asProgressiveEdit(edit, speed, token)) *)

Definition IActiveCodeEditor : Type := list EditorEvent.

Definition isUndoStop (e : EditorEvent) : bool :=
  match e with PushUndoStop => true | _ => false end.

Definition isEdit (e : EditorEvent) : bool := negb (isUndoStop e).

(** Modelled from the spec: the undo history of the editor is not part of the
    excerpt.  Glossary: an undo boundary is "a marker in document history that
    groups subsequent edits into one user-undoable step".  [undoSteps open log]
    counts the steps [log] creates; [open] tells whether the step before [log]
    is still open, so that a first edit would merge into it. *)
Fixpoint undoSteps (open : bool) (log : list EditorEvent) : nat :=
  match log with
  | [] => 0
  | PushUndoStop :: rest => undoSteps false rest
  | _ :: rest => ((if open then 0 else 1) + undoSteps true rest)%nat
  end.

(** ** The text model of the session

    Modelled from the spec: the document store of §6 is not part of the
    excerpt ("read current text, version marker, dirty/disposed flags; apply
    edits; undo/redo").  A model is its text, its alternative version id and
    its undo and redo stacks; an entry of a stack is the text and the
    alternative version id that undoing (redoing) to it restores. *)

Module TextModel.

Record t : Type := mk {
  disposed : bool;
  value : string;
  alternativeVersionId : Z;
  undoStack : list (string * Z);
  redoStack : list (string * Z)
}.

Definition isDisposed (m : t) : bool := m.(disposed).
Definition getAlternativeVersionId (m : t) : Z := m.(alternativeVersionId).

Definition canUndo (m : t) : bool :=
  match m.(undoStack) with [] => false | _ :: _ => true end.

Definition undo (m : t) : t :=
  match m.(undoStack) with
  | [] => m
  | (v, a) :: past =>
      mk m.(disposed) v a past
         ((m.(value), m.(alternativeVersionId)) :: m.(redoStack))
  end.

End TextModel.

(** ** The session (vs/workbench/contrib/inlineChat/browser/inlineChatSession) *)

Inductive SaveReason : Type := EXPLICIT | AUTO | FOCUS_CHANGE | WINDOW_CHANGE.

(** The untitled model a response may have created: its flags and the [save]
    calls it received. *)
Record IUntitledTextEditorModel : Type := mkUntitled {
  u_disposed : bool;
  u_dirty : bool;
  u_saves : list SaveReason
}.

Definition save (u : IUntitledTextEditorModel) (reason : SaveReason)
  : IUntitledTextEditorModel :=
  mkUntitled u.(u_disposed) u.(u_dirty) (u.(u_saves) ++ [reason]).

(** The three response classes of a session exchange; only [ReplyResponse] has
    an [untitledTextModel] field. *)
Inductive Response : Type :=
| ReplyResponse (untitledTextModel : option IUntitledTextEditorModel)
| EmptyResponse
| ErrorResponse.

Record SessionExchange : Type := mkExchange {
  prompt : string;
  response : Response
}.

Record Session : Type := mkSession {
  textModelN : TextModel.t;
  textModelNAltVersion : Z;
  textModelNSnapshotAltVersion : option Z;
  lastInput : option string;
  lastExchange : option SessionExchange
}.

Definition withTextModelN (s : Session) (m : TextModel.t) : Session :=
  mkSession m s.(textModelNAltVersion) s.(textModelNSnapshotAltVersion)
            s.(lastInput) s.(lastExchange).

Definition withLastResponse (s : Session) (r : Response) : Session :=
  mkSession s.(textModelN) s.(textModelNAltVersion)
            s.(textModelNSnapshotAltVersion) s.(lastInput)
            (match s.(lastExchange) with
             | Some ex => Some (mkExchange ex.(prompt) r)
             | None => None
             end).

(** [session.addInput(new SessionPrompt(value))]. *)
Definition addInput (s : Session) (value : string) : Session :=
  mkSession s.(textModelN) s.(textModelNAltVersion)
            s.(textModelNSnapshotAltVersion) (Some value) s.(lastExchange).

(** ** EditStrategy *)

Record EditStrategy : Type := mkStrategy {
  _editCount : nat;
  _session : Session
}.

(** [new EditStrategy(session)]. *)
Definition newEditStrategy (session : Session) : EditStrategy :=
  mkStrategy 0 session.

(** A value together with the equation that names it, for a loop whose
    termination rests on the outcome of its test. *)
Definition inspect {A : Type} (a : A) : {b : A | a = b} := exist _ a eq_refl.

(** The loop of [cancel]:
    [while (targetAltVersion < modelN.getAlternativeVersionId() && modelN.canUndo()) modelN.undo();] *)
Equations? undoWhileAbove (targetAltVersion : Z) (modelN : TextModel.t)
  : TextModel.t by wf (List.length (TextModel.undoStack modelN)) lt :=
  undoWhileAbove targetAltVersion modelN
    with inspect ((targetAltVersion <? TextModel.getAlternativeVersionId modelN)
                  && TextModel.canUndo modelN) => {
    | exist _ true _ := undoWhileAbove targetAltVersion (TextModel.undo modelN);
    | exist _ false _ := modelN }.
Proof.
  apply andb_prop in e. destruct e as [_ e].
  unfold TextModel.canUndo, TextModel.undo in *.
  destruct (TextModel.undoStack modelN) as [|[v a] past]; simpl.
  - discriminate.
  - lia.
Qed.

(** [cursorStateComputerAndInlineDiffCollection], the closure [makeChanges]
    hands to [executeEdits]. *)
Definition cursorStep (last : option Position.t) (edit : IValidEditOperation)
  : option Position.t :=
  match last with
  | None => Some (Range.getEndPosition edit.(v_range))
  | Some l =>
      if Position.isBefore l (Range.getEndPosition edit.(v_range))
      then Some (Range.getEndPosition edit.(v_range))
      else Some l
  end.

Definition cursorStateComputerAndInlineDiffCollection
  (undoEdits : list IValidEditOperation) : option (list Selection.t) :=
  match fold_left cursorStep undoEdits None with
  | None => None
  | Some last => Some [Selection.fromPositions last]
  end.

Section Strategy.

(** [countWords] of vs/workbench/contrib/chat/common/chatWordCounter; it
    returns a [number]. *)
Variable countWords : string -> number.

(** [++this._editCount === 1] followed by the conditional [pushUndoStop]. *)
Definition pushUndoStopBeforeFirstEdit (this : EditStrategy)
  (editor : IActiveCodeEditor) : EditStrategy * IActiveCodeEditor :=
  let this' := mkStrategy (S this.(_editCount)) this.(_session) in
  (this', if (this'.(_editCount) =? 1)%nat then editor ++ [PushUndoStop]
          else editor).

(** [countWords(edit.text ?? '') / durationInSec]. *)
Definition speedOf (edit : ISingleEditOperation) (durationInSec : number)
  : number :=
  let wordCount := countWords (match edit.(text) with
                               | Some t => t
                               | None => EmptyString
                               end) in
  (wordCount / durationInSec)%float.

Definition makeProgressiveChanges (this : EditStrategy)
  (editor : IActiveCodeEditor) (edits : list ISingleEditOperation)
  (opts : ProgressingEditsOptions) : EditStrategy * IActiveCodeEditor :=
  let '(this, editor) := pushUndoStopBeforeFirstEdit this editor in
  let durationInSec := (opts.(duration) / 1000)%float in
  (this,
   fold_left
     (fun editor edit =>
        editor ++ [PerformAsyncTextEdit edit (speedOf edit durationInSec)
                                        opts.(token)])
     edits editor).

Definition makeChanges (this : EditStrategy) (editor : IActiveCodeEditor)
  (edits : list ISingleEditOperation) : EditStrategy * IActiveCodeEditor :=
  let '(this, editor) := pushUndoStopBeforeFirstEdit this editor in
  (this,
   editor ++ [ExecuteEdits "inline-chat-live" edits
                cursorStateComputerAndInlineDiffCollection]).

Definition apply (this : EditStrategy) (editor : IActiveCodeEditor)
  : EditStrategy * IActiveCodeEditor :=
  let editor :=
    if (0 <? this.(_editCount))%nat then editor ++ [PushUndoStop]
    else editor in
  match this.(_session).(lastExchange) with
  | Some {| response := ReplyResponse (Some untitledTextModel) |} =>
      if negb untitledTextModel.(u_disposed) && untitledTextModel.(u_dirty)
      then (mkStrategy this.(_editCount)
              (withLastResponse this.(_session)
                 (ReplyResponse (Some (save untitledTextModel EXPLICIT)))),
            editor)
      else (this, editor)
  | _ => (this, editor)
  end.

(** [textModelNSnapshotAltVersion ?? textModelNAltVersion]. *)
Definition targetAltVersionOf (s : Session) : Z :=
  match s.(textModelNSnapshotAltVersion) with
  | Some snapshot => snapshot
  | None => s.(textModelNAltVersion)
  end.

Definition cancel (this : EditStrategy) : EditStrategy :=
  let modelN := this.(_session).(textModelN) in
  if TextModel.isDisposed modelN then this
  else
    let targetAltVersion := targetAltVersionOf this.(_session) in
    mkStrategy this.(_editCount)
      (withTextModelN this.(_session)
         (undoWhileAbove targetAltVersion modelN)).

End Strategy.

(** ** The request loop of the controller *)

(** Modelled from the spec: [MovingAverage] (vs/base/common/numbers) is not
    part of the excerpt.  §3: an "estimate of time-per-batch, updated after
    each batch is received"; the estimate kept here is the running mean of the
    samples, [_val += (value - _val) / _n; _n += 1], starting from
    [_n = 1, _val = 0]. *)
Module MovingAverage.

Record t : Type := mk { _n : number; _val : number }.

Definition create : t := mk 1%float 0%float.

Definition update (m : t) (sample : number) : t :=
  mk (m.(_n) + 1)%float
     (m.(_val) + (sample - m.(_val)) / m.(_n))%float.

Definition value (m : t) : number := m.(_val).

End MovingAverage.

(** [IInlineChatProgressItem]. *)
Record IInlineChatProgressItem : Type := mkProgressItem {
  message : option string;
  edits : option (list TextEdit);
  editsShouldBeInstant : option bool
}.

(** [data.edits!] where the handler has checked [data.edits?.length]. *)
Definition editsOf (data : IInlineChatProgressItem) : list TextEdit :=
  match data.(edits) with Some e => e | None => [] end.

(** Truthiness of the optional fields the progress handler tests. *)
Definition truthyString (s : option string) : bool :=
  match s with
  | Some (String _ _) => true
  | _ => false
  end.

Definition truthyLength (e : option (list TextEdit)) : bool :=
  match e with
  | Some (_ :: _) => true
  | _ => false
  end.

Definition truthyBool (b : option bool) : bool :=
  match b with
  | Some true => true
  | _ => false
  end.

Record InlineChatWidget : Type := mkWidget {
  w_value : string;
  w_progress : bool;
  w_info : string;
  w_toolbar : bool
}.

Definition updateProgress (w : InlineChatWidget) (show : bool) : InlineChatWidget :=
  mkWidget w.(w_value) show w.(w_info) w.(w_toolbar).

Definition updateInfo (w : InlineChatWidget) (msg : string) : InlineChatWidget :=
  mkWidget w.(w_value) w.(w_progress) msg w.(w_toolbar).

Definition updateToolbar (w : InlineChatWidget) (show : bool) : InlineChatWidget :=
  mkWidget w.(w_value) w.(w_progress) w.(w_info) show.

(** What [acceptInput] does besides calling the editor, in the order it does
    it. *)
Inductive Action : Type :=
| CalledMakeChanges (batch : list TextEdit)
                    (opts : option ProgressingEditsOptions)
    (* this._makeChanges(editor, batch, opts) *)
| AwaitedReply
    (* await raceCancellationError(Promise.resolve(task), requestCts.token) *)
| AwaitedQueueDrained
    (* await Event.toPromise(progressiveEditsQueue.onDrained) *)
| AwaitedProgressDrain.
    (* await progress.drain() *)

Inductive Failure : Type :=
| AssertionFailed
    (* assertType(...) on an undefined value *)
| ProviderRejected
    (* the promise of provideResponse rejected *)
| NotFoundError.
    (* Node.removeChild(child) for a child that is not a child of the node *)

Inductive Completion : Type :=
| Returned
| Threw (e : Failure).

(** The controller.  [editor] is the editor of the active cell and
    [editorAttached] tells whether [codeEditors.find(...)] finds it with a
    model.  [_activeSession] and [_strategy._session] are one object in the
    source and two values here: [acceptInput] writes the input to the first,
    [cancel] and [apply] write the document and the saved model to the second,
    and no property below reads from one what was written to the other. *)
Record NotebookCellChatController : Type := mkController {
  _activeSession : option Session;
  _strategy : option EditStrategy;
  _widget : option InlineChatWidget;
  _ctxHasActiveRequest : bool;
  editorAttached : bool;
  editor : IActiveCodeEditor;
  wholeRange : list (list ISingleEditOperation);
  trace : list Action
}.

Definition onWidget (f : InlineChatWidget -> InlineChatWidget)
  (c : NotebookCellChatController) : NotebookCellChatController :=
  mkController c.(_activeSession) c.(_strategy)
    (match c.(_widget) with Some w => Some (f w) | None => None end)
    c.(_ctxHasActiveRequest) c.(editorAttached) c.(editor) c.(wholeRange)
    c.(trace).

Definition setHasActiveRequest (b : bool) (c : NotebookCellChatController)
  : NotebookCellChatController :=
  mkController c.(_activeSession) c.(_strategy) c.(_widget) b
    c.(editorAttached) c.(editor) c.(wholeRange) c.(trace).

Definition setActiveSession (s : option Session)
  (c : NotebookCellChatController) : NotebookCellChatController :=
  mkController s c.(_strategy) c.(_widget) c.(_ctxHasActiveRequest)
    c.(editorAttached) c.(editor) c.(wholeRange) c.(trace).

Definition record (a : Action) (c : NotebookCellChatController)
  : NotebookCellChatController :=
  mkController c.(_activeSession) c.(_strategy) c.(_widget)
    c.(_ctxHasActiveRequest) c.(editorAttached) c.(editor) c.(wholeRange)
    (c.(trace) ++ [a]).

Definition afterEdit (c : NotebookCellChatController)
  (tracked : list ISingleEditOperation)
  (r : EditStrategy * IActiveCodeEditor) : NotebookCellChatController :=
  mkController c.(_activeSession) (Some (fst r)) c.(_widget)
    c.(_ctxHasActiveRequest) c.(editorAttached) (snd r)
    (c.(wholeRange) ++ [tracked]) c.(trace).

(** The tokens of [requestCts] and [progressiveEditsCts]: both sources are
    local to [acceptInput] and nothing cancels them. *)
Definition requestCts_token : CancellationToken := mkToken false.
Definition progressiveEditsCts_token : CancellationToken := mkToken false.

(** Modelled from the spec: [Queue] (vs/base/common/async) is not part of the
    excerpt.  §4.1: "tasks execute strictly in submission order, one at a
    time"; [size] counts the task that runs and those that wait, and the queue
    is drained when it reaches zero.  A waiting task is the progress item its
    closure captured. *)
Module Queue.

Record t : Type := mk {
  running : bool;
  pending : list IInlineChatProgressItem
}.

Definition create : t := mk false [].

Definition size (q : t) : nat :=
  ((if q.(running) then 1 else 0) + List.length q.(pending))%nat.

End Queue.

(** The variables [acceptInput] declares and its progress handler closes
    over. *)
Record RequestLocals : Type := mkLocals {
  progressEdits : list (list TextEdit);
  progressiveEditsAvgDuration : MovingAverage.t;
  progressiveEditsQueue : Queue.t
}.

Definition newRequestLocals : RequestLocals :=
  mkLocals [] MovingAverage.create Queue.create.

(** Modelled from the spec: [AsyncProgress] (vs/platform/progress) is not
    part of the excerpt.  §9: "ordered delivery on the single logical
    thread": the handler runs for the items one at a time, in the order the
    provider reported them.  §4.4: the controller is to "wait for both the
    queue to drain and the progress stream to fully close": the handler may
    still have items to run for when the provider's promise settles, and
    [progress.drain()] resolves once it has run for every item reported.  A
    [ProviderEvent] is what happens while [acceptInput] is suspended at an
    [await], in order of time. *)
Inductive ProviderEvent : Type :=
| Progress (elapsed : number) (data : IInlineChatProgressItem)
    (* the progress handler runs for [data]; [elapsed] is what
       progressiveEditsClock.elapsed() returns there *)
| TaskSettled.
    (* the promise of the task the queue is running settles *)

Section Controller.

Variable countWords : string -> number.

(** [IEditorWorkerService.computeMoreMinimalEdits], as a function of what the
    editor has been told so far and of the edits; [None] is [undefined]. *)
Variable computeMoreMinimalEdits :
  IActiveCodeEditor -> list TextEdit -> option (list TextEdit).

(** [IInlineChatResponse], and the [allLocalEdits] field of
    [new ReplyResponse(reply, ..., progressEdits)] (inlineChatSession). *)
Variable IInlineChatResponse : Type.
Variable allLocalEdits :
  IInlineChatResponse -> list (list TextEdit) -> list (list TextEdit).

Inductive ProviderOutcome : Type :=
| Rejected
| Resolved (reply : option IInlineChatResponse).

(** One run of the provider, as [acceptInput] meets it: [events] is what
    happens while it awaits the provider's promise (l.280), [outcome] is how
    that promise settles, and [late] is what happens afterwards, while it
    awaits the queue (l.284) and [progress.drain()] (l.286). *)
Record ProviderRun : Type := mkRun {
  events : list ProviderEvent;
  outcome : ProviderOutcome;
  late : list ProviderEvent
}.

Definition _makeChanges (c : NotebookCellChatController)
  (edits : list TextEdit) (opts : option ProgressingEditsOptions)
  : Completion * NotebookCellChatController :=
  match c.(_activeSession), c.(_strategy) with
  | Some _, Some strategy =>
      let moreMinimalEdits := computeMoreMinimalEdits c.(editor) edits in
      match moreMinimalEdits with
      | Some [] => (Returned, c)
      | _ =>
          let actualEdits :=
            match opts, moreMinimalEdits with
            | None, Some minimal => minimal
            | _, _ => edits
            end in
          let editOperations := map asEditOperation actualEdits in
          match opts with
          | Some opts =>
              (Returned,
               afterEdit c editOperations
                 (makeProgressiveChanges countWords strategy c.(editor)
                    editOperations opts))
          | None =>
              (Returned,
               afterEdit c editOperations
                 (makeChanges strategy c.(editor) editOperations))
          end
      end
  | _, _ => (Threw AssertionFailed, c)
  end.

(** A call of [_makeChanges], entered in the trace. *)
Definition callMakeChanges (c : NotebookCellChatController)
  (edits : list TextEdit) (opts : option ProgressingEditsOptions)
  : Completion * NotebookCellChatController :=
  _makeChanges (record (CalledMakeChanges edits opts) c) edits opts.

(** The task queued for [data]; the average is read when the task starts.
    What the task does is entered in the logs when it starts, and
    [TaskSettled] tells when it has come to its end: the queue runs one task
    at a time, so the calls of two tasks do not mix.  The queue goes on
    whether the task resolves or rejects. *)
Definition runTask (l : RequestLocals) (c : NotebookCellChatController)
  (data : IInlineChatProgressItem) : NotebookCellChatController :=
  snd (callMakeChanges c (editsOf data)
         (if truthyBool data.(editsShouldBeInstant) then None
          else Some (mkOpts
                       (MovingAverage.value l.(progressiveEditsAvgDuration))
                       progressiveEditsCts_token))).

(** [progressiveEditsQueue.queue(task)]: an idle queue starts the task at
    once. *)
Definition enqueue (l : RequestLocals) (c : NotebookCellChatController)
  (data : IInlineChatProgressItem)
  : RequestLocals * NotebookCellChatController :=
  let q := l.(progressiveEditsQueue) in
  if q.(Queue.running)
  then (mkLocals l.(progressEdits) l.(progressiveEditsAvgDuration)
          (Queue.mk true (q.(Queue.pending) ++ [data])), c)
  else (mkLocals l.(progressEdits) l.(progressiveEditsAvgDuration)
          (Queue.mk true q.(Queue.pending)),
        runTask l c data).

(** The running task settles: the queue starts the next one, or is drained. *)
Definition settle (l : RequestLocals) (c : NotebookCellChatController)
  : RequestLocals * NotebookCellChatController :=
  let q := l.(progressiveEditsQueue) in
  if q.(Queue.running)
  then match q.(Queue.pending) with
       | [] => (mkLocals l.(progressEdits) l.(progressiveEditsAvgDuration)
                  (Queue.mk false []), c)
       | data :: rest =>
           (mkLocals l.(progressEdits) l.(progressiveEditsAvgDuration)
              (Queue.mk true rest),
            runTask l c data)
       end
  else (l, c).

(** The handler given to [AsyncProgress].  [request.live] is the literal
    [true], so the handler never throws. *)
Definition onProgress (l : RequestLocals) (c : NotebookCellChatController)
  (elapsed : number) (data : IInlineChatProgressItem)
  : RequestLocals * NotebookCellChatController :=
  if requestCts_token.(isCancellationRequested) then (l, c)
  else
    let c :=
      if truthyString data.(message)
      then onWidget
             (fun w => updateInfo (updateToolbar w false)
                         (match data.(message) with
                          | Some m => m
                          | None => EmptyString
                          end)) c
      else c in
    if truthyLength data.(edits)
    then
      let l := mkLocals
                 (l.(progressEdits) ++ [editsOf data])
                 (MovingAverage.update l.(progressiveEditsAvgDuration) elapsed)
                 l.(progressiveEditsQueue) in
      enqueue l c data
    else (l, c).

Definition providerStep (s : RequestLocals * NotebookCellChatController)
  (ev : ProviderEvent) : RequestLocals * NotebookCellChatController :=
  match ev with
  | Progress elapsed data => onProgress (fst s) (snd s) elapsed data
  | TaskSettled => settle (fst s) (snd s)
  end.

(** The tasks still in the queue settle one after the other. *)
Fixpoint settleAll (n : nat) (l : RequestLocals)
  (c : NotebookCellChatController)
  : RequestLocals * NotebookCellChatController :=
  match n with
  | O => (l, c)
  | S n => let '(l, c) := settle l c in settleAll n l c
  end.

(** Waiting for [onDrained], which the queue fires when a task settles and
    none is waiting (§4.1: "when the queue transitions from non-empty to
    empty").  Until then the events of [late] take place; should they run
    out first, nothing but the tasks of the queue is left to happen.  The
    result comes with the events that have not taken place yet. *)
Fixpoint untilDrained (late : list ProviderEvent)
  (s : RequestLocals * NotebookCellChatController)
  : (RequestLocals * NotebookCellChatController) * list ProviderEvent :=
  match late with
  | [] =>
      (settleAll (Queue.size (fst s).(progressiveEditsQueue)) (fst s) (snd s),
       [])
  | ev :: rest =>
      let s := providerStep s ev in
      if (Queue.size (fst s).(progressiveEditsQueue) =? 0)%nat then (s, rest)
      else untilDrained rest s
  end.

(** [if (progressiveEditsQueue.size > 0)
       await Event.toPromise(progressiveEditsQueue.onDrained);] *)
Definition awaitDrained (l : RequestLocals) (c : NotebookCellChatController)
  (late : list ProviderEvent)
  : (RequestLocals * NotebookCellChatController) * list ProviderEvent :=
  if (0 <? Queue.size l.(progressiveEditsQueue))%nat
  then
    let '(s, rest) := untilDrained late (l, c) in
    ((fst s, record AwaitedQueueDrained (snd s)), rest)
  else ((l, c), late).

(** [for (let i = progressEdits.length; i < allLocalEdits.length; i++)
       await this._makeChanges(editor, allLocalEdits[i], undefined);] *)
Fixpoint applyRemaining (c : NotebookCellChatController)
  (batches : list (list TextEdit))
  : Completion * NotebookCellChatController :=
  match batches with
  | [] => (Returned, c)
  | batch :: rest =>
      match callMakeChanges c batch None with
      | (Returned, c) => applyRemaining c rest
      | (Threw e, c) => (Threw e, c)
      end
  end.

(** [acceptInput] from the point where it declares its variables (l.241) to
    its end.  The variables are returned with the controller: the closures
    the queue holds keep them alive after [acceptInput] has returned.  While
    it awaits [progress.drain()] what is left of [late] takes place; the
    tasks then still in the queue are waited for by nothing that follows. *)
Definition request (c : NotebookCellChatController) (run : ProviderRun)
  : Completion * (RequestLocals * NotebookCellChatController) :=
  let '(l, c) := fold_left providerStep run.(events) (newRequestLocals, c) in
  match run.(outcome) with
  | Rejected => (Threw ProviderRejected, (l, c))
  | Resolved reply =>
      let c := record AwaitedReply c in
      let '(s, rest) := awaitDrained l c run.(late) in
      let '(l, c) := fold_left providerStep rest s in
      let c := record AwaitedProgressDrain c in
      match reply with
      | None =>
          let c := setHasActiveRequest false c in
          let c := onWidget (fun w => updateProgress w false) c in
          (Returned, (l, c))
      | Some reply =>
          let all := allLocalEdits reply l.(progressEdits) in
          match applyRemaining c
                  (skipn (List.length l.(progressEdits)) all) with
          | (Returned, c) =>
              let c := setHasActiveRequest false c in
              let c := onWidget
                         (fun w => updateToolbar
                                     (updateInfo (updateProgress w false)
                                                 EmptyString)
                                     true) c in
              (Returned, (l, c))
          | (Threw e, c) => (Threw e, (l, c))
          end
      end
  end.

Definition acceptInput (c : NotebookCellChatController) (run : ProviderRun)
  : Completion * NotebookCellChatController :=
  match c.(_activeSession), c.(_widget) with
  | Some session, Some widget =>
      let c := setActiveSession (Some (addInput session widget.(w_value))) c in
      if negb c.(editorAttached) then (Returned, c)
      else
        let c := setHasActiveRequest true c in
        let c := onWidget (fun w => updateProgress w true) c in
        let result := request c run in
        (fst result, snd (snd result))
  | _, _ => (Threw AssertionFailed, c)
  end.

End Controller.

(** ** Sessions as sequences of strategy calls *)

Inductive StrategyCall : Type :=
| Progressive (edits : list ISingleEditOperation) (opts : ProgressingEditsOptions)
| Atomic (edits : list ISingleEditOperation).

Section Sessions.

Variable countWords : string -> number.

Definition perform (s : EditStrategy * IActiveCodeEditor) (call : StrategyCall)
  : EditStrategy * IActiveCodeEditor :=
  match call with
  | Progressive edits opts =>
      makeProgressiveChanges countWords (fst s) (snd s) edits opts
  | Atomic edits => makeChanges (fst s) (snd s) edits
  end.

Definition runCalls (calls : list StrategyCall) (this : EditStrategy)
  (editor : IActiveCodeEditor) : EditStrategy * IActiveCodeEditor :=
  fold_left perform calls (this, editor).

(** The edits one call hands to the editor, boundaries apart. *)
Definition callEdits (call : StrategyCall) : list EditorEvent :=
  match call with
  | Progressive edits opts =>
      map (fun edit =>
             PerformAsyncTextEdit edit
               (speedOf countWords edit (opts.(duration) / 1000)%float)
               opts.(token))
          edits
  | Atomic edits =>
      [ExecuteEdits "inline-chat-live" edits
         cursorStateComputerAndInlineDiffCollection]
  end.

End Sessions.

(** ** Vocabulary of the properties *)



(** The end positions of a batch, in order. *)
Definition endPositions (undoEdits : list IValidEditOperation)
  : list Position.t :=
  map (fun edit => Range.getEndPosition edit.(v_range)) undoEdits.






(** Case analysis on the comparisons of two or three positions. *)
Ltac order_positions :=
  unfold Position.isBefore, Position.isBeforeOrEqual in *; simpl in *;
  repeat match goal with
         | H : context [(?a <? ?b)] |- _ => destruct (Z.ltb_spec a b); simpl in H
         | |- context [(?a <? ?b)] => destruct (Z.ltb_spec a b); simpl
         | H : context [(?a <=? ?b)] |- _ => destruct (Z.leb_spec a b); simpl in H
         | |- context [(?a <=? ?b)] => destruct (Z.leb_spec a b); simpl
         end;
  try discriminate; try reflexivity; try lia.

(** [n] calls of [modelN.undo()]. *)
Fixpoint undoTimes (n : nat) (m : TextModel.t) : TextModel.t :=
  match n with
  | O => m
  | S n => undoTimes n (TextModel.undo m)
  end.

(** The test of the loop of [cancel]. *)
Definition aboveTarget (targetAltVersion : Z) (m : TextModel.t) : bool :=
  (targetAltVersion <? TextModel.getAlternativeVersionId m)
  && TextModel.canUndo m.

(** The wording of the specification: the marker to reach is the earlier of
    the baseline marker and the snapshot marker. *)
Definition earlierMarker (s : Session) : Z :=
  match s.(textModelNSnapshotAltVersion) with
  | Some snapshot => Z.min s.(textModelNAltVersion) snapshot
  | None => s.(textModelNAltVersion)
  end.

(** After [cancel] the document is at or below that marker, or cannot be
    undone further. *)
Definition cancel_reaches_earlier_marker (this : EditStrategy) : Prop :=
  let after := (cancel this).(_session).(textModelN) in
  TextModel.getAlternativeVersionId after <= earlierMarker this.(_session)
  \/ TextModel.canUndo after = false.

(** A session started at version 1, with a snapshot taken at version 3, whose
    document is now at version 5 with four steps to undo. *)
Definition snapshotSession : Session :=
  mkSession
    (TextModel.mk false "abcde" 5
       [("abcd", 4); ("abc", 3); ("ab", 2); ("a", 1)]%string [])
    1 (Some 3) None None.

(** A session without snapshot whose document is back at the baseline. *)
Definition restoredSession : Session :=
  mkSession (TextModel.mk false "a" 1 [("", 0)]%string [("ab", 2)]%string)
            1 None None None.

(** The untitled model the last exchange's response carries, if any. *)
Definition untitledOf (s : Session) : option IUntitledTextEditorModel :=
  match s.(lastExchange) with
  | Some {| response := ReplyResponse untitledTextModel |} => untitledTextModel
  | _ => None
  end.

(** The [save] calls that model has received. *)
Definition savesOf (s : Session) : list SaveReason :=
  match untitledOf s with
  | Some u => u.(u_saves)
  | None => []
  end.

(** The response carries an untitled model that is not disposed and is dirty. *)
Definition carriesDirtyUntitled (s : Session) : bool :=
  match untitledOf s with
  | Some u => negb u.(u_disposed) && u.(u_dirty)
  | None => false
  end.

(** The session of a controller with a fresh strategy and an attached
    editor. *)
Definition plainSession : Session :=
  mkSession (TextModel.mk false "" 1 [] []) 1 None None None.

(** That controller: no request yet, nothing sent to the editor. *)
Definition readyController : NotebookCellChatController :=
  mkController (Some plainSession) (Some (newEditStrategy plainSession))
    (Some (mkWidget "fix bug" false "" false)) false true [] [] [].

(** An insertion of one word at the start of the cell. *)
Definition someEdit : TextEdit := mkTextEdit (Range.mk 1 1 1 1) "x".

(** The actions that are [_makeChanges] calls. *)
Definition isCalled (a : Action) : bool :=
  match a with CalledMakeChanges _ _ => true | _ => false end.

(** [c'] is [c] after some batches went through [_makeChanges]: the session
    reference, the context key, the progress indicator and the presence of
    the widget and of the strategy are those of [c], and the trace has grown by
    [_makeChanges] calls only. *)
Record Extends (c c' : NotebookCellChatController) : Prop := mkExtends {
  ext_session : c'.(_activeSession) = c.(_activeSession);
  ext_flag : c'.(_ctxHasActiveRequest) = c.(_ctxHasActiveRequest);
  ext_attached : c'.(editorAttached) = c.(editorAttached);
  ext_progress : option_map w_progress c'.(_widget)
                 = option_map w_progress c.(_widget);
  ext_strategy : c.(_strategy) <> None -> c'.(_strategy) <> None;
  ext_trace : exists added,
      c'.(trace) = c.(trace) ++ added /\ forallb isCalled added = true
}.

(** The progress items that carry edits, each with the clock reading taken
    when it arrived: the batches, in order of arrival. *)
Fixpoint batchesOf (evs : list ProviderEvent)
  : list (number * IInlineChatProgressItem) :=
  match evs with
  | [] => []
  | Progress elapsed data :: rest =>
      if truthyLength data.(edits) then (elapsed, data) :: batchesOf rest
      else batchesOf rest
  | TaskSettled :: rest => batchesOf rest
  end.

(** The rolling average once it has been updated with [samples], in order. *)
Definition averageAfter (samples : list number) : MovingAverage.t :=
  fold_left MovingAverage.update samples MovingAverage.create.

(** The [_makeChanges] call of the task of [fst entry], started when
    [snd entry] samples had been taken. *)
Definition taskCall (samples : list number)
  (entry : IInlineChatProgressItem * nat) : Action :=
  CalledMakeChanges (editsOf (fst entry))
    (if truthyBool (fst entry).(editsShouldBeInstant) then None
     else Some (mkOpts
                  (MovingAverage.value
                     (averageAfter (firstn (snd entry) samples)))
                  progressiveEditsCts_token)).

(** What holds of the locals and of the trace while batches stream in:
    [started] lists the tasks the queue has started so far, each with the
    number of samples the average held at that moment. *)
Record Streaming (c0 : NotebookCellChatController)
  (batches : list (number * IInlineChatProgressItem))
  (l : RequestLocals) (c : NotebookCellChatController)
  (started : list (IInlineChatProgressItem * nat)) : Prop := mkStreaming {
  st_edits : l.(progressEdits) = map (fun b => editsOf (snd b)) batches;
  st_average : l.(progressiveEditsAvgDuration) = averageAfter (map fst batches);
  st_idle : Queue.running l.(progressiveEditsQueue) = false ->
            Queue.pending l.(progressiveEditsQueue) = [];
  st_calls : filter isCalled c.(trace)
             = filter isCalled c0.(trace)
               ++ map (taskCall (map fst batches)) started;
  st_order : map fst started ++ Queue.pending l.(progressiveEditsQueue)
             = map snd batches;
  st_bound : Forall (fun entry => (snd entry <= List.length batches)%nat)
                    started;
  st_own : forall k entry, nth_error started k = Some entry ->
                           (k < snd entry)%nat
}.

(** The claim of a one-batch lag, in the terms of the model: the duration that
    paces the [k]-th batch is the value of the average over samples of earlier
    batches only. *)
Definition one_batch_lag : Prop :=
  forall (countWords : string -> number)
         (computeMoreMinimalEdits :
            IActiveCodeEditor -> list TextEdit -> option (list TextEdit))
         (c : NotebookCellChatController) (evs : list ProviderEvent)
         (k : nat) (batch : list TextEdit) (opts : ProgressingEditsOptions),
    nth_error
      (skipn (List.length c.(trace))
         (trace (snd (fold_left
                        (providerStep countWords computeMoreMinimalEdits)
                        evs (newRequestLocals, c)))))
      k
    = Some (CalledMakeChanges batch (Some opts)) ->
    exists m, (m <= k)%nat
              /\ opts.(duration)
                 = MovingAverage.value
                     (averageAfter (firstn m (map fst (batchesOf evs)))).

(** The controller at the moment [acceptInput] calls the provider. *)
Definition atRequest (c : NotebookCellChatController) (session : Session)
  (widget : InlineChatWidget) : NotebookCellChatController :=
  onWidget (fun w => updateProgress w true)
    (setHasActiveRequest true
       (setActiveSession (Some (addInput session widget.(w_value))) c)).

(** The batches of a list of actions that are [_makeChanges] calls. *)
Definition calledBatches (actions : list Action) : list (list TextEdit) :=
  flat_map (fun a => match a with
                     | CalledMakeChanges batch _ => [batch]
                     | _ => []
                     end) actions.

(** [c'] differs from [c] in nothing a request's bookkeeping looks at. *)
Record Same (c c' : NotebookCellChatController) : Prop := mkSame {
  same_session : c'.(_activeSession) = c.(_activeSession);
  same_flag : c'.(_ctxHasActiveRequest) = c.(_ctxHasActiveRequest);
  same_progress : option_map w_progress c'.(_widget)
                  = option_map w_progress c.(_widget);
  same_strategy : c.(_strategy) <> None -> c'.(_strategy) <> None
}.

(** The rate as §4.2 words it: word count over duration in seconds, the
    duration being given in milliseconds. *)
Definition rate (wordCount : number) (durationMs : number) : number :=
  (wordCount / (durationMs / 1000))%float.

(** The speed of [e], when [e] is a paced edit, is the rate of its text for
    the value the average had after one of the first samples. *)
Definition pacedBy (countWords : string -> number) (samples : list number)
  (e : EditorEvent) : Prop :=
  match e with
  | PerformAsyncTextEdit edit speed tok =>
      exists m,
        (0 < m <= List.length samples)%nat
        /\ speed = rate (countWords (match edit.(text) with
                                     | Some t => t
                                     | None => EmptyString
                                     end))
                        (MovingAverage.value
                           (averageAfter (firstn m samples)))
        /\ tok = progressiveEditsCts_token
  | _ => True
  end.

(** What the locals and the editor of a request look like after the clock
    readings [samples]: the average is the one over [samples], a batch waits
    only if a reading was taken, and every paced edit sent since the editor
    stood at [e0] is paced by one of the values the average has had. *)
Definition PacedState (countWords : string -> number)
  (e0 : IActiveCodeEditor) (samples : list number)
  (s : RequestLocals * NotebookCellChatController) : Prop :=
  (fst s).(progressiveEditsAvgDuration) = averageAfter samples
  /\ (Queue.pending (fst s).(progressiveEditsQueue) <> [] -> samples <> [])
  /\ exists sent,
       (snd s).(editor) = e0 ++ sent
       /\ Forall (pacedBy countWords samples) sent.

(** What the calls of [_makeChanges] listed in [actions] make of a
    controller, one after the other. *)
Definition replayStep (countWords : string -> number)
  (computeMoreMinimalEdits :
     IActiveCodeEditor -> list TextEdit -> option (list TextEdit))
  (c : NotebookCellChatController) (a : Action)
  : NotebookCellChatController :=
  match a with
  | CalledMakeChanges batch opts =>
      snd (_makeChanges countWords computeMoreMinimalEdits c batch opts)
  | _ => c
  end.

Definition replay (countWords : string -> number)
  (computeMoreMinimalEdits :
     IActiveCodeEditor -> list TextEdit -> option (list TextEdit))
  (actions : list Action) (c : NotebookCellChatController)
  : NotebookCellChatController :=
  fold_left (replayStep countWords computeMoreMinimalEdits) actions c.

(** Two controllers agree on what [_makeChanges] reads and writes: the
    session, the strategy, the editor and the tracked range. *)
Definition Agree (c r : NotebookCellChatController) : Prop :=
  c.(_activeSession) = r.(_activeSession)
  /\ c.(_strategy) = r.(_strategy)
  /\ c.(editor) = r.(editor)
  /\ c.(wholeRange) = r.(wholeRange).

(** Since [c0], the session, the strategy, the editor and the tracked range
    have changed as the [_makeChanges] calls entered in the trace change
    them, in that order, and in no other way. *)
Definition Replayed (countWords : string -> number)
  (computeMoreMinimalEdits :
     IActiveCodeEditor -> list TextEdit -> option (list TextEdit))
  (c0 c : NotebookCellChatController) : Prop :=
  exists added,
    c.(trace) = c0.(trace) ++ added
    /\ Agree c (replay countWords computeMoreMinimalEdits added c0).

(** ** The controller's view of the cell, and the session service *)

(** The controller together with what [show], [dismiss] and the session
    calls touch outside the request loop.  [widgetResets] counts the calls of
    [_widget.reset()] and [released] lists the sessions handed to
    [releaseSession], in order; what the widget does on [reset] is not
    modelled. *)
Record CellChat : Type := mkCellChat {
  controller : NotebookCellChatController;
  _isVisible : bool;
  display : string;
  _ctxVisible : bool;
  _ctxCellWidgetFocused : bool;
  chatHeight : Z;
  widgetResets : nat;
  released : list Session
}.

Definition withController (chat : CellChat) (c : NotebookCellChatController)
  : CellChat :=
  mkCellChat c chat.(_isVisible) chat.(display) chat.(_ctxVisible)
    chat.(_ctxCellWidgetFocused) chat.(chatHeight) chat.(widgetResets)
    chat.(released).

(** [this._inlineChatSessionService.releaseSession(session)]. *)
Definition releaseSession (chat : CellChat) (session : Session) : CellChat :=
  mkCellChat chat.(controller) chat.(_isVisible) chat.(display)
    chat.(_ctxVisible) chat.(_ctxCellWidgetFocused) chat.(chatHeight)
    chat.(widgetResets) (chat.(released) ++ [session]).

(** [if (this._activeSession) releaseSession(this._activeSession)]. *)
Definition releaseActiveSession (chat : CellChat) : CellChat :=
  match chat.(controller).(_activeSession) with
  | Some session => releaseSession chat session
  | None => chat
  end.

Definition setStrategy (s : option EditStrategy)
  (c : NotebookCellChatController) : NotebookCellChatController :=
  mkController c.(_activeSession) s c.(_widget) c.(_ctxHasActiveRequest)
    c.(editorAttached) c.(editor) c.(wholeRange) c.(trace).

Definition setEditor (e : IActiveCodeEditor)
  (c : NotebookCellChatController) : NotebookCellChatController :=
  mkController c.(_activeSession) c.(_strategy) c.(_widget)
    c.(_ctxHasActiveRequest) c.(editorAttached) e c.(wholeRange) c.(trace).

(** [_startSession(editor, token)]; [created] is what [createSession]
    resolves to. *)
Definition _startSession (chat : CellChat) (created : option Session)
  : CellChat :=
  let chat := releaseActiveSession chat in
  match created with
  | None => chat
  | Some session =>
      withController chat
        (setStrategy (Some (newEditStrategy session))
           (setActiveSession (Some session) chat.(controller)))
  end.

(** [cancelCurrentRequest(discard)]. *)
Definition cancelCurrentRequest (chat : CellChat) (discard : bool) : CellChat :=
  let chat :=
    if discard
    then withController chat
           (setStrategy (option_map cancel chat.(controller).(_strategy))
              chat.(controller))
    else chat in
  let chat := releaseActiveSession chat in
  withController chat (setActiveSession None chat.(controller)).

(** [dismiss(discard)]. *)
Definition dismiss (chat : CellChat) (discard : bool) : CellChat :=
  let chat := mkCellChat chat.(controller) false "none" chat.(_ctxVisible)
                chat.(_ctxCellWidgetFocused) chat.(chatHeight)
                chat.(widgetResets) chat.(released) in
  let chat := cancelCurrentRequest chat discard in
  mkCellChat chat.(controller) chat.(_isVisible) chat.(display) false false 0
    (match chat.(controller).(_widget) with
     | Some _ => S chat.(widgetResets)
     | None => chat.(widgetResets)
     end)
    chat.(released).

(** [acceptSession()]; nothing [apply] does throws in the model, so the
    [catch] has nothing to swallow. *)
Definition acceptSession (chat : CellChat) : Completion * CellChat :=
  match chat.(controller).(_activeSession), chat.(controller).(_strategy) with
  | Some session, Some strategy =>
      if negb chat.(controller).(editorAttached)
      then (Threw AssertionFailed, chat)
      else
        let '(strategy, editor) := apply strategy chat.(controller).(editor) in
        let chat := withController chat
                      (setEditor editor
                         (setStrategy (Some strategy) chat.(controller))) in
        let chat := releaseSession chat session in
        (Returned, dismiss chat false)
  | _, _ => (Threw AssertionFailed, chat)
  end.

(** The edit counter of the strategy and what the strategy has sent to the
    editor since [c0]: nothing while the counter is zero, and afterwards one
    undo boundary followed by edits only. *)
Definition Coalesced (c0 c : NotebookCellChatController) : Prop :=
  exists n body,
    option_map _editCount c.(_strategy) = Some n
    /\ c.(editor)
       = c0.(editor) ++ (if (n =? 0)%nat then [] else PushUndoStop :: body)
    /\ forallb isEdit body = true.

(** The widget after the messages of the progress items in [evs]. *)
Definition messageStep (w : InlineChatWidget) (ev : ProviderEvent)
  : InlineChatWidget :=
  match ev with
  | Progress _ data =>
      if truthyString data.(message)
      then updateInfo (updateToolbar w false)
             (match data.(message) with Some m => m | None => EmptyString end)
      else w
  | TaskSettled => w
  end.

(** The number of times a queued task settled during [evs]. *)
Fixpoint settles (evs : list ProviderEvent) : nat :=
  match evs with
  | [] => 0
  | TaskSettled :: rest => S (settles rest)
  | Progress _ _ :: rest => settles rest
  end.

(** The number of [_makeChanges] calls in the trace. *)
Definition calls (c : NotebookCellChatController) : nat :=
  List.length (filter isCalled c.(trace)).

(** Whether the queue is running a task, as a number. *)
Definition busy (l : RequestLocals) : nat :=
  if Queue.running l.(progressiveEditsQueue) then 1 else 0.

(** The progress event carries a message the handler shows. *)
Definition showsMessage (ev : ProviderEvent) : bool :=
  match ev with
  | Progress _ data => truthyString data.(message)
  | TaskSettled => false
  end.

(** ** The multi diff editor input: merging the diff editor's configuration

    [computeOptions] of MultiDiffEditorInput.  A configuration object is the
    list of its own properties, in insertion order, with distinct keys;
    reading a property it does not have gives [undefined].  The values of the
    properties are of no concern here: their type, [undefined] and
    [deepClone] (vs/base/common/objects) are parameters. *)

Module MultiDiff.

Section Options.

Variable JsValue : Type.
Variable undefined : JsValue.

Definition JsObject : Type := list (string * JsValue).

Variable deepClone : JsObject -> JsObject.

(** [o[key]]. *)
Fixpoint get (o : JsObject) (key : string) : JsValue :=
  match o with
  | [] => undefined
  | (k, v) :: rest => if String.eqb k key then v else get rest key
  end.

(** [key in o], for own properties. *)
Fixpoint has (o : JsObject) (key : string) : bool :=
  match o with
  | [] => false
  | (k, _) :: rest => if String.eqb k key then true else has rest key
  end.

(** [o[key] = v]: an existing property keeps its place, a new one comes
    last. *)
Fixpoint set (o : JsObject) (key : string) (v : JsValue) : JsObject :=
  match o with
  | [] => [(key, v)]
  | (k, x) :: rest =>
      if String.eqb k key then (k, v) :: rest else (k, x) :: set rest key v
  end.

(** [delete o[key]]. *)
Definition delete (o : JsObject) (key : string) : JsObject :=
  filter (fun p => negb (String.eqb (fst p) key)) o.

(** [Object.assign(target, source)]. *)
Definition assign (target source : JsObject) : JsObject :=
  fold_left (fun t p => set t (fst p) (snd p)) source target.

(** [IEditorConfiguration]; [diffEditor] is [None] when
    [isObject(configuration.diffEditor)] is false. *)
Record IEditorConfiguration : Type := mkConfiguration {
  editor : JsObject;
  diffEditor : option JsObject
}.

Definition computeOptions (configuration : IEditorConfiguration) : JsObject :=
  let editorConfiguration := deepClone configuration.(editor) in
  match configuration.(diffEditor) with
  | Some diffEditor =>
      let diffEditorConfiguration := deepClone diffEditor in
      let diffEditorConfiguration :=
        set diffEditorConfiguration "diffCodeLens"
            (get diffEditorConfiguration "codeLens") in
      let diffEditorConfiguration :=
        delete diffEditorConfiguration "codeLens" in
      let diffEditorConfiguration :=
        set diffEditorConfiguration "diffWordWrap"
            (get diffEditorConfiguration "wordWrap") in
      let diffEditorConfiguration :=
        delete diffEditorConfiguration "wordWrap" in
      assign editorConfiguration diffEditorConfiguration
  | None => editorConfiguration
  end.

End Options.

End MultiDiff.

(** ** The registry of controllers and the cell chat part

    [NotebookCellChatController._cellChatControllers] maps a cell to the
    controller constructed for it last.  Cells are numbered.  A controller
    is known here by the number it received when it was constructed, by the
    cell it was constructed for, and by whether it has created its widget:
    it does so the first time the cell's editor is attached, and only then
    appends its toolbar to the part's container (l.93-107).  [CellChatPart]
    holds at most one controller. *)

Module Registry.

Record Controller : Type := mkC {
  serial : nat;
  _cell : nat;
  hasWidget : bool
}.

Record t : Type := mk {
  _cellChatControllers : nat -> option nat;
  constructed : nat
}.

(** [NotebookCellChatController.get(cell)]. *)
Definition get (r : t) (cell : nat) : option nat :=
  r.(_cellChatControllers) cell.

(** The constructor: [_cellChatControllers.set(this._cell, this)]. *)
Definition construct (r : t) (cell : nat) : t * Controller :=
  (mk (fun c => if (c =? cell)%nat then Some r.(constructed)
                else r.(_cellChatControllers) c)
      (S r.(constructed)),
   mkC r.(constructed) cell false).

(** The handler of [onDidChangeEditorAttachState] (l.85-115); [found] tells
    whether [_getCellEditor()] finds the editor. *)
Definition onDidChangeEditorAttachState
  (controller : Controller) (found : bool)
  : Controller :=
  mkC controller.(serial) controller.(_cell)
    (controller.(hasWidget) || found).

(** [dispose()].  The toolbar is removed from the container whether or not
    it was appended (l.130): [removeChild] throws for a node that is not a
    child of the container, and the statements after it,
    [_cellChatControllers.delete(this._cell)] among them, are then not
    reached. *)
Definition dispose (r : t) (controller : Controller)
  : Completion * t :=
  if controller.(hasWidget)
  then (Returned,
        mk (fun c => if (c =? controller.(_cell))%nat then None
                     else r.(_cellChatControllers) c)
           r.(constructed))
  else (Threw NotFoundError, r).

End Registry.

Module CellChatPart.

(** [_controller]. *)
Definition t : Type := option Registry.Controller.

(** [this._controller?.dispose()]. *)
Definition disposeController (part : t) (r : Registry.t)
  : Completion * Registry.t :=
  match part with
  | Some controller => Registry.dispose r controller
  | None => (Returned, r)
  end.

Definition didRenderCell (part : t) (r : Registry.t) (element : nat)
  : Completion * (t * Registry.t) :=
  match disposeController part r with
  | (Returned, r) =>
      let '(r, controller) := Registry.construct r element in
      (Returned, (Some controller, r))
  | (Threw e, r) => (Threw e, (part, r))
  end.

Definition unrenderCell (part : t) (r : Registry.t) (element : nat)
  : Completion * (t * Registry.t) :=
  match disposeController part r with
  | (Returned, r) => (Returned, (None, r))
  | (Threw e, r) => (Threw e, (part, r))
  end.

Definition dispose (part : t) (r : Registry.t)
  : Completion * (t * Registry.t) :=
  match disposeController part r with
  | (Returned, r) => (Returned, (None, r))
  | (Threw e, r) => (Threw e, (part, r))
  end.

(** What happens to a part: the notebook calls it, or the cell of its
    controller fires [onDidChangeEditorAttachState]. *)
Inductive Call : Type :=
| DidRenderCell (element : nat)
| UnrenderCell (element : nat)
| Dispose
| EditorAttachStateChanged (found : bool).

Definition call (s : t * Registry.t) (c : Call)
  : Completion * (t * Registry.t) :=
  match c with
  | DidRenderCell element => didRenderCell (fst s) (snd s) element
  | UnrenderCell element => unrenderCell (fst s) (snd s) element
  | Dispose => dispose (fst s) (snd s)
  | EditorAttachStateChanged found =>
      (Returned,
       (option_map
          (fun controller =>
             Registry.onDidChangeEditorAttachState controller found)
          (fst s),
        snd s))
  end.

(** A sequence of calls, each made whether or not the one before threw. *)
Definition calls (s : t * Registry.t) (cs : list Call) : t * Registry.t :=
  fold_left (fun s c => snd (call s c)) cs s.

End CellChatPart.

(** The registry with no controller in it. *)
Definition emptyRegistry : Registry.t := Registry.mk (fun _ => None) 0.

(** What the registry holds when one part alone has used it. *)
Definition holdsOnly (part : CellChatPart.t) (r : Registry.t) : Prop :=
  forall cell,
    Registry.get r cell
    = match part with
      | Some controller =>
          if (cell =? Registry._cell controller)%nat
          then Some (Registry.serial controller)
          else None
      | None => None
      end.

(** The call is not the attachment of the editor. *)
Definition noEditor (c : CellChatPart.Call) : bool :=
  match c with
  | CellChatPart.EditorAttachStateChanged found => negb found
  | _ => true
  end.

(** The edit operations an editor call carries. *)
Definition eventEdits (e : EditorEvent) : list ISingleEditOperation :=
  match e with
  | PushUndoStop => []
  | ExecuteEdits _ edits _ => edits
  | PerformAsyncTextEdit edit _ _ => [edit]
  end.

(** Since [c0], the edit operations sent to the editor are those tracked on
    the session's whole range, in the same order. *)
Definition Tracked (c0 c : NotebookCellChatController) : Prop :=
  exists sent tracked,
    c.(editor) = c0.(editor) ++ sent
    /\ c.(wholeRange) = c0.(wholeRange) ++ tracked
    /\ flat_map eventEdits sent = List.concat tracked.

(** The edits [_makeChanges] goes on with: the minimal ones for an atomic
    application when the worker gave some, the provider's otherwise. *)
Definition actualEdits (edits : list TextEdit)
  (opts : option ProgressingEditsOptions)
  (moreMinimalEdits : option (list TextEdit)) : list TextEdit :=
  match moreMinimalEdits with
  | Some [] => []
  | Some minimal => match opts with None => minimal | Some _ => edits end
  | None => edits
  end.

(** * Properties *)

(** ** Generic facts *)

Lemma fold_left_snoc_map (A B : Type) (f : A -> B) (l : list A) (acc : list B) :
  fold_left (fun acc x => acc ++ [f x]) l acc = acc ++ map f l.
Proof.
  revert acc. induction l as [|x l IH]; intros acc; simpl.
  - now rewrite app_nil_r.
  - rewrite IH, <- app_assoc. reflexivity.
Qed.

Lemma forallb_isEdit_callEdits countWords call :
  forallb isEdit (callEdits countWords call) = true.
Proof.
  destruct call as [edits opts|edits]; simpl; [|reflexivity].
  induction edits; simpl; auto.
Qed.

Lemma undoSteps_edits (log : list EditorEvent) :
  forallb isEdit log = true ->
  undoSteps true log = 0%nat.
Proof.
  induction log as [|e log IH]; simpl; [reflexivity|].
  destruct e; simpl; try discriminate; exact IH.
Qed.

(** ** The strategy, call by call *)

Section StrategyFacts.

Variable countWords : string -> number.

Lemma makeProgressiveChanges_spec this editor edits opts :
  makeProgressiveChanges countWords this editor edits opts =
  (mkStrategy (S this.(_editCount)) this.(_session),
   editor
     ++ (if (this.(_editCount) =? 0)%nat then [PushUndoStop] else [])
     ++ callEdits countWords (Progressive edits opts)).
Proof.
  unfold makeProgressiveChanges, pushUndoStopBeforeFirstEdit. simpl.
  rewrite fold_left_snoc_map.
  destruct (_editCount this) as [|n]; simpl.
  - now rewrite <- app_assoc.
  - reflexivity.
Qed.

Lemma makeChanges_spec this editor edits :
  makeChanges this editor edits =
  (mkStrategy (S this.(_editCount)) this.(_session),
   editor
     ++ (if (this.(_editCount) =? 0)%nat then [PushUndoStop] else [])
     ++ callEdits countWords (Atomic edits)).
Proof.
  unfold makeChanges, pushUndoStopBeforeFirstEdit. simpl.
  destruct (_editCount this) as [|n]; simpl.
  - now rewrite <- app_assoc.
  - reflexivity.
Qed.

Lemma perform_spec this editor call :
  perform countWords (this, editor) call =
  (mkStrategy (S this.(_editCount)) this.(_session),
   editor
     ++ (if (this.(_editCount) =? 0)%nat then [PushUndoStop] else [])
     ++ callEdits countWords call).
Proof.
  destruct call; simpl.
  - apply makeProgressiveChanges_spec.
  - apply makeChanges_spec.
Qed.

Lemma runCalls_cons call calls this editor :
  runCalls countWords (call :: calls) this editor =
  runCalls countWords calls
    (fst (perform countWords (this, editor) call))
    (snd (perform countWords (this, editor) call)).
Proof.
  unfold runCalls. simpl.
  now destruct (perform countWords (this, editor) call).
Qed.

(** Once the counter has left zero no call pushes a boundary. *)
Lemma runCalls_started calls this editor :
  (0 < this.(_editCount))%nat ->
  runCalls countWords calls this editor =
  (mkStrategy (List.length calls + this.(_editCount)) this.(_session),
   editor ++ flat_map (callEdits countWords) calls).
Proof.
  revert this editor.
  induction calls as [|call calls IH]; intros this editor Hpos.
  - unfold runCalls. simpl. rewrite app_nil_r. now destruct this.
  - rewrite runCalls_cons, perform_spec. cbn [fst snd].
    rewrite IH by (simpl; lia). simpl.
    destruct (_editCount this) as [|n]; [lia|]. simpl.
    rewrite <- app_assoc. do 2 f_equal. lia.
Qed.

Lemma runCalls_fresh call calls session editor :
  runCalls countWords (call :: calls) (newEditStrategy session) editor =
  (mkStrategy (S (List.length calls)) session,
   editor ++ PushUndoStop :: flat_map (callEdits countWords) (call :: calls)).
Proof.
  rewrite runCalls_cons, perform_spec. cbn [fst snd].
  rewrite runCalls_started by (simpl; lia). simpl.
  rewrite <- app_assoc. simpl. do 2 f_equal. lia.
Qed.

End StrategyFacts.

Lemma forallb_isEdit_flat_map countWords calls :
  forallb isEdit (flat_map (callEdits countWords) calls) = true.
Proof.
  induction calls as [|call calls IH]; simpl; [reflexivity|].
  rewrite forallb_app, forallb_isEdit_callEdits, IH. reflexivity.
Qed.

Lemma undoSteps_after_stop (open : bool) (body : list EditorEvent) :
  forallb isEdit body = true ->
  undoSteps open (PushUndoStop :: body) =
  match body with [] => 0%nat | _ :: _ => 1%nat end.
Proof.
  intros Hbody. simpl. destruct body as [|e body]; [reflexivity|].
  simpl in *. apply andb_prop in Hbody as [He Hbody].
  destruct e; simpl in *; try discriminate;
    now rewrite (undoSteps_edits _ Hbody).
Qed.

(** C1.  Whatever the interleaving of [makeProgressiveChanges] and
    [makeChanges] calls a session makes on its fresh strategy, the editor
    receives exactly one [pushUndoStop], ahead of everything the first call
    writes, and none before a later edit: what the session adds to the
    editor's history is that boundary followed by edits only, so the edits
    form a single undo step.  A session that makes no call pushes nothing. *)
Theorem C1_one_undo_stop_per_session
  (countWords : string -> number) (session : Session)
  (editor : IActiveCodeEditor) (calls : list StrategyCall) :
  let result := runCalls countWords calls (newEditStrategy session) editor in
  let body := flat_map (callEdits countWords) calls in
  let added := match calls with [] => [] | _ :: _ => PushUndoStop :: body end in
  snd result = editor ++ added
  /\ forallb isEdit body = true
  /\ List.length (filter isUndoStop added)
     = match calls with [] => 0 | _ :: _ => 1 end%nat
  /\ (fst result).(_editCount) = List.length calls
  /\ (forall open : bool,
        undoSteps open added = match body with [] => 0 | _ :: _ => 1 end%nat).
Proof.
  intros result body added.
  assert (Hbody : forallb isEdit body = true)
    by apply forallb_isEdit_flat_map.
  destruct calls as [|call calls].
  - subst result added. unfold runCalls. simpl.
    rewrite app_nil_r. repeat split; auto.
  - subst result added. rewrite runCalls_fresh. simpl fst. simpl snd.
    repeat split; auto.
    + cbn [filter isUndoStop]. simpl List.length. f_equal.
      fold body.
      assert (H : filter isUndoStop body = []).
      { clear -Hbody. induction body as [|e b IH]; simpl in *; [reflexivity|].
        apply andb_prop in Hbody as [He Hb].
        unfold isEdit in He. destruct (isUndoStop e); [discriminate|auto]. }
      now rewrite H.
    + intros open. now apply undoSteps_after_stop.
Qed.

(** ** The cursor after an atomic batch *)

Lemma isBefore_irrefl (p : Position.t) : Position.isBefore p p = false.
Proof. destruct p. order_positions. Qed.

Lemma isBefore_not_before_trans (l e q : Position.t) :
  Position.isBefore l e = true ->
  Position.isBefore l q = false ->
  Position.isBefore e q = false.
Proof. destruct l, e, q. intros H1 H2. order_positions. Qed.



(** The loop keeps a maximum of the end positions seen so far. *)
Lemma fold_cursorStep_max undoEdits (p0 : Position.t) :
  exists p,
    fold_left cursorStep undoEdits (Some p0) = Some p
    /\ In p (p0 :: endPositions undoEdits)
    /\ Position.isBefore p p0 = false
    /\ Forall (fun q => Position.isBefore p q = false) (endPositions undoEdits).
Proof.
  revert p0. induction undoEdits as [|e l IH]; intros p0; simpl.
  - exists p0. repeat split; auto using isBefore_irrefl.
  - set (q := Range.getEndPosition (v_range e)).
    destruct (Position.isBefore p0 q) eqn:Hlt.
    + destruct (IH q) as (p & Hp & Hin & Hq & Hall).
      exists p. refine (conj Hp (conj _ (conj _ _))).
      * right. exact Hin.
      * destruct (Position.isBefore p p0) eqn:Hpp0; [|reflexivity].
        rewrite (@isBefore_not_before_trans p p0 q Hpp0 Hq) in Hlt. discriminate.
      * constructor; assumption.
    + destruct (IH p0) as (p & Hp & Hin & Hp0 & Hall).
      exists p. refine (conj Hp (conj _ (conj Hp0 _))).
      * destruct Hin as [->|Hin]; [now left|right; now right].
      * constructor; [|exact Hall].
        destruct (Position.isBefore p q) eqn:Hpq; [|reflexivity].
        destruct (Position.isBefore p0 p) eqn:Hp0p.
        -- rewrite (@isBefore_not_before_trans p0 p q Hp0p Hlt) in Hpq. discriminate.
        -- destruct p0, p, q. order_positions.
Qed.

Lemma cursor_of_batch (first : IValidEditOperation)
  (rest : list IValidEditOperation) :
  exists p,
    cursorStateComputerAndInlineDiffCollection (first :: rest)
    = Some [Selection.fromPositions p]
    /\ In p (endPositions (first :: rest))
    /\ Forall (fun q => Position.isBefore p q = false)
              (endPositions (first :: rest)).
Proof.
  unfold cursorStateComputerAndInlineDiffCollection. simpl fold_left.
  destruct (fold_cursorStep_max rest (Range.getEndPosition (v_range first)))
    as (p & Hp & Hin & Hp0 & Hall).
  exists p. rewrite Hp. repeat split; auto.
  simpl. constructor; assumption.
Qed.





(** ** Cancelling *)

Lemma undo_shrinks (m : TextModel.t) :
  TextModel.canUndo m = true ->
  (List.length (TextModel.undoStack (TextModel.undo m))
   < List.length (TextModel.undoStack m))%nat.
Proof.
  unfold TextModel.canUndo, TextModel.undo.
  destruct (TextModel.undoStack m) as [|[v a] past]; simpl.
  - discriminate.
  - lia.
Qed.

Lemma undoWhileAbove_loop targetAltVersion m :
  undoWhileAbove targetAltVersion m =
  if aboveTarget targetAltVersion m
  then undoWhileAbove targetAltVersion (TextModel.undo m)
  else m.
Proof.
  unfold aboveTarget. rewrite undoWhileAbove_equation_1.
  destruct (inspect _) as [[] e]; simpl; rewrite e; reflexivity.
Qed.

Lemma undo_disposed m :
  TextModel.disposed (TextModel.undo m) = TextModel.disposed m.
Proof.
  unfold TextModel.undo. destruct (TextModel.undoStack m) as [|[v a] past];
    reflexivity.
Qed.

(** The loop stops, after some number of undos, at the first model that fails
    its test. *)
Lemma undoWhileAbove_spec targetAltVersion m :
  exists n,
    undoWhileAbove targetAltVersion m = undoTimes n m
    /\ (forall k, (k < n)%nat ->
                  aboveTarget targetAltVersion (undoTimes k m) = true)
    /\ aboveTarget targetAltVersion (undoTimes n m) = false.
Proof.
  remember (List.length (TextModel.undoStack m)) as size eqn:Hsize.
  revert m Hsize.
  induction size as [size IH] using lt_wf_ind; intros m Hsize.
  rewrite undoWhileAbove_loop.
  destruct (aboveTarget targetAltVersion m) eqn:Htest.
  - assert (Hless : (List.length (TextModel.undoStack (TextModel.undo m))
                     < size)%nat).
    { subst size. apply undo_shrinks.
      unfold aboveTarget in Htest. apply andb_prop in Htest. tauto. }
    destruct (IH _ Hless (TextModel.undo m) eq_refl) as (n & Hn & Hbefore & Hstop).
    exists (S n). simpl. refine (conj Hn (conj _ Hstop)).
    intros [|k] Hk; simpl; [exact Htest|]. apply Hbefore. lia.
  - exists 0%nat. simpl. refine (conj eq_refl (conj _ Htest)).
    intros k Hk. lia.
Qed.

Lemma undoWhileAbove_disposed targetAltVersion m :
  TextModel.disposed (undoWhileAbove targetAltVersion m) = TextModel.disposed m.
Proof.
  destruct (undoWhileAbove_spec targetAltVersion m) as (n & -> & _).
  revert m. induction n as [|n IH]; intros m; simpl; [reflexivity|].
  now rewrite IH, undo_disposed.
Qed.

Lemma aboveTarget_false targetAltVersion m :
  aboveTarget targetAltVersion m = false <->
  TextModel.getAlternativeVersionId m <= targetAltVersion
  \/ TextModel.canUndo m = false.
Proof.
  unfold aboveTarget. rewrite andb_false_iff, Z.ltb_ge. reflexivity.
Qed.

Lemma aboveTarget_true targetAltVersion m :
  aboveTarget targetAltVersion m = true <->
  targetAltVersion < TextModel.getAlternativeVersionId m
  /\ TextModel.canUndo m = true.
Proof.
  unfold aboveTarget. rewrite andb_true_iff, Z.ltb_lt. reflexivity.
Qed.

(** C2, as stated, fails: with a snapshot later than the baseline [cancel]
    stops at the snapshot marker, above the earlier of the two markers, while
    undo is still available. *)
Lemma C2_snapshot_later_than_baseline :
  (cancel (mkStrategy 2 snapshotSession)).(_session).(textModelN)
  = TextModel.mk false "abc" 3 [("ab", 2); ("a", 1)]%string
      [("abcd", 4); ("abcde", 5)]%string
  /\ ~ cancel_reaches_earlier_marker (mkStrategy 2 snapshotSession).
Proof.
  split; [reflexivity|].
  unfold cancel_reaches_earlier_marker.
  change ((cancel (mkStrategy 2 snapshotSession)).(_session).(textModelN))
    with (TextModel.mk false "abc" 3 [("ab", 2); ("a", 1)]%string
            [("abcd", 4); ("abcde", 5)]%string).
  unfold earlierMarker. simpl. intros [H|H]; [lia|discriminate].
Qed.

(** C2, amended.  [cancel] leaves a strategy whose document is disposed as
    it is.  Otherwise it undoes the document some number of times, every undo
    being made with the alternative version id above the target and an undo
    available, and stops at the first state whose alternative version id is at
    or below the target or that has nothing to undo; the target is the
    snapshot marker when the session has one and the baseline marker
    otherwise. *)
Theorem C2_cancel_undoes_to_target (this : EditStrategy) :
  let session := this.(_session) in
  let modelN := session.(textModelN) in
  let target := match session.(textModelNSnapshotAltVersion) with
                | Some snapshot => snapshot
                | None => session.(textModelNAltVersion)
                end in
  if TextModel.isDisposed modelN then cancel this = this
  else
    exists n,
      cancel this
      = mkStrategy this.(_editCount) (withTextModelN session (undoTimes n modelN))
      /\ (forall k, (k < n)%nat ->
            target < TextModel.getAlternativeVersionId (undoTimes k modelN)
            /\ TextModel.canUndo (undoTimes k modelN) = true)
      /\ (TextModel.getAlternativeVersionId (undoTimes n modelN) <= target
          \/ TextModel.canUndo (undoTimes n modelN) = false).
Proof.
  intros session modelN target. unfold cancel. fold session. fold modelN.
  destruct (TextModel.isDisposed modelN); [reflexivity|].
  change (targetAltVersionOf session) with target.
  destruct (undoWhileAbove_spec target modelN) as (n & Hn & Hbefore & Hstop).
  exists n. rewrite Hn. refine (conj eq_refl (conj _ _)).
  - intros k Hk. apply aboveTarget_true. now apply Hbefore.
  - now apply aboveTarget_false.
Qed.

Lemma C2_cancel_undoes_to_target_witness :
  exists n,
    cancel (mkStrategy 2 snapshotSession)
    = mkStrategy 2
        (withTextModelN snapshotSession
           (undoTimes n snapshotSession.(textModelN)))
    /\ (forall k, (k < n)%nat ->
          3 < TextModel.getAlternativeVersionId
                (undoTimes k snapshotSession.(textModelN))
          /\ TextModel.canUndo (undoTimes k snapshotSession.(textModelN)) = true)
    /\ (TextModel.getAlternativeVersionId
          (undoTimes n snapshotSession.(textModelN)) <= 3
        \/ TextModel.canUndo (undoTimes n snapshotSession.(textModelN)) = false).
Proof.
  exact (C2_cancel_undoes_to_target (mkStrategy 2 snapshotSession)).
Defined.

(** C7.  [cancel] is idempotent.  On a strategy whose document is already at
    or below the target marker it undoes nothing and returns the strategy, its
    document included, as it was; a second [cancel] after a first one changes
    nothing; and the target marker is the baseline marker as long as the
    session has no snapshot. *)
Theorem C7_cancel_idempotent (this : EditStrategy) :
  (TextModel.getAlternativeVersionId this.(_session).(textModelN)
   <= targetAltVersionOf this.(_session) ->
   cancel this = this)
  /\ cancel (cancel this) = cancel this
  /\ (this.(_session).(textModelNSnapshotAltVersion) = None ->
      targetAltVersionOf this.(_session) = this.(_session).(textModelNAltVersion)).
Proof.
  destruct this as [count session]. simpl.
  destruct session as [modelN baseline snapshot input exchange].
  unfold cancel, targetAltVersionOf, withTextModelN. simpl.
  set (target := match snapshot with Some s => s | None => baseline end).
  split; [|split].
  - intros Hle. destruct (TextModel.isDisposed modelN); [reflexivity|].
    rewrite undoWhileAbove_loop.
    assert (Htest : aboveTarget target modelN = false)
      by (apply aboveTarget_false; now left).
    now rewrite Htest.
  - destruct (TextModel.isDisposed modelN) eqn:Hdisposed; simpl.
    + now rewrite Hdisposed.
    + unfold TextModel.isDisposed in *.
      rewrite undoWhileAbove_disposed, Hdisposed.
      do 2 f_equal.
      destruct (undoWhileAbove_spec target modelN) as (n & Hn & _ & Hstop).
      rewrite Hn. fold target. rewrite undoWhileAbove_loop, Hstop. reflexivity.
  - intros ->. reflexivity.
Qed.

Lemma C7_cancel_idempotent_witness :
  cancel (mkStrategy 2 restoredSession) = mkStrategy 2 restoredSession
  /\ targetAltVersionOf restoredSession = 1.
Proof.
  destruct (C7_cancel_idempotent (mkStrategy 2 restoredSession))
    as (Hnoop & _ & Htarget).
  split.
  - apply Hnoop. unfold restoredSession, targetAltVersionOf. simpl. lia.
  - apply Htarget. reflexivity.
Defined.

(** ** Finalizing *)

(** C6.  [apply] pushes one closing undo boundary when the edit count is
    positive and none when it is zero, and calls nothing else on the editor.
    When the last exchange's response carries an untitled model that is
    neither disposed nor clean it saves that model once, with the reason
    [EXPLICIT]; otherwise it saves nothing and leaves the strategy as it
    was.  The edit count is not changed. *)
Theorem C6_apply_closes_and_saves
  (this : EditStrategy) (editor : IActiveCodeEditor) :
  let result := apply this editor in
  snd result
  = editor ++ (if (0 <? this.(_editCount))%nat then [PushUndoStop] else [])
  /\ (In PushUndoStop
         (if (0 <? this.(_editCount))%nat then [PushUndoStop] else [])
      <-> (0 < this.(_editCount))%nat)
  /\ savesOf (fst result).(_session)
     = savesOf this.(_session)
       ++ (if carriesDirtyUntitled this.(_session) then [EXPLICIT] else [])
  /\ (if carriesDirtyUntitled this.(_session) then True else fst result = this)
  /\ (fst result).(_editCount) = this.(_editCount).
Proof.
  intros result. subst result. unfold apply.
  destruct this as [count session]. simpl.
  assert (Hlog : (if (0 <? count)%nat then editor ++ [PushUndoStop]
                  else editor)
                 = editor
                     ++ (if (0 <? count)%nat then [PushUndoStop] else [])).
  { destruct (0 <? count)%nat; [reflexivity|]. now rewrite app_nil_r. }
  assert (Hiff : In PushUndoStop
                   (if (0 <? count)%nat then [PushUndoStop] else [])
                 <-> (0 < count)%nat).
  { destruct (Nat.ltb_spec 0 count); simpl; split; intros; auto;
      try lia; try contradiction. }
  unfold savesOf, carriesDirtyUntitled, untitledOf.
  destruct session as [modelN baseline snapshot input exchange]. simpl.
  destruct exchange as [[p [[u|]| |]]|]; simpl;
    try (rewrite ?app_nil_r; repeat split; auto; apply Hiff).
  destruct (negb (u_disposed u) && u_dirty u); simpl.
  - repeat split; auto; apply Hiff.
  - rewrite app_nil_r. repeat split; auto; apply Hiff.
Qed.

(** ** Skipped batches *)

Section MakeChangesFacts.

Variable countWords : string -> number.
Variable computeMoreMinimalEdits :
  IActiveCodeEditor -> list TextEdit -> option (list TextEdit).

Lemma _makeChanges_trace c edits opts :
  trace (snd (_makeChanges countWords computeMoreMinimalEdits c edits opts))
  = trace c.
Proof.
  unfold _makeChanges.
  destruct (_activeSession c), (_strategy c); try reflexivity.
  destruct (computeMoreMinimalEdits (editor c) edits) as [[|m minimal]|];
    destruct opts; reflexivity.
Qed.

Lemma callMakeChanges_trace c edits opts :
  trace (snd (callMakeChanges countWords computeMoreMinimalEdits c edits opts))
  = trace c ++ [CalledMakeChanges edits opts].
Proof.
  unfold callMakeChanges. now rewrite _makeChanges_trace.
Qed.

End MakeChangesFacts.

(** C10.  When the worker's minimal form of a batch is the empty list,
    [_makeChanges] returns with the controller exactly as it found it: the
    editor has received no call (no edit, no undo boundary), the tracked
    range is untouched and the strategy's edit counter is not incremented.
    The batch therefore leaves the one-time undo stop to the next batch that
    has edits: on a strategy that has not edited yet, that batch pushes it. *)
Theorem C10_empty_minimal_batch_is_skipped
  (countWords : string -> number)
  (computeMoreMinimalEdits :
     IActiveCodeEditor -> list TextEdit -> option (list TextEdit))
  (c : NotebookCellChatController) (edits : list TextEdit)
  (opts : option ProgressingEditsOptions) :
  computeMoreMinimalEdits c.(editor) edits = Some [] ->
  snd (_makeChanges countWords computeMoreMinimalEdits c edits opts) = c
  /\ fst (_makeChanges countWords computeMoreMinimalEdits c edits opts)
     = match c.(_activeSession), c.(_strategy) with
       | Some _, Some _ => Returned
       | _, _ => Threw AssertionFailed
       end
  /\ (forall session strategy next m minimal,
        c.(_activeSession) = Some session ->
        c.(_strategy) = Some strategy ->
        strategy.(_editCount) = 0%nat ->
        computeMoreMinimalEdits c.(editor) next = Some (m :: minimal) ->
        editor
          (snd (_makeChanges countWords computeMoreMinimalEdits
                  (snd (_makeChanges countWords computeMoreMinimalEdits
                          c edits opts))
                  next None))
        = c.(editor)
            ++ [PushUndoStop;
                ExecuteEdits "inline-chat-live"
                  (map asEditOperation (m :: minimal))
                  cursorStateComputerAndInlineDiffCollection]).
Proof.
  intros Hempty.
  assert (Hsame : snd (_makeChanges countWords computeMoreMinimalEdits
                         c edits opts) = c).
  { unfold _makeChanges.
    destruct (_activeSession c), (_strategy c); try reflexivity.
    now rewrite Hempty. }
  split; [exact Hsame|]. split.
  - unfold _makeChanges.
    destruct (_activeSession c), (_strategy c); try reflexivity.
    now rewrite Hempty.
  - intros session strategy next m minimal Hsession Hstrategy Hcount Hnext.
    rewrite Hsame. unfold _makeChanges.
    rewrite Hsession, Hstrategy, Hnext. cbn [snd afterEdit editor].
    rewrite (makeChanges_spec countWords). cbn [snd].
    rewrite Hcount. reflexivity.
Qed.

Lemma C10_empty_minimal_batch_is_skipped_witness :
  snd (_makeChanges (fun _ => 1%float) (fun _ _ => Some []) readyController
         [someEdit] None)
  = readyController.
Proof.
  apply (C10_empty_minimal_batch_is_skipped
           (fun _ => 1%float) (fun _ _ => Some []) readyController
           [someEdit] None).
  reflexivity.
Defined.

(** ** The request loop: what a request leaves untouched *)

Lemma Extends_refl c : Extends c c.
Proof.
  constructor; auto. exists []. now rewrite app_nil_r.
Qed.

Lemma Extends_trans c1 c2 c3 : Extends c1 c2 -> Extends c2 c3 -> Extends c1 c3.
Proof.
  intros [s1 f1 a1 p1 g1 (t1 & e1 & h1)] [s2 f2 a2 p2 g2 (t2 & e2 & h2)].
  constructor; try congruence; auto.
  exists (t1 ++ t2). rewrite e2, e1, app_assoc, forallb_app, h1, h2. auto.
Qed.

Section RequestFacts.

Variable countWords : string -> number.
Variable computeMoreMinimalEdits :
  IActiveCodeEditor -> list TextEdit -> option (list TextEdit).

Lemma _makeChanges_Extends c edits opts :
  Extends c (snd (_makeChanges countWords computeMoreMinimalEdits c edits opts)).
Proof.
  unfold _makeChanges.
  destruct (_activeSession c) eqn:Hs, (_strategy c) eqn:Ht;
    try apply Extends_refl.
  destruct (computeMoreMinimalEdits (editor c) edits) as [[|m minimal]|];
    try apply Extends_refl;
    destruct opts; constructor; simpl; auto; try discriminate;
    exists []; now rewrite app_nil_r.
Qed.

Lemma _makeChanges_returns c edits opts :
  c.(_activeSession) <> None -> c.(_strategy) <> None ->
  fst (_makeChanges countWords computeMoreMinimalEdits c edits opts) = Returned.
Proof.
  unfold _makeChanges. intros Hs Ht.
  destruct (_activeSession c), (_strategy c); try congruence.
  destruct (computeMoreMinimalEdits (editor c) edits) as [[|m minimal]|];
    destruct opts; reflexivity.
Qed.

Lemma record_call_Extends c edits opts :
  Extends c (record (CalledMakeChanges edits opts) c).
Proof.
  constructor; simpl; auto. exists [CalledMakeChanges edits opts]. auto.
Qed.

Lemma callMakeChanges_Extends c edits opts :
  Extends c
    (snd (callMakeChanges countWords computeMoreMinimalEdits c edits opts)).
Proof.
  unfold callMakeChanges.
  eapply Extends_trans; [apply record_call_Extends|apply _makeChanges_Extends].
Qed.

Lemma runTask_Extends l c data :
  Extends c (runTask countWords computeMoreMinimalEdits l c data).
Proof. apply callMakeChanges_Extends. Qed.

Lemma runTask_trace l c data :
  trace (runTask countWords computeMoreMinimalEdits l c data)
  = trace c
    ++ [CalledMakeChanges
          (match data.(edits) with Some e => e | None => [] end)
          (if truthyBool data.(editsShouldBeInstant) then None
           else Some (mkOpts
                        (MovingAverage.value l.(progressiveEditsAvgDuration))
                        progressiveEditsCts_token))].
Proof. apply callMakeChanges_trace. Qed.

Lemma enqueue_Extends l c data :
  Extends c (snd (enqueue countWords computeMoreMinimalEdits l c data)).
Proof.
  unfold enqueue. destruct (Queue.running (progressiveEditsQueue l)); simpl.
  - apply Extends_refl.
  - apply runTask_Extends.
Qed.

Lemma settle_Extends l c :
  Extends c (snd (settle countWords computeMoreMinimalEdits l c)).
Proof.
  unfold settle. destruct (Queue.running (progressiveEditsQueue l)); simpl.
  - destruct (Queue.pending (progressiveEditsQueue l)); simpl.
    + apply Extends_refl.
    + apply runTask_Extends.
  - apply Extends_refl.
Qed.

Lemma onWidget_info_Extends c msg :
  Extends c (onWidget (fun w => updateInfo (updateToolbar w false) msg) c).
Proof.
  constructor; simpl; auto.
  - now destruct (_widget c).
  - exists []. now rewrite app_nil_r.
Qed.

Lemma onProgress_Extends l c elapsed data :
  Extends c
    (snd (onProgress countWords computeMoreMinimalEdits l c elapsed data)).
Proof.
  unfold onProgress. simpl.
  destruct (truthyString (message data)), (truthyLength (edits data)); simpl;
    try apply Extends_refl; try apply onWidget_info_Extends;
    try apply enqueue_Extends.
  eapply Extends_trans; [apply onWidget_info_Extends|apply enqueue_Extends].
Qed.

Lemma providerStep_Extends s ev :
  Extends (snd s)
    (snd (providerStep countWords computeMoreMinimalEdits s ev)).
Proof.
  destruct ev; simpl; [apply onProgress_Extends|apply settle_Extends].
Qed.

Lemma stream_Extends evs s :
  Extends (snd s)
    (snd (fold_left (providerStep countWords computeMoreMinimalEdits) evs s)).
Proof.
  revert s. induction evs as [|ev evs IH]; intros s; simpl.
  - apply Extends_refl.
  - eapply Extends_trans; [apply providerStep_Extends|apply IH].
Qed.

Lemma settleAll_as_events n l c :
  settleAll countWords computeMoreMinimalEdits n l c
  = fold_left (providerStep countWords computeMoreMinimalEdits)
      (repeat TaskSettled n) (l, c).
Proof.
  revert l c. induction n as [|n IH]; intros l c; simpl; [reflexivity|].
  destruct (settle countWords computeMoreMinimalEdits l c) as [l' c'].
  apply IH.
Qed.

End RequestFacts.

(** ** The request loop: batches, samples and queued tasks *)

Lemma batchesOf_app evs evs' :
  batchesOf (evs ++ evs') = batchesOf evs ++ batchesOf evs'.
Proof.
  induction evs as [|[elapsed data|] evs IH]; simpl; auto.
  destruct (truthyLength (edits data)); simpl; now rewrite IH.
Qed.

Lemma batchesOf_settled n : batchesOf (repeat TaskSettled n) = [].
Proof. induction n; simpl; auto. Qed.

Lemma taskCall_more samples more entry :
  (snd entry <= List.length samples)%nat ->
  taskCall (samples ++ more) entry = taskCall samples entry.
Proof.
  intros Hle. unfold taskCall. rewrite firstn_app.
  replace (snd entry - List.length samples)%nat with 0%nat by lia.
  simpl. now rewrite app_nil_r.
Qed.

Lemma map_taskCall_more samples more started :
  Forall (fun entry => (snd entry <= List.length samples)%nat) started ->
  map (taskCall (samples ++ more)) started = map (taskCall samples) started.
Proof.
  induction 1 as [|entry started Hle _ IH]; simpl; [reflexivity|].
  now rewrite taskCall_more, IH.
Qed.

Lemma nth_error_snoc (A : Type) (l : list A) (x : A) k y :
  nth_error (l ++ [x]) k = Some y ->
  nth_error l k = Some y \/ (k = List.length l /\ y = x).
Proof.
  intros H. destruct (Nat.lt_ge_cases k (List.length l)) as [Hlt|Hge].
  - left. now rewrite nth_error_app1 in H.
  - right. rewrite nth_error_app2 in H by exact Hge.
    destruct (k - List.length l)%nat as [|j] eqn:Hk; simpl in H.
    + split; [lia|congruence].
    + now destruct j.
Qed.

Section StreamingFacts.

Variable countWords : string -> number.
Variable computeMoreMinimalEdits :
  IActiveCodeEditor -> list TextEdit -> option (list TextEdit).

(** Starting the next task: it reads the average as it stands. *)
Lemma Streaming_start c0 batches l c started data pending' running' :
  l.(progressEdits) = map (fun b => editsOf (snd b)) batches ->
  l.(progressiveEditsAvgDuration) = averageAfter (map fst batches) ->
  filter isCalled c.(trace)
  = filter isCalled c0.(trace) ++ map (taskCall (map fst batches)) started ->
  Forall (fun entry => (snd entry <= List.length batches)%nat) started ->
  (forall k entry, nth_error started k = Some entry -> (k < snd entry)%nat) ->
  map fst started ++ data :: pending' = map snd batches ->
  (running' = false -> pending' = []) ->
  Streaming c0 batches
    (mkLocals l.(progressEdits) l.(progressiveEditsAvgDuration)
       (Queue.mk running' pending'))
    (runTask countWords computeMoreMinimalEdits l c data)
    (started ++ [(data, List.length batches)]).
Proof.
  intros He Ha Hc Hb Hw Horder Hidle.
  assert (Hlen : (List.length started < List.length batches)%nat).
  { apply (f_equal (@List.length _)) in Horder.
    rewrite length_app, !length_map in Horder. simpl in Horder. lia. }
  constructor; simpl; auto.
  - rewrite runTask_trace, filter_app, Hc. simpl.
    rewrite map_app, <- app_assoc. simpl. do 3 f_equal.
    unfold taskCall, editsOf. simpl.
    rewrite <- (length_map fst batches), firstn_all, Ha. reflexivity.
  - rewrite map_app, <- app_assoc. exact Horder.
  - apply Forall_app. split; [exact Hb|]. constructor; simpl; auto.
  - intros k entry Hk. apply nth_error_snoc in Hk as [Hk|[-> ->]].
    + now apply Hw in Hk.
    + simpl. exact Hlen.
Qed.

Lemma Streaming_widget c0 batches l c started f :
  Streaming c0 batches l c started ->
  Streaming c0 batches l (onWidget f c) started.
Proof. intros [He Ha Hi Hc Ho Hb Hw]. constructor; auto. Qed.

Lemma Streaming_record c0 batches l c started a :
  isCalled a = false ->
  Streaming c0 batches l c started ->
  Streaming c0 batches l (record a c) started.
Proof.
  intros Ha0 [He Ha Hi Hc Ho Hb Hw]. constructor; auto. simpl.
  rewrite filter_app. simpl. rewrite Ha0, app_nil_r. exact Hc.
Qed.

Lemma Streaming_settle c0 batches l c started :
  Streaming c0 batches l c started ->
  exists more,
    Streaming c0 batches
      (fst (settle countWords computeMoreMinimalEdits l c))
      (snd (settle countWords computeMoreMinimalEdits l c))
      (started ++ more).
Proof.
  intros Hs. unfold settle.
  destruct l as [pe avg [running pending]]. simpl.
  destruct running; [|exists []; rewrite app_nil_r; exact Hs].
  destruct Hs as [He Ha Hi Hc Ho Hb Hw]. simpl in *.
  destruct pending as [|data rest]; simpl.
  - exists []. rewrite app_nil_r. constructor; auto.
  - exists [(data, List.length batches)].
    apply (@Streaming_start c0 batches (mkLocals pe avg (Queue.mk true (data :: rest)))
             c started data rest true); auto.
    discriminate.
Qed.

Lemma Streaming_batch c0 batches l c started elapsed data :
  Streaming c0 batches l c started ->
  exists more,
    Streaming c0 (batches ++ [(elapsed, data)])
      (fst (enqueue countWords computeMoreMinimalEdits
              (mkLocals (l.(progressEdits) ++ [editsOf data])
                 (MovingAverage.update l.(progressiveEditsAvgDuration) elapsed)
                 l.(progressiveEditsQueue))
              c data))
      (snd (enqueue countWords computeMoreMinimalEdits
              (mkLocals (l.(progressEdits) ++ [editsOf data])
                 (MovingAverage.update l.(progressiveEditsAvgDuration) elapsed)
                 l.(progressiveEditsQueue))
              c data))
      (started ++ more).
Proof.
  intros [He Ha Hi Hc Ho Hb Hw].
  assert (Hcalls : filter isCalled (trace c)
                   = filter isCalled (trace c0)
                     ++ map (taskCall (map fst (batches ++ [(elapsed, data)])))
                          started).
  { rewrite map_app, map_taskCall_more; [exact Hc|].
    now rewrite length_map. }
  assert (Hbound : Forall
            (fun entry =>
               (snd entry <= List.length (batches ++ [(elapsed, data)]))%nat)
            started).
  { eapply Forall_impl; [|exact Hb]. simpl. intros entry Hle.
    rewrite length_app. simpl. lia. }
  unfold enqueue. simpl.
  destruct l as [pe avg [running pending]]. simpl in *.
  assert (Hedits : pe ++ [editsOf data]
                   = map (fun b => editsOf (snd b))
                         (batches ++ [(elapsed, data)]))
    by now rewrite map_app, He.
  assert (Havg : MovingAverage.update avg elapsed
                 = averageAfter (map fst (batches ++ [(elapsed, data)]))).
  { rewrite map_app. simpl. unfold averageAfter in *.
    now rewrite fold_left_app, <- Ha. }
  destruct running; simpl.
  - exists []. rewrite app_nil_r. constructor; simpl; auto.
    + discriminate.
    + rewrite map_app, app_assoc, Ho. reflexivity.
  - assert (Hnone : pending = []) by auto. subst pending.
    rewrite app_nil_r in Ho.
    exists [(data, List.length (batches ++ [(elapsed, data)]))].
    apply (@Streaming_start c0 (batches ++ [(elapsed, data)])
             (mkLocals (pe ++ [editsOf data])
                (MovingAverage.update avg elapsed) (Queue.mk false []))
             c started data [] true); auto.
    rewrite map_app, Ho. reflexivity.
Qed.

Lemma Streaming_step c0 batches l c started ev :
  Streaming c0 batches l c started ->
  exists more,
    Streaming c0 (batches ++ batchesOf [ev])
      (fst (providerStep countWords computeMoreMinimalEdits (l, c) ev))
      (snd (providerStep countWords computeMoreMinimalEdits (l, c) ev))
      (started ++ more).
Proof.
  intros Hs. destruct ev as [elapsed data|]; simpl.
  - unfold onProgress. simpl.
    destruct (truthyLength (edits data)) eqn:Hedits.
    + destruct (truthyString (message data)).
      * apply Streaming_batch. now apply Streaming_widget.
      * now apply Streaming_batch.
    + exists []. rewrite !app_nil_r.
      destruct (truthyString (message data)); simpl;
        [now apply Streaming_widget|exact Hs].
  - rewrite app_nil_r. now apply Streaming_settle.
Qed.

Lemma Streaming_events c0 evs batches l c started :
  Streaming c0 batches l c started ->
  exists more,
    Streaming c0 (batches ++ batchesOf evs)
      (fst (fold_left (providerStep countWords computeMoreMinimalEdits)
              evs (l, c)))
      (snd (fold_left (providerStep countWords computeMoreMinimalEdits)
              evs (l, c)))
      (started ++ more).
Proof.
  revert batches l c started.
  induction evs as [|ev evs IH]; intros batches l c started Hs.
  - exists []. simpl. rewrite !app_nil_r. exact Hs.
  - destruct (Streaming_step ev Hs) as (more1 & H1).
    simpl fold_left.
    destruct (providerStep countWords computeMoreMinimalEdits (l, c) ev)
      as [l1 c1] eqn:Hstep. simpl in H1.
    destruct (IH _ _ _ _ H1) as (more2 & H2).
    exists (more1 ++ more2). rewrite app_assoc.
    change (ev :: evs) with ([ev] ++ evs).
    rewrite batchesOf_app, app_assoc. exact H2.
Qed.

Lemma Streaming_initial c :
  Streaming c [] newRequestLocals c [].
Proof.
  constructor; simpl; auto.
  - now rewrite app_nil_r.
  - intros [|k] entry H; discriminate.
Qed.

(** Once every task has settled the queue is empty. *)
Lemma settleAll_drains n l c :
  (Queue.running l.(progressiveEditsQueue) = false ->
   Queue.pending l.(progressiveEditsQueue) = []) ->
  (Queue.size l.(progressiveEditsQueue) <= n)%nat ->
  progressiveEditsQueue
    (fst (settleAll countWords computeMoreMinimalEdits n l c))
  = Queue.mk false [].
Proof.
  revert l c. induction n as [|n IH]; intros l c Hidle Hsize.
  - destruct l as [pe avg [[|] pending]]; unfold Queue.size in Hsize;
      simpl in *; [lia|].
    now rewrite Hidle.
  - simpl. destruct l as [pe avg [running pending]].
    unfold settle; simpl.
    destruct running; simpl in *.
    + destruct pending as [|data rest]; simpl.
      * apply IH; simpl; auto. unfold Queue.size. simpl. lia.
      * apply IH; simpl; [discriminate|]. unfold Queue.size in *.
        simpl in *. lia.
    + apply IH; simpl; auto. rewrite Hidle by reflexivity.
      unfold Queue.size. simpl. lia.
Qed.

End StreamingFacts.

(** ** Pacing durations *)

Lemma filter_all (A : Type) (f : A -> bool) (l : list A) :
  forallb f l = true -> filter f l = l.
Proof.
  induction l as [|x l IH]; simpl; [reflexivity|].
  intros H. apply andb_prop in H as [-> Hl]. now rewrite IH.
Qed.

Lemma forallb_isCalled_taskCall samples started :
  forallb isCalled (map (taskCall samples) started) = true.
Proof. induction started; simpl; auto. Qed.

(** The calls a request has added to the trace are those of the tasks it has
    started. *)
Lemma added_calls c0 c batches (started : list (IInlineChatProgressItem * nat))
  (l : RequestLocals) (added : list Action) :
  Streaming c0 batches l c started ->
  filter isCalled c.(trace) = filter isCalled c0.(trace) ++ filter isCalled added ->
  filter isCalled added = map (taskCall (map fst batches)) started.
Proof.
  intros Hs Htrace. rewrite (st_calls Hs) in Htrace.
  apply app_inv_head in Htrace. now symmetry.
Qed.

(** C4, as stated, fails: the first batch of a request, arriving 100 ms after
    the clock was started, is paced with a duration of 100 ms, the average
    over its own sample, and not with the value 0 the average had before
    it. *)
Lemma C4_first_batch_paced_by_own_sample :
  trace (snd (fold_left
                (providerStep (fun _ => 1%float) (fun _ e => Some e))
                [Progress (100%float)
                   (mkProgressItem None (Some [someEdit]) None)]
                (newRequestLocals, readyController)))
  = [CalledMakeChanges [someEdit]
       (Some (mkOpts (MovingAverage.value
                        (MovingAverage.update MovingAverage.create
                           (100%float)))
                     progressiveEditsCts_token))]
  /\ MovingAverage.value
       (MovingAverage.update MovingAverage.create (100%float))
     <> MovingAverage.value MovingAverage.create
  /\ ~ one_batch_lag.
Proof.
  assert (Hne : MovingAverage.value
                  (MovingAverage.update MovingAverage.create (100%float))
                <> MovingAverage.value MovingAverage.create).
  { intros H. apply (f_equal (fun n => PrimFloat.eqb n 0%float)) in H.
    vm_compute in H. discriminate. }
  split; [reflexivity|]. split; [exact Hne|].
  intros Hlag.
  destruct (Hlag (fun _ => 1%float) (fun _ e => Some e) readyController
              [Progress (100%float)
                 (mkProgressItem None (Some [someEdit]) None)]
              0%nat [someEdit]
              (mkOpts (MovingAverage.value
                         (MovingAverage.update MovingAverage.create
                            (100%float)))
                      progressiveEditsCts_token) eq_refl)
    as (m & Hm & Hduration).
  assert (m = 0%nat) by lia. subst m. simpl in Hduration.
  exact (Hne Hduration).
Qed.

(** C4, amended.  When the task of a batch starts it reads the rolling
    average as it stands, and the sample of that batch is already in it: the
    [k]-th [_makeChanges] call of the request is the one for the [k]-th batch
    received, and unless the batch asks for instant application its pacing
    duration is the value of the average over the first [m] samples for some
    [m] greater than [k], so over the samples of the batches up to the
    [k]-th at least, and of later batches that arrived before the task
    started. *)
Theorem C4_average_includes_own_sample
  (countWords : string -> number)
  (computeMoreMinimalEdits :
     IActiveCodeEditor -> list TextEdit -> option (list TextEdit))
  (c : NotebookCellChatController) (evs : list ProviderEvent) :
  let s := fold_left (providerStep countWords computeMoreMinimalEdits) evs
                     (newRequestLocals, c) in
  let samples := map fst (batchesOf evs) in
  exists started : list (IInlineChatProgressItem * nat),
    trace (snd s) = trace c ++ map (taskCall samples) started
    /\ map fst started ++ Queue.pending (fst s).(progressiveEditsQueue)
       = map snd (batchesOf evs)
    /\ (forall k entry,
           nth_error started k = Some entry ->
           (k < snd entry <= List.length samples)%nat)
    /\ (fst s).(progressiveEditsAvgDuration) = averageAfter samples.
Proof.
  intros s samples.
  destruct (Streaming_events countWords computeMoreMinimalEdits evs
              (Streaming_initial c)) as (started & Hs).
  simpl in Hs. fold s in Hs.
  destruct (ext_trace (stream_Extends countWords computeMoreMinimalEdits evs
                         (newRequestLocals, c)))
    as (added & Htrace & Hadded).
  simpl in Htrace. fold s in Htrace.
  exists started. split; [|split; [exact (st_order Hs)|split]].
  - rewrite Htrace. f_equal.
    rewrite <- (filter_all _ _ Hadded).
    apply (added_calls added Hs).
    now rewrite Htrace, filter_app.
  - intros k entry Hk. split; [exact (st_own Hs _ Hk)|].
    unfold samples. rewrite length_map.
    apply nth_error_In in Hk.
    exact (proj1 (Forall_forall _ _) (st_bound Hs) _ Hk).
  - exact (st_average Hs).
Qed.

Lemma C4_average_includes_own_sample_witness :
  exists started : list (IInlineChatProgressItem * nat),
    trace (snd (fold_left
                  (providerStep (fun _ => 1%float) (fun _ e => Some e))
                  [Progress (100%float)
                     (mkProgressItem None (Some [someEdit]) None)]
                  (newRequestLocals, readyController)))
    = map (taskCall [100%float]) started
    /\ (forall k entry,
           nth_error started k = Some entry -> (k < snd entry <= 1)%nat).
Proof.
  destruct (C4_average_includes_own_sample
              (fun _ => 1%float) (fun _ e => Some e) readyController
              [Progress (100%float)
                 (mkProgressItem None (Some [someEdit]) None)])
    as (started & Htrace & _ & Hown & _).
  exists started. split; [exact Htrace|exact Hown].
Defined.

(** ** A whole request *)

Lemma Extends_Same c c' : Extends c c' -> Same c c'.
Proof. intros [s f a p g t]. constructor; auto. Qed.

Lemma Same_refl c : Same c c.
Proof. constructor; auto. Qed.

Lemma Same_trans c1 c2 c3 : Same c1 c2 -> Same c2 c3 -> Same c1 c3.
Proof.
  intros [s1 f1 p1 g1] [s2 f2 p2 g2]. constructor; try congruence; auto.
Qed.

Lemma Same_record c a : Same c (record a c).
Proof. constructor; simpl; auto. Qed.

Section AcceptInputFacts.

Variable countWords : string -> number.
Variable computeMoreMinimalEdits :
  IActiveCodeEditor -> list TextEdit -> option (list TextEdit).
Variable IInlineChatResponse : Type.
Variable allLocalEdits :
  IInlineChatResponse -> list (list TextEdit) -> list (list TextEdit).

(** With a session, a widget and the cell editor, [acceptInput] is the
    request made on the controller as [atRequest] describes it. *)
Lemma acceptInput_request c session widget run :
  c.(_activeSession) = Some session ->
  c.(_widget) = Some widget ->
  c.(editorAttached) = true ->
  acceptInput countWords computeMoreMinimalEdits allLocalEdits c run
  = (fst (request countWords computeMoreMinimalEdits allLocalEdits
            (atRequest c session widget) run),
     snd (snd (request countWords computeMoreMinimalEdits allLocalEdits
                 (atRequest c session widget) run))).
Proof.
  intros Hs Hw Ha. unfold acceptInput. rewrite Hs, Hw.
  cbn [setActiveSession editorAttached]. rewrite Ha. reflexivity.
Qed.

Lemma acceptInput_rejected c session widget evs late :
  c.(_activeSession) = Some session ->
  c.(_widget) = Some widget ->
  c.(editorAttached) = true ->
  acceptInput countWords computeMoreMinimalEdits allLocalEdits c
    (mkRun evs (Rejected IInlineChatResponse) late)
  = (Threw ProviderRejected,
     snd (fold_left (providerStep countWords computeMoreMinimalEdits) evs
            (newRequestLocals, atRequest c session widget))).
Proof.
  intros Hs Hw Ha. rewrite (@acceptInput_request c session widget _ Hs Hw Ha).
  unfold request. cbn [events outcome].
  now destruct (fold_left _ evs _).
Qed.

Lemma applyRemaining_spec c batches :
  c.(_activeSession) <> None -> c.(_strategy) <> None ->
  fst (applyRemaining countWords computeMoreMinimalEdits c batches) = Returned
  /\ Extends c (snd (applyRemaining countWords computeMoreMinimalEdits c batches))
  /\ trace (snd (applyRemaining countWords computeMoreMinimalEdits c batches))
     = trace c ++ map (fun batch => CalledMakeChanges batch None) batches.
Proof.
  revert c. induction batches as [|batch rest IH]; intros c Hs Ht; simpl.
  - split; [reflexivity|]. split; [apply Extends_refl|].
    now rewrite app_nil_r.
  - pose proof (callMakeChanges_Extends countWords computeMoreMinimalEdits
                  c batch None) as Hext.
    pose proof (callMakeChanges_trace countWords computeMoreMinimalEdits
                  c batch None) as Htrace.
    assert (Hret : fst (callMakeChanges countWords computeMoreMinimalEdits
                          c batch None) = Returned)
      by (apply _makeChanges_returns; simpl; assumption).
    destruct (callMakeChanges countWords computeMoreMinimalEdits c batch None)
      as [r c1]. simpl in *. subst r.
    destruct (IH c1) as (Hr & He & Htr).
    + rewrite (ext_session Hext). exact Hs.
    + exact (ext_strategy Hext Ht).
    + split; [exact Hr|]. split; [exact (Extends_trans Hext He)|].
      rewrite Htr, Htrace, <- app_assoc. reflexivity.
Qed.

(** What takes place while [acceptInput] waits for the queue is a prefix of
    [late], followed by nothing but tasks that settle. *)
Lemma untilDrained_as_events late s :
  exists used n,
    late = used ++ snd (untilDrained countWords computeMoreMinimalEdits late s)
    /\ fst (untilDrained countWords computeMoreMinimalEdits late s)
       = fold_left (providerStep countWords computeMoreMinimalEdits)
           (used ++ repeat TaskSettled n) s.
Proof.
  revert s. induction late as [|ev rest IH]; intros s.
  - exists [], (Queue.size (progressiveEditsQueue (fst s))).
    split; [reflexivity|]. cbn [untilDrained fst app].
    rewrite settleAll_as_events. now destruct s.
  - cbn [untilDrained].
    destruct (Queue.size
                (progressiveEditsQueue
                   (fst (providerStep countWords computeMoreMinimalEdits s ev)))
              =? 0)%nat.
    + exists [ev], 0%nat. split; reflexivity.
    + destruct (IH (providerStep countWords computeMoreMinimalEdits s ev))
        as (used & n & Hlate & Hs).
      exists (ev :: used), n. split; [|exact Hs].
      cbn [app]. now f_equal.
Qed.

Lemma awaitDrained_as_events l c late :
  exists used n,
    late = used ++ snd (awaitDrained countWords computeMoreMinimalEdits l c late)
    /\ fst (awaitDrained countWords computeMoreMinimalEdits l c late)
       = let s := fold_left (providerStep countWords computeMoreMinimalEdits)
                    (used ++ repeat TaskSettled n) (l, c) in
         (fst s,
          if (0 <? Queue.size l.(progressiveEditsQueue))%nat
          then record AwaitedQueueDrained (snd s)
          else snd s).
Proof.
  unfold awaitDrained.
  destruct (0 <? Queue.size (progressiveEditsQueue l))%nat.
  - destruct (untilDrained_as_events late (l, c)) as (used & n & Hlate & Hs).
    exists used, n.
    destruct (untilDrained countWords computeMoreMinimalEdits late (l, c))
      as [s rest].
    cbn [fst snd] in *. subst s. split; [exact Hlate|reflexivity].
  - exists [], 0%nat. split; reflexivity.
Qed.

Lemma awaitDrained_Same l c late :
  Same c (snd (fst (awaitDrained countWords computeMoreMinimalEdits l c late))).
Proof.
  destruct (awaitDrained_as_events l c late) as (used & n & _ & ->).
  cbn zeta. cbn [fst snd].
  pose proof (Extends_Same
                (stream_Extends countWords computeMoreMinimalEdits
                   (used ++ repeat TaskSettled n) (l, c))) as Hext.
  cbn [snd] in Hext.
  destruct (0 <? Queue.size (progressiveEditsQueue l))%nat; [|exact Hext].
  exact (Same_trans Hext (Same_record _ _)).
Qed.

End AcceptInputFacts.

(** ** What every step of a request preserves *)

Unset Implicit Arguments.

Section RequestInvariant.

Variable countWords : string -> number.
Variable computeMoreMinimalEdits :
  IActiveCodeEditor -> list TextEdit -> option (list TextEdit).
Variable P : NotebookCellChatController -> Prop.

(** [P] holds on through the notes [acceptInput] enters in the trace,
    through what it does to the widget, and through every call of
    [_makeChanges] entered in the trace. *)
Hypothesis P_record : forall c a, isCalled a = false -> P c -> P (record a c).
Hypothesis P_onWidget : forall c f, P c -> P (onWidget f c).
Hypothesis P_callMakeChanges : forall c edits opts,
  P c ->
  P (snd (callMakeChanges countWords computeMoreMinimalEdits c edits opts)).

Lemma P_settle l c :
  P c -> P (snd (settle countWords computeMoreMinimalEdits l c)).
Proof.
  intros H. unfold settle.
  destruct (Queue.running (progressiveEditsQueue l)); simpl; auto.
  destruct (Queue.pending (progressiveEditsQueue l)); simpl; auto.
  now apply P_callMakeChanges.
Qed.

Lemma P_onProgress l c elapsed data :
  P c ->
  P (snd (onProgress countWords computeMoreMinimalEdits l c elapsed data)).
Proof.
  intros H. unfold onProgress, enqueue. simpl.
  destruct (truthyString (message data)), (truthyLength (edits data)),
    (Queue.running (progressiveEditsQueue l)); simpl; auto;
    apply P_callMakeChanges; auto.
Qed.

Lemma P_providerStep s ev :
  P (snd s) ->
  P (snd (providerStep countWords computeMoreMinimalEdits s ev)).
Proof.
  destruct ev; simpl; [apply P_onProgress|apply P_settle].
Qed.

Lemma P_stream evs s :
  P (snd s) ->
  P (snd (fold_left (providerStep countWords computeMoreMinimalEdits) evs s)).
Proof.
  revert s. induction evs as [|ev evs IH]; intros s H; simpl; auto.
  apply IH, P_providerStep, H.
Qed.

Lemma P_awaitDrained l c late :
  P c ->
  P (snd (fst (awaitDrained countWords computeMoreMinimalEdits l c late))).
Proof.
  intros H.
  destruct (awaitDrained_as_events countWords computeMoreMinimalEdits l c late)
    as (used & n & _ & ->).
  cbn zeta. cbn [fst snd].
  pose proof (P_stream (used ++ repeat TaskSettled n) (l, c) H) as Hs.
  destruct (0 <? Queue.size (progressiveEditsQueue l))%nat;
    [apply P_record; [reflexivity|exact Hs]|exact Hs].
Qed.

Lemma P_applyRemaining c batches :
  P c ->
  P (snd (applyRemaining countWords computeMoreMinimalEdits c batches)).
Proof.
  revert c. induction batches as [|batch rest IH]; intros c H; simpl; auto.
  pose proof (P_callMakeChanges c batch None H) as Hcall.
  destruct (callMakeChanges countWords computeMoreMinimalEdits c batch None)
    as [[|e] c1]; simpl in *; auto.
Qed.

Variable IInlineChatResponse : Type.
Variable allLocalEdits :
  IInlineChatResponse -> list (list TextEdit) -> list (list TextEdit).

Hypothesis P_flag : forall c b, P c -> P (setHasActiveRequest b c).
Hypothesis P_session : forall c s, P c -> P (setActiveSession (Some s) c).

Lemma P_request c run :
  P c ->
  P (snd (snd (request countWords computeMoreMinimalEdits allLocalEdits
                 c run))).
Proof.
  intros H. unfold request.
  pose proof (P_stream (events run) (newRequestLocals, c) H) as Hs.
  destruct (fold_left _ (events run) _) as [l2 c2]. cbn [snd] in Hs.
  destruct (outcome run) as [|reply]; [exact Hs|].
  pose proof (P_awaitDrained l2 _ (late run)
                (P_record _ AwaitedReply eq_refl Hs)) as Hd.
  destruct (awaitDrained _ _ l2 _ (late run)) as [s3 rest]. cbn [fst] in Hd.
  pose proof (P_stream rest s3 Hd) as Hrest.
  destruct (fold_left _ rest s3) as [l4 c4]. cbn [snd] in Hrest.
  destruct reply as [reply|].
  - pose proof (P_applyRemaining _
                  (skipn (List.length (progressEdits l4))
                     (allLocalEdits reply (progressEdits l4)))
                  (P_record _ AwaitedProgressDrain eq_refl Hrest)) as Hr.
    destruct (applyRemaining _ _ _ _) as [[|e] c5]; cbn [snd] in *; auto.
  - cbn [snd]. auto.
Qed.

Lemma P_acceptInput c run :
  P c ->
  P (snd (acceptInput countWords computeMoreMinimalEdits allLocalEdits c run)).
Proof.
  intros H. unfold acceptInput.
  destruct (_activeSession c) as [session|]; [|exact H].
  destruct (_widget c) as [widget|]; [|exact H].
  set (c1 := setActiveSession _ c).
  assert (H1 : P c1) by now apply P_session.
  destruct (negb (editorAttached c1)); [exact H1|].
  cbn [snd]. apply P_request. auto.
Qed.

End RequestInvariant.

Set Implicit Arguments.

(** ** The calls of a request and what they leave in the editor *)

Section ReplayFacts.

Variable countWords : string -> number.
Variable computeMoreMinimalEdits :
  IActiveCodeEditor -> list TextEdit -> option (list TextEdit).

Lemma _makeChanges_Agree c r edits opts :
  Agree c r ->
  Agree (snd (_makeChanges countWords computeMoreMinimalEdits c edits opts))
        (snd (_makeChanges countWords computeMoreMinimalEdits r edits opts)).
Proof.
  destruct c as [cs ct cw cf ca ce cr cn], r as [rs rt rw rf ra re rr rn].
  unfold Agree at 1. cbn [_activeSession _strategy editor wholeRange].
  intros (-> & -> & -> & ->). unfold _makeChanges.
  cbn [_activeSession _strategy editor wholeRange].
  destruct rs; [|repeat split; reflexivity].
  destruct rt as [strategy|]; [|repeat split; reflexivity].
  destruct (computeMoreMinimalEdits re edits) as [[|m minimal]|];
    [repeat split; reflexivity| |];
    destruct opts; repeat split; reflexivity.
Qed.

Lemma replay_snoc actions a c :
  replay countWords computeMoreMinimalEdits (actions ++ [a]) c
  = replayStep countWords computeMoreMinimalEdits
      (replay countWords computeMoreMinimalEdits actions c) a.
Proof. unfold replay. now rewrite fold_left_app. Qed.

Lemma Replayed_refl c : Replayed countWords computeMoreMinimalEdits c c.
Proof.
  exists []. rewrite app_nil_r. repeat split; reflexivity.
Qed.

(** What touches neither the session, the strategy, the editor, the tracked
    range nor the trace. *)
Lemma Replayed_frame c0 c c' :
  Agree c' c -> trace c' = trace c ->
  Replayed countWords computeMoreMinimalEdits c0 c ->
  Replayed countWords computeMoreMinimalEdits c0 c'.
Proof.
  intros (Hs & Ht & He & Hw) Htrace (added & Hadded & Hs' & Ht' & He' & Hw').
  exists added. rewrite Htrace. split; [exact Hadded|].
  repeat split; congruence.
Qed.

Lemma Replayed_record c0 c a :
  isCalled a = false ->
  Replayed countWords computeMoreMinimalEdits c0 c ->
  Replayed countWords computeMoreMinimalEdits c0 (record a c).
Proof.
  intros Ha (added & Hadded & Hagree).
  exists (added ++ [a]). cbn [trace record]. rewrite Hadded, app_assoc.
  split; [reflexivity|]. rewrite replay_snoc.
  destruct a; try discriminate; exact Hagree.
Qed.

Lemma Replayed_callMakeChanges c0 c edits opts :
  Replayed countWords computeMoreMinimalEdits c0 c ->
  Replayed countWords computeMoreMinimalEdits c0
    (snd (callMakeChanges countWords computeMoreMinimalEdits c edits opts)).
Proof.
  intros (added & Hadded & Hagree).
  exists (added ++ [CalledMakeChanges edits opts]).
  rewrite callMakeChanges_trace, Hadded, app_assoc.
  split; [reflexivity|]. rewrite replay_snoc. cbn [replayStep].
  unfold callMakeChanges. apply _makeChanges_Agree. exact Hagree.
Qed.

(** Over a request, the editor receives what the [_makeChanges] calls
    entered in the trace send it, in the order of the trace. *)
Lemma Replayed_request (IInlineChatResponse : Type)
  (allLocalEdits :
     IInlineChatResponse -> list (list TextEdit) -> list (list TextEdit))
  c (run : ProviderRun IInlineChatResponse) :
  Replayed countWords computeMoreMinimalEdits c
    (snd (snd (request countWords computeMoreMinimalEdits allLocalEdits
                 c run))).
Proof.
  refine (P_request countWords computeMoreMinimalEdits
            (Replayed countWords computeMoreMinimalEdits c)
            _ _ _ IInlineChatResponse allLocalEdits _ c run
            (Replayed_refl c)).
  - intros c2 a. apply Replayed_record.
  - intros c2 f. apply Replayed_frame; [repeat split|]; reflexivity.
  - intros c2 edits opts. apply Replayed_callMakeChanges.
  - intros c2 b. apply Replayed_frame; [repeat split|]; reflexivity.
Qed.

End ReplayFacts.

(** C5, on the code.  When the provider's promise rejects, [acceptInput]
    does not return: it throws the rejection, and it leaves the
    has-active-request context key set and the widget's progress indicator
    on, as it set them before calling the provider.  Nothing resets them on
    this path; the two paths that return do. *)
Theorem C5_rejection_leaves_request_active
  (countWords : string -> number)
  (computeMoreMinimalEdits :
     IActiveCodeEditor -> list TextEdit -> option (list TextEdit))
  (IInlineChatResponse : Type)
  (allLocalEdits :
     IInlineChatResponse -> list (list TextEdit) -> list (list TextEdit))
  (c : NotebookCellChatController) (session : Session)
  (widget : InlineChatWidget) (evs late : list ProviderEvent) :
  c.(_activeSession) = Some session ->
  c.(_widget) = Some widget ->
  c.(editorAttached) = true ->
  let result := acceptInput countWords computeMoreMinimalEdits allLocalEdits c
                  (mkRun evs (Rejected IInlineChatResponse) late) in
  fst result = Threw ProviderRejected
  /\ (snd result).(_ctxHasActiveRequest) = true
  /\ option_map w_progress (snd result).(_widget) = Some true.
Proof.
  intros Hs Hw Ha result. subst result.
  rewrite (acceptInput_rejected _ _ _ _ _ _ Hs Hw Ha). simpl.
  pose proof (stream_Extends countWords computeMoreMinimalEdits evs
                (newRequestLocals, atRequest c session widget)) as Hext.
  simpl in Hext.
  split; [reflexivity|]. split.
  - rewrite (ext_flag Hext). reflexivity.
  - rewrite (ext_progress Hext). unfold atRequest. simpl. now rewrite Hw.
Qed.

Lemma C5_rejection_leaves_request_active_witness :
  acceptInput (fun _ => 1%float) (fun _ e => Some e)
    (fun (reply : list (list TextEdit)) received => received ++ reply)
    readyController (mkRun [] (Rejected (list (list TextEdit))) [])
  = (Threw ProviderRejected,
     mkController (Some (addInput plainSession "fix bug"))
       (Some (newEditStrategy plainSession))
       (Some (mkWidget "fix bug" true "" false)) true true [] [] [])
  /\ _ctxHasActiveRequest
       (snd (acceptInput (fun _ => 1%float) (fun _ e => Some e)
               (fun (reply : list (list TextEdit)) received => received ++ reply)
               readyController
               (mkRun [] (Rejected (list (list TextEdit))) [])))
     = true.
Proof.
  split; [reflexivity|].
  apply (C5_rejection_leaves_request_active
           (fun _ => 1%float) (fun _ e => Some e)
           (fun (reply : list (list TextEdit)) received => received ++ reply)
           readyController (session := plainSession)
           (widget := mkWidget "fix bug" false "" false) [] []);
    reflexivity.
Defined.

Lemma calledBatches_app l l' :
  calledBatches (l ++ l') = calledBatches l ++ calledBatches l'.
Proof. apply flat_map_app. Qed.

Lemma calledBatches_filter l :
  calledBatches (filter isCalled l) = calledBatches l.
Proof.
  induction l as [|a l IH]; simpl; [reflexivity|].
  destruct a; simpl; auto. now rewrite IH.
Qed.

Lemma calledBatches_taskCall samples started :
  calledBatches (map (taskCall samples) started)
  = map (fun entry => editsOf (fst entry)) started.
Proof.
  induction started as [|entry started IH]; simpl; [reflexivity|].
  now rewrite <- IH.
Qed.

(** ** Batches that arrive while the progress stream is drained *)

Section LateFacts.

Variable countWords : string -> number.
Variable computeMoreMinimalEdits :
  IActiveCodeEditor -> list TextEdit -> option (list TextEdit).

(** On an idle queue the handler starts the task of a batch at once. *)
Lemma onProgress_idle pe avg c elapsed data :
  truthyLength data.(edits) = true ->
  let l := mkLocals pe avg (Queue.mk false []) in
  let s := onProgress countWords computeMoreMinimalEdits l c elapsed data in
  fst s = mkLocals (pe ++ [editsOf data]) (MovingAverage.update avg elapsed)
            (Queue.mk true [])
  /\ Same c (snd s)
  /\ trace (snd s)
     = trace c
       ++ [CalledMakeChanges (editsOf data)
             (if truthyBool data.(editsShouldBeInstant) then None
              else Some (mkOpts
                           (MovingAverage.value
                              (MovingAverage.update avg elapsed))
                           progressiveEditsCts_token))].
Proof.
  intros Hedits l s. subst s l. unfold onProgress.
  cbn [requestCts_token isCancellationRequested]. rewrite Hedits.
  cbn [progressEdits progressiveEditsAvgDuration progressiveEditsQueue].
  unfold enqueue.
  cbn [progressEdits progressiveEditsAvgDuration progressiveEditsQueue
       Queue.running Queue.pending fst snd].
  split; [reflexivity|].
  destruct (truthyString (message data)).
  - split.
    + eapply Same_trans;
        [apply Extends_Same, onWidget_info_Extends
        |apply Extends_Same, runTask_Extends].
    + rewrite runTask_trace. reflexivity.
  - split.
    + apply Extends_Same, runTask_Extends.
    + rewrite runTask_trace. reflexivity.
Qed.

End LateFacts.

(** C9, on the code.  [acceptInput] looks at the size of the queue before it
    waits for the progress stream.  When the queue is empty at that moment
    and the handler still has to run for an item that carries a batch, the
    handler queues the batch while [acceptInput] awaits [progress.drain()],
    the queue starts its task, and nothing waits for that task: with the
    task still running, [acceptInput] hands the remaining batches of the
    response to [_makeChanges], resets the context key and the progress
    indicator, and returns.  The trace shows no wait for the queue. *)
Theorem C9_batch_handled_during_drain_is_not_awaited
  (countWords : string -> number)
  (computeMoreMinimalEdits :
     IActiveCodeEditor -> list TextEdit -> option (list TextEdit))
  (IInlineChatResponse : Type)
  (allLocalEdits :
     IInlineChatResponse -> list (list TextEdit) -> list (list TextEdit))
  (c : NotebookCellChatController) (session : Session)
  (widget : InlineChatWidget) (strategy : EditStrategy)
  (evs : list ProviderEvent) (elapsed : number)
  (data : IInlineChatProgressItem) (reply : IInlineChatResponse) :
  c.(_activeSession) = Some session ->
  c.(_widget) = Some widget ->
  c.(_strategy) = Some strategy ->
  c.(editorAttached) = true ->
  truthyLength data.(edits) = true ->
  let atReply := fold_left (providerStep countWords computeMoreMinimalEdits)
                   evs (newRequestLocals, atRequest c session widget) in
  Queue.size (fst atReply).(progressiveEditsQueue) = 0%nat ->
  let run := mkRun evs (Resolved (Some reply)) [Progress elapsed data] in
  let result := request countWords computeMoreMinimalEdits allLocalEdits
                  (atRequest c session widget) run in
  let received := (fst atReply).(progressEdits) ++ [editsOf data] in
  let average := MovingAverage.update
                   (fst atReply).(progressiveEditsAvgDuration) elapsed in
  acceptInput countWords computeMoreMinimalEdits allLocalEdits c run
  = (Returned, snd (snd result))
  /\ trace (snd (snd result))
     = trace (snd atReply)
       ++ [AwaitedReply;
           CalledMakeChanges (editsOf data)
             (if truthyBool data.(editsShouldBeInstant) then None
              else Some (mkOpts (MovingAverage.value average)
                                progressiveEditsCts_token));
           AwaitedProgressDrain]
       ++ map (fun batch => CalledMakeChanges batch None)
              (skipn (List.length received) (allLocalEdits reply received))
  /\ (fst (snd result)).(progressiveEditsQueue) = Queue.mk true []
  /\ (snd (snd result)).(_ctxHasActiveRequest) = false
  /\ option_map w_progress (snd (snd result)).(_widget) = Some false.
Proof.
  intros Hs Hw Ht Ha Hedits atReply Hsize run result received average.
  rewrite (@acceptInput_request countWords computeMoreMinimalEdits _
             allLocalEdits c session widget run Hs Hw Ha).
  fold result.
  assert (Hext : Same (atRequest c session widget) (snd atReply))
    by exact (Extends_Same
                (stream_Extends countWords computeMoreMinimalEdits evs
                   (newRequestLocals, atRequest c session widget))).
  assert (Hset : _ctxHasActiveRequest (atRequest c session widget) = true
                 /\ option_map w_progress (_widget (atRequest c session widget))
                    = Some true
                 /\ _activeSession (atRequest c session widget) <> None
                 /\ _strategy (atRequest c session widget) <> None).
  { unfold atRequest. simpl. rewrite Hw, Ht. repeat split; discriminate. }
  destruct Hset as (_ & Hprogress1 & Hsession1 & Hstrategy1).
  subst result received average. unfold request. subst run.
  cbn [events outcome late]. fold atReply. clearbody atReply.
  destruct atReply as [[pe avg [running pending]] c2].
  cbn [fst snd progressEdits progressiveEditsAvgDuration
       progressiveEditsQueue] in *.
  assert (running = false /\ pending = []) as [-> ->].
  { unfold Queue.size in Hsize. cbn [Queue.running Queue.pending] in Hsize.
    destruct running; [discriminate|]. destruct pending; [auto|discriminate]. }
  unfold awaitDrained. cbn [progressiveEditsQueue Queue.size Queue.running
                            Queue.pending List.length Nat.add Nat.ltb Nat.leb].
  cbn [fold_left providerStep fst snd].
  destruct (onProgress_idle countWords computeMoreMinimalEdits pe avg
              (record AwaitedReply c2) elapsed data Hedits)
    as (Hlocals & Hsame & Htrace).
  cbn zeta in Hlocals, Hsame, Htrace.
  destruct (onProgress countWords computeMoreMinimalEdits
              (mkLocals pe avg (Queue.mk false [])) (record AwaitedReply c2)
              elapsed data) as [l3 c3].
  cbn [fst snd] in Hlocals, Hsame, Htrace. subst l3.
  cbn [progressEdits].
  assert (Hsame3 : Same (atRequest c session widget)
                     (record AwaitedProgressDrain c3)).
  { eapply Same_trans; [exact Hext|].
    eapply Same_trans; [apply Same_record|].
    eapply Same_trans; [exact Hsame|apply Same_record]. }
  destruct (@applyRemaining_spec countWords computeMoreMinimalEdits
              (record AwaitedProgressDrain c3)
              (skipn (List.length (pe ++ [editsOf data]))
                 (allLocalEdits reply (pe ++ [editsOf data]))))
    as (Hret & Hext4 & Htrace4).
  { rewrite (same_session Hsame3). exact Hsession1. }
  { exact (same_strategy Hsame3 Hstrategy1). }
  destruct (applyRemaining countWords computeMoreMinimalEdits
              (record AwaitedProgressDrain c3)
              (skipn (List.length (pe ++ [editsOf data]))
                 (allLocalEdits reply (pe ++ [editsOf data]))))
    as [r c4].
  cbn [fst snd] in Hret, Hext4, Htrace4. subst r.
  cbn [fst snd progressiveEditsQueue].
  split; [reflexivity|]. split; [|split; [reflexivity|split; [reflexivity|]]].
  - cbn [trace onWidget setHasActiveRequest]. rewrite Htrace4.
    cbn [trace record]. rewrite Htrace. cbn [trace record].
    rewrite <- !app_assoc. reflexivity.
  - pose proof (same_progress (Same_trans Hsame3 (Extends_Same Hext4)))
      as Hprogress.
    rewrite Hprogress1 in Hprogress.
    cbn [_widget onWidget setHasActiveRequest].
    destruct (_widget c4); [reflexivity|discriminate].
Qed.

Lemma C9_batch_handled_during_drain_is_not_awaited_witness :
  let run := mkRun []
               (Resolved (Some [[someEdit; someEdit]]))
               [Progress 100%float
                  (mkProgressItem None (Some [someEdit]) None)] in
  let result := request (fun _ => 1%float) (fun _ e => Some e)
                  (fun (reply : list (list TextEdit)) received =>
                     received ++ reply)
                  (atRequest readyController plainSession
                     (mkWidget "fix bug" false "" false))
                  run in
  fst (acceptInput (fun _ => 1%float) (fun _ e => Some e)
         (fun (reply : list (list TextEdit)) received => received ++ reply)
         readyController run)
  = Returned
  /\ progressiveEditsQueue (fst (snd result)) = Queue.mk true []
  /\ _ctxHasActiveRequest (snd (snd result)) = false.
Proof.
  intros run result.
  destruct (C9_batch_handled_during_drain_is_not_awaited
              (fun _ => 1%float) (fun _ e => Some e)
              (fun (reply : list (list TextEdit)) received => received ++ reply)
              readyController
              (session := plainSession)
              (widget := mkWidget "fix bug" false "" false)
              (strategy := newEditStrategy plainSession)
              [] 100%float (mkProgressItem None (Some [someEdit]) None)
              [[someEdit; someEdit]]
              eq_refl eq_refl eq_refl eq_refl eq_refl eq_refl)
    as (Hreturned & _ & Hqueue & Hflag & _).
  split; [|split; [exact Hqueue|exact Hflag]].
  exact (f_equal fst Hreturned).
Defined.

(** ** Requests whose batches have all been handled when the reply arrives *)

Section DrainFacts.

Variable countWords : string -> number.
Variable computeMoreMinimalEdits :
  IActiveCodeEditor -> list TextEdit -> option (list TextEdit).

(** Waiting for [onDrained] ends with an empty queue. *)
Lemma untilDrained_drains c0 late batches l c started :
  Streaming c0 batches l c started ->
  progressiveEditsQueue
    (fst (fst (untilDrained countWords computeMoreMinimalEdits late (l, c))))
  = Queue.mk false [].
Proof.
  revert batches l c started.
  induction late as [|ev rest IH]; intros batches l c started Hs.
  - cbn [untilDrained fst snd].
    exact (@settleAll_drains countWords computeMoreMinimalEdits _ l c
             (st_idle Hs) (Nat.le_refl _)).
  - cbn [untilDrained].
    destruct (Streaming_step countWords computeMoreMinimalEdits ev Hs)
      as (more & Hs1).
    destruct (providerStep countWords computeMoreMinimalEdits (l, c) ev)
      as [l1 c1].
    cbn [fst snd] in *.
    destruct (Nat.eqb_spec (Queue.size (progressiveEditsQueue l1)) 0)
      as [Hzero|_].
    + cbn [fst]. pose proof (st_idle Hs1) as Hidle.
      destruct l1 as [pe avg [running pending]].
      unfold Queue.size in Hzero. cbn in *.
      destruct running; [discriminate|]. now rewrite Hidle.
    + exact (IH _ _ _ _ Hs1).
Qed.

(** Waiting for the queue: the events that take place are a prefix of
    [late]; the tasks that start are those of the batches received, in order;
    and the queue is empty afterwards. *)
Lemma awaitDrained_spec c0 batches l c started late :
  Streaming c0 batches l c started ->
  exists used more during,
    late = used ++ snd (awaitDrained countWords computeMoreMinimalEdits l c late)
    /\ Streaming c0 (batches ++ batchesOf used)
         (fst (fst (awaitDrained countWords computeMoreMinimalEdits l c late)))
         (snd (fst (awaitDrained countWords computeMoreMinimalEdits l c late)))
         (started ++ more)
    /\ progressiveEditsQueue
         (fst (fst (awaitDrained countWords computeMoreMinimalEdits l c late)))
       = Queue.mk false []
    /\ Same c (snd (fst (awaitDrained countWords computeMoreMinimalEdits
                           l c late)))
    /\ trace (snd (fst (awaitDrained countWords computeMoreMinimalEdits
                          l c late)))
       = trace c ++ during
    /\ (during = []
        \/ exists tasks, during = tasks ++ [AwaitedQueueDrained]
                         /\ forallb isCalled tasks = true)
    /\ filter isCalled during
       = map (taskCall (map fst (batches ++ batchesOf used))) more.
Proof.
  intros Hs. pose proof (awaitDrained_Same countWords computeMoreMinimalEdits
                           l c late) as Hsame.
  unfold awaitDrained in *.
  destruct (Nat.ltb_spec 0 (Queue.size (progressiveEditsQueue l)))
    as [Hbusy|Hidle].
  - pose proof (untilDrained_drains late Hs) as Hempty.
    destruct (untilDrained_as_events countWords computeMoreMinimalEdits
                late (l, c)) as (used & n & Hlate & Hresult).
    destruct (untilDrained countWords computeMoreMinimalEdits late (l, c))
      as [s rest].
    cbn [fst snd] in *. subst s.
    destruct (Streaming_events countWords computeMoreMinimalEdits
                (used ++ repeat TaskSettled n) Hs) as (more & Hs').
    rewrite batchesOf_app, batchesOf_settled, app_nil_r in Hs'.
    pose proof (stream_Extends countWords computeMoreMinimalEdits
                  (used ++ repeat TaskSettled n) (l, c)) as Hext.
    destruct (fold_left (providerStep countWords computeMoreMinimalEdits)
                (used ++ repeat TaskSettled n) (l, c)) as [l' c'].
    cbn [fst snd] in *.
    destruct (ext_trace Hext) as (tasks & Htrace & Htasks).
    exists used, more, (tasks ++ [AwaitedQueueDrained]).
    split; [exact Hlate|].
    split; [now apply Streaming_record|].
    split; [exact Hempty|].
    split; [exact Hsame|].
    split; [cbn [trace record]; now rewrite Htrace, app_assoc|].
    split; [right; exists tasks; auto|].
    rewrite filter_app. cbn [filter isCalled]. rewrite app_nil_r.
    pose proof (st_calls Hs') as Hcalls.
    rewrite Htrace, filter_app, (st_calls Hs), map_app, <- app_assoc in Hcalls.
    apply app_inv_head in Hcalls.
    assert (Hstarted : map (taskCall (map fst (batches ++ batchesOf used)))
                         started
                       = map (taskCall (map fst batches)) started).
    { rewrite map_app. apply map_taskCall_more.
      rewrite length_map. exact (st_bound Hs). }
    rewrite Hstarted in Hcalls. apply app_inv_head in Hcalls. exact Hcalls.
  - exists [], [], []. cbn [fst snd app batchesOf map]. rewrite !app_nil_r.
    split; [reflexivity|]. split; [exact Hs|]. split.
    + destruct l as [pe avg [[|] pending]]; unfold Queue.size in Hidle;
        cbn in *; [lia|].
      destruct pending; cbn in *; [reflexivity|lia].
    + split; [exact Hsame|]. auto.
Qed.

(** On an idle queue, events that bring no batch start no task. *)
Lemma quiet_stream evs l c :
  batchesOf evs = [] ->
  Queue.running l.(progressiveEditsQueue) = false ->
  fst (fold_left (providerStep countWords computeMoreMinimalEdits) evs (l, c))
  = l
  /\ trace (snd (fold_left (providerStep countWords computeMoreMinimalEdits)
                   evs (l, c)))
     = trace c.
Proof.
  revert c. induction evs as [|ev evs IH]; intros c Hnone Hidle.
  - split; reflexivity.
  - cbn [fold_left]. destruct ev as [elapsed data|].
    + cbn [batchesOf] in Hnone. cbn [providerStep fst snd].
      unfold onProgress.
      cbn [requestCts_token isCancellationRequested].
      destruct (truthyLength (edits data)); [discriminate|].
      destruct (truthyString (message data));
        match goal with
        | |- context [fold_left _ evs (l, ?c')] =>
            destruct (IH c' Hnone Hidle) as (Hl & Ht)
        end;
        rewrite Hl, Ht; split; reflexivity.
    + cbn [batchesOf] in Hnone. cbn [providerStep fst snd].
      unfold settle. rewrite Hidle. exact (IH _ Hnone Hidle).
Qed.

End DrainFacts.

(** The calls of such a request, in order. *)
Lemma drained_queue_trace
  (countWords : string -> number)
  (computeMoreMinimalEdits :
     IActiveCodeEditor -> list TextEdit -> option (list TextEdit))
  (IInlineChatResponse : Type)
  (allLocalEdits :
     IInlineChatResponse -> list (list TextEdit) -> list (list TextEdit))
  (c : NotebookCellChatController) (session : Session)
  (widget : InlineChatWidget) (strategy : EditStrategy)
  (evs later : list ProviderEvent) (reply : IInlineChatResponse) :
  c.(_activeSession) = Some session ->
  c.(_widget) = Some widget ->
  c.(_strategy) = Some strategy ->
  c.(editorAttached) = true ->
  batchesOf later = [] ->
  let run := mkRun evs (Resolved (Some reply)) later in
  let result := request countWords computeMoreMinimalEdits allLocalEdits
                  (atRequest c session widget) run in
  let received := map (fun b => editsOf (snd b)) (batchesOf evs) in
  exists before during,
    acceptInput countWords computeMoreMinimalEdits allLocalEdits c run
    = (Returned, snd (snd result))
    /\ trace (snd (snd result))
       = trace c ++ before ++ [AwaitedReply] ++ during
           ++ [AwaitedProgressDrain]
           ++ map (fun batch => CalledMakeChanges batch None)
                  (skipn (List.length received) (allLocalEdits reply received))
    /\ forallb isCalled before = true
    /\ (during = []
        \/ exists tasks, during = tasks ++ [AwaitedQueueDrained]
                         /\ forallb isCalled tasks = true)
    /\ calledBatches before ++ calledBatches during = received
    /\ (fst (snd result)).(progressiveEditsQueue) = Queue.mk false []
    /\ (snd (snd result)).(_ctxHasActiveRequest) = false
    /\ option_map w_progress (snd (snd result)).(_widget) = Some false.
Proof.
  intros Hs Hw Ht Ha Hnone run result received.
  rewrite (@acceptInput_request countWords computeMoreMinimalEdits _
             allLocalEdits c session widget run Hs Hw Ha).
  fold result. subst result run. unfold request. cbn [events outcome late].
  set (c1 := atRequest c session widget).
  assert (Htrace1 : trace c1 = trace c) by reflexivity.
  assert (Hset : option_map w_progress (_widget c1) = Some true
                 /\ _strategy c1 <> None).
  { unfold c1, atRequest. simpl. rewrite Hw, Ht. split; [auto|discriminate]. }
  destruct Hset as (Hprogress1 & Hstrategy1).
  assert (Hsession1 : _activeSession c1 <> None) by discriminate.
  clearbody c1.
  (* the batches that stream in while the provider runs *)
  destruct (Streaming_events countWords computeMoreMinimalEdits evs
              (Streaming_initial c1)) as (started & Hstream).
  pose proof (stream_Extends countWords computeMoreMinimalEdits evs
                (newRequestLocals, c1)) as Hext.
  destruct (fold_left (providerStep countWords computeMoreMinimalEdits) evs
              (newRequestLocals, c1)) as [l2 c2].
  cbn [fst snd app] in Hstream, Hext.
  destruct (ext_trace Hext) as (before & Hbefore & Hcalls).
  (* the reply, then the queue *)
  pose proof (Streaming_record AwaitedReply eq_refl Hstream) as Hreply.
  destruct (awaitDrained_spec countWords computeMoreMinimalEdits later Hreply)
    as (used & more & during & Hlater & Hdrained & Hempty & Hsame & Hduring
        & Hshape & Hmore).
  destruct (awaitDrained countWords computeMoreMinimalEdits l2
              (record AwaitedReply c2) later) as [[l3 c3] rest].
  cbn [fst snd] in Hlater, Hdrained, Hempty, Hsame, Hduring.
  assert (Hquiet : batchesOf used = [] /\ batchesOf rest = []).
  { rewrite Hlater, batchesOf_app in Hnone. now apply app_eq_nil in Hnone. }
  destruct Hquiet as (Hused & Hrest).
  rewrite Hused, app_nil_r in Hdrained, Hmore.
  (* the progress stream *)
  destruct (@quiet_stream countWords computeMoreMinimalEdits rest l3 c3 Hrest)
    as (Hl4 & Htrace4).
  { now rewrite Hempty. }
  pose proof (Extends_Same
                (stream_Extends countWords computeMoreMinimalEdits rest
                   (l3, c3))) as Hsame4.
  destruct (fold_left (providerStep countWords computeMoreMinimalEdits) rest
              (l3, c3)) as [l4 c4].
  cbn [fst snd] in Hl4, Htrace4, Hsame4. subst l4.
  (* the remaining batches *)
  assert (Hreceived : progressEdits l3 = received)
    by exact (st_edits Hdrained).
  rewrite Hreceived.
  assert (Hsame5 : Same c1 (record AwaitedProgressDrain c4)).
  { eapply Same_trans; [exact (Extends_Same Hext)|].
    eapply Same_trans; [apply Same_record|].
    eapply Same_trans; [exact Hsame|].
    eapply Same_trans; [exact Hsame4|apply Same_record]. }
  destruct (@applyRemaining_spec countWords computeMoreMinimalEdits
              (record AwaitedProgressDrain c4)
              (skipn (List.length received) (allLocalEdits reply received)))
    as (Hret & Hext5 & Htrace5).
  { rewrite (same_session Hsame5). exact Hsession1. }
  { exact (same_strategy Hsame5 Hstrategy1). }
  destruct (applyRemaining countWords computeMoreMinimalEdits
              (record AwaitedProgressDrain c4)
              (skipn (List.length received) (allLocalEdits reply received)))
    as [r c5].
  cbn [fst snd] in Hret, Hext5, Htrace5. subst r.
  exists before, during. cbn [fst snd].
  split; [reflexivity|]. split; [|split; [exact Hcalls|split; [exact Hshape|]]].
  - cbn [trace onWidget setHasActiveRequest]. rewrite Htrace5.
    cbn [trace record]. rewrite Htrace4, Hduring. cbn [trace record].
    rewrite Hbefore, Htrace1, <- !app_assoc. reflexivity.
  - split; [|split; [exact Hempty|split; [reflexivity|]]].
    + rewrite <- (calledBatches_filter during), Hmore.
      rewrite <- (filter_all _ _ Hcalls).
      rewrite (added_calls before Hstream)
        by (rewrite Hbefore, filter_app; reflexivity).
      rewrite !calledBatches_taskCall, <- map_app.
      pose proof (st_order Hdrained) as Horder.
      rewrite Hempty in Horder. cbn [Queue.pending] in Horder.
      rewrite app_nil_r in Horder.
      unfold received. rewrite <- (map_map snd editsOf), <- Horder, map_map.
      reflexivity.
    + pose proof (same_progress (Same_trans Hsame5 (Extends_Same Hext5)))
        as Hprogress.
      rewrite Hprogress1 in Hprogress.
      cbn [_widget onWidget setHasActiveRequest].
      destruct (_widget c5); [reflexivity|discriminate].
Qed.

(** X13.  When the handler has run for every batch by the time the
    provider's promise settles, [acceptInput] does what is asked of it.
    With a reply in hand it first waits: for the queue, when it still holds a
    task, and then for the progress stream.  By then every batch that came
    through progress has been handed to [_makeChanges], in order of arrival,
    and the queue is empty; only after that are the batches of the final
    response handed over, and they are exactly those whose index is at or
    beyond the number of batches received through progress, each without
    pacing options.  The session, the strategy, the editor and the tracked
    range end up as these calls of [_makeChanges] leave them, one after the
    other.  [acceptInput] then returns with the context key and the progress
    indicator reset. *)
Theorem remaining_batches_follow_the_drained_queue
  (countWords : string -> number)
  (computeMoreMinimalEdits :
     IActiveCodeEditor -> list TextEdit -> option (list TextEdit))
  (IInlineChatResponse : Type)
  (allLocalEdits :
     IInlineChatResponse -> list (list TextEdit) -> list (list TextEdit))
  (c : NotebookCellChatController) (session : Session)
  (widget : InlineChatWidget) (strategy : EditStrategy)
  (evs later : list ProviderEvent) (reply : IInlineChatResponse) :
  c.(_activeSession) = Some session ->
  c.(_widget) = Some widget ->
  c.(_strategy) = Some strategy ->
  c.(editorAttached) = true ->
  batchesOf later = [] ->
  let run := mkRun evs (Resolved (Some reply)) later in
  let result := request countWords computeMoreMinimalEdits allLocalEdits
                  (atRequest c session widget) run in
  let received := map (fun b => editsOf (snd b)) (batchesOf evs) in
  let remaining := map (fun batch => CalledMakeChanges batch None)
                     (skipn (List.length received)
                        (allLocalEdits reply received)) in
  exists before during,
    acceptInput countWords computeMoreMinimalEdits allLocalEdits c run
    = (Returned, snd (snd result))
    /\ trace (snd (snd result))
       = trace c ++ before ++ [AwaitedReply] ++ during
           ++ [AwaitedProgressDrain] ++ remaining
    /\ forallb isCalled before = true
    /\ (during = []
        \/ exists tasks, during = tasks ++ [AwaitedQueueDrained]
                         /\ forallb isCalled tasks = true)
    /\ calledBatches before ++ calledBatches during = received
    /\ Agree (snd (snd result))
         (replay countWords computeMoreMinimalEdits
            (before ++ during ++ remaining) (atRequest c session widget))
    /\ (fst (snd result)).(progressiveEditsQueue) = Queue.mk false []
    /\ (snd (snd result)).(_ctxHasActiveRequest) = false
    /\ option_map w_progress (snd (snd result)).(_widget) = Some false.
Proof.
  intros Hs Hw Ht Ha Hnone run result received remaining.
  destruct (@drained_queue_trace countWords computeMoreMinimalEdits _
              allLocalEdits c session widget strategy evs later reply
              Hs Hw Ht Ha Hnone)
    as (before & during & Hacc & Htrace & Hbefore & Hshape & Hbatches
        & Hqueue & Hflag & Hprogress).
  fold run result received remaining in Hacc, Htrace, Hqueue, Hflag, Hprogress.
  exists before, during.
  refine (conj Hacc (conj Htrace (conj Hbefore (conj Hshape (conj Hbatches
            (conj _ (conj Hqueue (conj Hflag Hprogress)))))))).
  destruct (Replayed_request countWords computeMoreMinimalEdits allLocalEdits
              (atRequest c session widget) run) as (added & Hadded & Hagree).
  fold result in Hadded, Hagree.
  rewrite Htrace in Hadded.
  change (trace (atRequest c session widget)) with (trace c) in Hadded.
  apply app_inv_head in Hadded. subst added.
  unfold replay in *. rewrite !fold_left_app in *.
  cbn [fold_left replayStep] in Hagree. exact Hagree.
Qed.

Lemma remaining_batches_follow_the_drained_queue_witness :
  let run := mkRun [Progress 100%float
                      (mkProgressItem None (Some [someEdit]) None)]
                   (Resolved (Some [[someEdit; someEdit]]))
                   [Progress 100%float
                      (mkProgressItem (Some "done"%string) None None);
                    TaskSettled] in
  let result := request (fun _ => 1%float) (fun _ e => Some e)
                  (fun (reply : list (list TextEdit)) received =>
                     received ++ reply)
                  (atRequest readyController plainSession
                     (mkWidget "fix bug" false "" false))
                  run in
  fst (acceptInput (fun _ => 1%float) (fun _ e => Some e)
         (fun (reply : list (list TextEdit)) received => received ++ reply)
         readyController run)
  = Returned
  /\ progressiveEditsQueue (fst (snd result)) = Queue.mk false [].
Proof.
  intros run result.
  destruct (remaining_batches_follow_the_drained_queue
              (fun _ => 1%float) (fun _ e => Some e)
              (fun (reply : list (list TextEdit)) received => received ++ reply)
              readyController
              (session := plainSession)
              (widget := mkWidget "fix bug" false "" false)
              (strategy := newEditStrategy plainSession)
              [Progress 100%float
                 (mkProgressItem None (Some [someEdit]) None)]
              [Progress 100%float
                 (mkProgressItem (Some "done"%string) None None);
               TaskSettled]
              [[someEdit; someEdit]]
              eq_refl eq_refl eq_refl eq_refl eq_refl)
    as (before & during & Hreturned & _ & _ & _ & _ & _ & Hqueue & _).
  split; [exact (f_equal fst Hreturned)|exact Hqueue].
Defined.

(** ** The reveal speed *)

Lemma pacedBy_more countWords samples more e :
  pacedBy countWords samples e -> pacedBy countWords (samples ++ more) e.
Proof.
  destruct e as [|source edits k|edit speed tok]; simpl; auto.
  intros (m & Hm & Hspeed & Htok). exists m.
  rewrite length_app, firstn_app.
  replace (m - List.length samples)%nat with 0%nat by lia.
  simpl. rewrite app_nil_r. repeat split; auto; lia.
Qed.

Section SpeedFacts.

Variable countWords : string -> number.
Variable computeMoreMinimalEdits :
  IActiveCodeEditor -> list TextEdit -> option (list TextEdit).

Lemma PacedState_frame e0 samples l c c' :
  editor c' = editor c ->
  PacedState countWords e0 samples (l, c) ->
  PacedState countWords e0 samples (l, c').
Proof.
  intros He (Havg & Hpending & sent & Hlog & Hsent).
  refine (conj Havg (conj Hpending _)). exists sent.
  cbn [snd] in *. now rewrite He.
Qed.

(** What a call of [_makeChanges] sends to the editor: paced edits when it
    is given the value of the average as duration, and no paced edit when
    it is given none. *)
Lemma callMakeChanges_pacedBy e0 c edits opts samples sent :
  match opts with
  | Some o => samples <> []
              /\ o = mkOpts (MovingAverage.value (averageAfter samples))
                            progressiveEditsCts_token
  | None => True
  end ->
  c.(editor) = e0 ++ sent ->
  Forall (pacedBy countWords samples) sent ->
  exists sent',
    editor (snd (callMakeChanges countWords computeMoreMinimalEdits
                   c edits opts))
    = e0 ++ sent'
    /\ Forall (pacedBy countWords samples) sent'.
Proof.
  intros Hopts Hlog Hsent.
  assert (Hstop : forall n : nat,
             Forall (pacedBy countWords samples)
               (if (n =? 0)%nat then [PushUndoStop] else []))
    by (intros n; destruct (n =? 0)%nat; repeat constructor).
  assert (Hatomic : forall batch k,
             Forall (pacedBy countWords samples)
               [ExecuteEdits "inline-chat-live" batch k])
    by (intros batch k; repeat constructor).
  assert (Hpaced : forall o batch,
             opts = Some o ->
             Forall (pacedBy countWords samples)
               (callEdits countWords (Progressive batch o))).
  { intros o batch ->. destruct Hopts as (Hsome & ->).
    cbn [callEdits duration token].
    apply Forall_forall. intros e He. apply in_map_iff in He.
    destruct He as (edit & <- & _).
    exists (List.length samples). rewrite firstn_all.
    split; [|split; reflexivity].
    destruct samples; [congruence|simpl; lia]. }
  unfold callMakeChanges, _makeChanges.
  cbn [record _activeSession _strategy editor].
  destruct (_activeSession c); [|exists sent; auto].
  destruct (_strategy c) as [strategy|]; [|exists sent; auto].
  destruct (computeMoreMinimalEdits (editor c) edits)
    as [[|m minimal]|]; [exists sent; auto| |];
    destruct opts as [o|];
    unfold afterEdit; cbn [snd editor];
    try rewrite makeProgressiveChanges_spec;
    try rewrite (makeChanges_spec countWords);
    cbn [snd]; rewrite Hlog, <- app_assoc;
    eexists; (split; [reflexivity|]);
    apply Forall_app; (split; [exact Hsent|]);
    apply Forall_app; (split; [apply Hstop|]);
    first [apply Hatomic|apply Hpaced; reflexivity].
Qed.

(** A task reads the average when it starts. *)
Lemma runTask_pacedBy e0 l c data samples sent :
  samples <> [] ->
  l.(progressiveEditsAvgDuration) = averageAfter samples ->
  c.(editor) = e0 ++ sent ->
  Forall (pacedBy countWords samples) sent ->
  exists sent',
    editor (runTask countWords computeMoreMinimalEdits l c data) = e0 ++ sent'
    /\ Forall (pacedBy countWords samples) sent'.
Proof.
  intros Hsome Havg Hlog Hsent. unfold runTask. rewrite Havg.
  apply callMakeChanges_pacedBy with (sent := sent); auto.
  destruct (truthyBool (editsShouldBeInstant data)); auto.
Qed.

Lemma step_PacedState e0 samples s ev :
  PacedState countWords e0 samples s ->
  PacedState countWords e0 (samples ++ map fst (batchesOf [ev]))
    (providerStep countWords computeMoreMinimalEdits s ev).
Proof.
  destruct s as [l c]. intros (Havg & Hpending & sent & Hlog & Hsent).
  cbn [fst snd] in *. destruct ev as [elapsed data|].
  - cbn [providerStep fst snd batchesOf]. unfold onProgress.
    cbn [requestCts_token isCancellationRequested].
    set (c' := if truthyString (message data) then _ else c).
    assert (Hlog' : editor c' = e0 ++ sent)
      by (subst c'; destruct (truthyString (message data)); exact Hlog).
    clearbody c'.
    destruct (truthyLength (edits data)).
    + cbn [map fst].
      assert (Hsome : samples ++ [elapsed] <> [])
        by now destruct samples.
      assert (Havg' : MovingAverage.update (progressiveEditsAvgDuration l)
                        elapsed
                      = averageAfter (samples ++ [elapsed])).
      { rewrite Havg. unfold averageAfter. now rewrite fold_left_app. }
      assert (Hsent' : Forall (pacedBy countWords (samples ++ [elapsed]))
                         sent).
      { eapply Forall_impl; [|exact Hsent].
        intros e. apply pacedBy_more. }
      unfold enqueue.
      cbn [progressEdits progressiveEditsAvgDuration progressiveEditsQueue].
      destruct (Queue.running (progressiveEditsQueue l)).
      * refine (conj Havg' (conj (fun _ => Hsome) _)).
        exists sent. auto.
      * destruct (@runTask_pacedBy e0
                    (mkLocals (progressEdits l ++ [editsOf data])
                       (MovingAverage.update
                          (progressiveEditsAvgDuration l) elapsed)
                       (progressiveEditsQueue l))
                    c' data (samples ++ [elapsed]) sent
                    Hsome Havg' Hlog' Hsent')
          as (sent1 & Hlog1 & Hsent1).
        refine (conj Havg' (conj (fun _ => Hsome) _)).
        exists sent1. auto.
    + cbn [map]. rewrite app_nil_r.
      refine (conj Havg (conj Hpending _)). exists sent. auto.
  - cbn [providerStep fst snd batchesOf map]. rewrite app_nil_r.
    unfold settle.
    destruct (Queue.running (progressiveEditsQueue l)).
    + destruct (Queue.pending (progressiveEditsQueue l)) as [|data rest]
        eqn:Hqueue.
      * refine (conj Havg (conj _ _)); [intros H; now elim H|].
        exists sent. auto.
      * assert (Hsome : samples <> []) by (apply Hpending; discriminate).
        destruct (@runTask_pacedBy e0 l c data samples sent
                    Hsome Havg Hlog Hsent)
          as (sent1 & Hlog1 & Hsent1).
        refine (conj Havg (conj (fun _ => Hsome) _)).
        exists sent1. auto.
    + refine (conj Havg (conj Hpending _)). exists sent. auto.
Qed.

Lemma stream_PacedState e0 evs samples s :
  PacedState countWords e0 samples s ->
  PacedState countWords e0 (samples ++ map fst (batchesOf evs))
    (fold_left (providerStep countWords computeMoreMinimalEdits) evs s).
Proof.
  revert samples s. induction evs as [|ev evs IH]; intros samples s Hs.
  - cbn [fold_left batchesOf map]. now rewrite app_nil_r.
  - cbn [fold_left]. change (ev :: evs) with ([ev] ++ evs).
    rewrite batchesOf_app, map_app, app_assoc.
    apply IH, step_PacedState, Hs.
Qed.

Lemma awaitDrained_PacedState e0 samples l c late :
  PacedState countWords e0 samples (l, c) ->
  exists used,
    late = used ++ snd (awaitDrained countWords computeMoreMinimalEdits
                          l c late)
    /\ PacedState countWords e0 (samples ++ map fst (batchesOf used))
         (fst (awaitDrained countWords computeMoreMinimalEdits l c late)).
Proof.
  intros Hs.
  destruct (awaitDrained_as_events countWords computeMoreMinimalEdits l c late)
    as (used & n & Hlate & ->).
  exists used. split; [exact Hlate|]. cbn zeta.
  pose proof (@stream_PacedState e0 (used ++ repeat TaskSettled n) samples
                (l, c) Hs) as Hstream.
  rewrite batchesOf_app, batchesOf_settled, app_nil_r in Hstream.
  destruct (fold_left _ (used ++ repeat TaskSettled n) (l, c)) as [l' c'].
  cbn [fst snd].
  destruct (0 <? Queue.size (progressiveEditsQueue l))%nat; [|exact Hstream].
  exact (@PacedState_frame e0 _ l' c' _ eq_refl Hstream).
Qed.

Lemma applyRemaining_pacedBy e0 c batches samples sent :
  c.(editor) = e0 ++ sent ->
  Forall (pacedBy countWords samples) sent ->
  exists sent',
    editor (snd (applyRemaining countWords computeMoreMinimalEdits c batches))
    = e0 ++ sent'
    /\ Forall (pacedBy countWords samples) sent'.
Proof.
  revert c sent. induction batches as [|batch rest IH]; intros c sent Hlog Hsent.
  - exists sent. auto.
  - cbn [applyRemaining].
    destruct (@callMakeChanges_pacedBy e0 c batch None samples sent
                I Hlog Hsent) as (sent1 & Hlog1 & Hsent1).
    destruct (callMakeChanges countWords computeMoreMinimalEdits c batch None)
      as [[|e] c1]; cbn [snd] in *.
    + exact (IH c1 sent1 Hlog1 Hsent1).
    + exists sent1. auto.
Qed.

(** Over a request, every paced edit is paced by the average of the clock
    readings taken when batches were received. *)
Lemma request_pacedBy (IInlineChatResponse : Type)
  (allLocalEdits :
     IInlineChatResponse -> list (list TextEdit) -> list (list TextEdit))
  c (run : ProviderRun IInlineChatResponse) :
  exists sent,
    editor (snd (snd (request countWords computeMoreMinimalEdits
                        allLocalEdits c run)))
    = editor c ++ sent
    /\ Forall (pacedBy countWords
                 (map fst (batchesOf (events run ++ late run))))
              sent.
Proof.
  assert (Hstart : PacedState countWords (editor c) [] (newRequestLocals, c)).
  { split; [reflexivity|]. split; [intros H; now elim H|].
    exists []. split; [now rewrite app_nil_r|constructor]. }
  pose proof (@stream_PacedState (editor c) (events run) [] _ Hstart)
    as Hevents.
  cbn [app] in Hevents. unfold request.
  rewrite batchesOf_app, map_app.
  destruct (fold_left _ (events run) _) as [l2 c2].
  destruct (outcome run) as [|reply].
  - destruct Hevents as (_ & _ & sent & Hlog & Hsent).
    exists sent. split; [exact Hlog|].
    eapply Forall_impl; [|exact Hsent]. intros e. apply pacedBy_more.
  - destruct (@awaitDrained_PacedState (editor c) _ l2
                (record AwaitedReply c2) (late run)
                (@PacedState_frame (editor c) _ l2 c2 _ eq_refl Hevents))
      as (used & Hlate & Hdrained).
    destruct (awaitDrained _ _ l2 _ (late run)) as [s3 rest].
    cbn [fst snd] in Hlate, Hdrained.
    pose proof (@stream_PacedState (editor c) rest _ s3 Hdrained) as Hrest.
    rewrite <- app_assoc, <- map_app, <- batchesOf_app, <- Hlate in Hrest.
    destruct (fold_left _ rest s3) as [l4 c4].
    destruct Hrest as (_ & _ & sent & Hlog & Hsent). cbn [snd] in Hlog.
    destruct reply as [reply|].
    + destruct (@applyRemaining_pacedBy (editor c)
                  (record AwaitedProgressDrain c4)
                  (skipn (List.length (progressEdits l4))
                     (allLocalEdits reply (progressEdits l4)))
                  _ sent Hlog Hsent) as (sent' & Hlog' & Hsent').
      destruct (applyRemaining _ _ _ _) as [[|e] c5]; cbn [snd] in *;
        exists sent'; auto.
    + exists sent. auto.
Qed.

Lemma acceptInput_pacedBy (IInlineChatResponse : Type)
  (allLocalEdits :
     IInlineChatResponse -> list (list TextEdit) -> list (list TextEdit))
  c (run : ProviderRun IInlineChatResponse) :
  exists sent,
    editor (snd (acceptInput countWords computeMoreMinimalEdits
                   allLocalEdits c run))
    = editor c ++ sent
    /\ Forall (pacedBy countWords
                 (map fst (batchesOf (events run ++ late run))))
              sent.
Proof.
  assert (Hnone : exists sent,
             editor c = editor c ++ sent
             /\ Forall (pacedBy countWords
                          (map fst (batchesOf (events run ++ late run))))
                       sent)
    by (exists []; split; [now rewrite app_nil_r|constructor]).
  unfold acceptInput.
  destruct (_activeSession c) as [session|]; [|exact Hnone].
  destruct (_widget c) as [widget|]; [|exact Hnone].
  cbn [setActiveSession editorAttached].
  destruct (negb (editorAttached c)); [exact Hnone|].
  cbn [snd].
  exact (request_pacedBy allLocalEdits
           (onWidget (fun w => updateProgress w true)
              (setHasActiveRequest true
                 (setActiveSession
                    (Some (addInput session (w_value widget))) c)))
           run).
Qed.

End SpeedFacts.

(** C8.  Every edit a request paces reaches [performAsyncTextEdit] with the
    speed [countWords(text) / (duration / 1000)], the text of a [null] being
    empty, where the duration is the value the rolling average of the clock
    readings had when the task of the batch started: its value after one of
    the samples the request takes, the first at the earliest.  The numbers
    are doubles and so is the arithmetic.  [makeProgressiveChanges] computes
    that quotient for whatever duration it is given, and nothing bounds it: a
    duration of zero gives a one-word text an infinite speed and a text
    without words no speed at all, and a long duration gives a speed as close
    to zero as doubles go. *)
Theorem C8_speed_is_words_per_second
  (countWords : string -> number)
  (computeMoreMinimalEdits :
     IActiveCodeEditor -> list TextEdit -> option (list TextEdit))
  (IInlineChatResponse : Type)
  (allLocalEdits :
     IInlineChatResponse -> list (list TextEdit) -> list (list TextEdit))
  (c : NotebookCellChatController) (run : ProviderRun IInlineChatResponse)
  (this : EditStrategy) (log : IActiveCodeEditor)
  (edits : list ISingleEditOperation) (opts : ProgressingEditsOptions) :
  let c' := snd (acceptInput countWords computeMoreMinimalEdits allLocalEdits
                   c run) in
  let samples := map fst (batchesOf (events run ++ late run)) in
  (exists sent,
      editor c' = editor c ++ sent
      /\ forall edit speed tok,
           In (PerformAsyncTextEdit edit speed tok) sent ->
           exists m,
             (0 < m <= List.length samples)%nat
             /\ speed
                = (countWords (match edit.(text) with
                               | Some t => t
                               | None => EmptyString
                               end)
                   / (MovingAverage.value (averageAfter (firstn m samples))
                      / 1000))%float)
  /\ snd (makeProgressiveChanges countWords this log edits opts)
     = log
         ++ (if (this.(_editCount) =? 0)%nat then [PushUndoStop] else [])
         ++ map (fun edit =>
                   PerformAsyncTextEdit edit
                     (countWords (match edit.(text) with
                                  | Some t => t
                                  | None => EmptyString
                                  end)
                      / (opts.(duration) / 1000))%float
                     opts.(token))
                edits
  /\ rate 1%float 0%float = infinity
  /\ rate 0%float 0%float = nan
  /\ rate 1%float infinity = 0%float
  /\ PrimFloat.ltb 0%float (rate 1%float 0x1p+1000%float) = true
  /\ PrimFloat.ltb (rate 1%float 0x1p+1000%float) 0x1p-980%float = true.
Proof.
  intros c' samples. split; [|split].
  - destruct (@acceptInput_pacedBy countWords computeMoreMinimalEdits
                _ allLocalEdits c run) as (sent & Hlog & Hsent).
    exists sent. split; [exact Hlog|].
    intros edit speed tok Hin.
    pose proof (proj1 (Forall_forall _ _) Hsent _ Hin) as (m & Hm & Hspeed & _).
    exists m. split; [exact Hm|exact Hspeed].
  - rewrite makeProgressiveChanges_spec. reflexivity.
  - repeat split; reflexivity.
Qed.

(** A first batch that arrives with the clock still at zero is typed at an
    infinite speed. *)
Lemma C8_speed_is_words_per_second_witness :
  let run := mkRun [Progress 0%float
                      (mkProgressItem None (Some [someEdit]) None);
                    TaskSettled]
                   (@Resolved (list (list TextEdit)) None) [] in
  editor (snd (acceptInput (fun _ => 1%float) (fun _ e => Some e)
                 (fun (reply : list (list TextEdit)) received =>
                    received ++ reply)
                 readyController run))
  = [PushUndoStop;
     PerformAsyncTextEdit (asEditOperation someEdit) infinity
       progressiveEditsCts_token]
  /\ exists m,
       (0 < m <= 1)%nat
       /\ infinity
          = (1 / (MovingAverage.value (averageAfter (firstn m [0%float]))
                  / 1000))%float.
Proof.
  intros run. split; [reflexivity|].
  destruct (C8_speed_is_words_per_second
              (fun _ => 1%float) (fun _ e => Some e)
              (fun (reply : list (list TextEdit)) received =>
                 received ++ reply)
              readyController run
              (newEditStrategy plainSession) [] []
              (mkOpts 0%float progressiveEditsCts_token))
    as ((sent & Hlog & Hsent) & _).
  apply (Hsent (asEditOperation someEdit) infinity progressiveEditsCts_token).
  change (In (PerformAsyncTextEdit (asEditOperation someEdit) infinity
                progressiveEditsCts_token) sent).
  cbn [readyController editor app] in Hlog. rewrite <- Hlog.
  right. left. reflexivity.
Defined.

(** * Further properties of the code *)

Unset Implicit Arguments.

(** ** The cursor computer *)

Lemma isBefore_neither (a b : Position.t) :
  Position.isBefore a b = false -> Position.isBefore b a = false -> a = b.
Proof.
  destruct a as [al ac], b as [bl bc]. intros H1 H2.
  assert (al = bl /\ ac = bc) as [-> ->] by (split; order_positions).
  reflexivity.
Qed.

(** X1.  The cursor state computer returns [null] exactly for an empty list
    of undo edits, and its result does not depend on the order in which the
    editor lists the undo edits. *)
Theorem cursor_independent_of_order
  (undoEdits undoEdits' : list IValidEditOperation) :
  Permutation undoEdits undoEdits' ->
  cursorStateComputerAndInlineDiffCollection undoEdits
  = cursorStateComputerAndInlineDiffCollection undoEdits'
  /\ (cursorStateComputerAndInlineDiffCollection undoEdits = None
      <-> undoEdits = []).
Proof.
  intros Hperm. split.
  - destruct undoEdits as [|e l].
    + apply Permutation_nil in Hperm. now subst.
    + destruct undoEdits' as [|e' l'].
      * apply Permutation_sym, Permutation_nil in Hperm. discriminate.
      * destruct (cursor_of_batch e l) as (p & -> & Hin & Hall).
        destruct (cursor_of_batch e' l') as (p' & -> & Hin' & Hall').
        assert (Hends : Permutation (endPositions (e :: l))
                          (endPositions (e' :: l')))
          by (apply Permutation_map; exact Hperm).
        assert (p = p') as ->; [|reflexivity].
        apply isBefore_neither.
        -- apply (proj1 (Forall_forall _ _) Hall).
           apply (Permutation_in _ (Permutation_sym Hends)). exact Hin'.
        -- apply (proj1 (Forall_forall _ _) Hall').
           apply (Permutation_in _ Hends). exact Hin.
  - destruct undoEdits as [|e l].
    + split; reflexivity.
    + destruct (cursor_of_batch e l) as (p & -> & _). split; discriminate.
Qed.

Lemma cursor_independent_of_order_witness :
  cursorStateComputerAndInlineDiffCollection
    [mkValidEditOperation (Range.mk 1 1 2 7) "b";
     mkValidEditOperation (Range.mk 1 1 1 9) "a"]
  = cursorStateComputerAndInlineDiffCollection
      [mkValidEditOperation (Range.mk 1 1 1 9) "a";
       mkValidEditOperation (Range.mk 1 1 2 7) "b"].
Proof.
  apply (cursor_independent_of_order
           [mkValidEditOperation (Range.mk 1 1 2 7) "b";
            mkValidEditOperation (Range.mk 1 1 1 9) "a"]
           [mkValidEditOperation (Range.mk 1 1 1 9) "a";
            mkValidEditOperation (Range.mk 1 1 2 7) "b"]).
  apply perm_swap.
Defined.

(** ** Requests and undo steps *)

Lemma Coalesced_start (c : NotebookCellChatController) (strategy : EditStrategy) :
  _strategy c = Some strategy -> _editCount strategy = 0%nat -> Coalesced c c.
Proof.
  intros Hs Hn. exists 0%nat, []. rewrite Hs. simpl. rewrite Hn.
  now rewrite app_nil_r.
Qed.

Lemma Coalesced_grow (c0 : NotebookCellChatController)
  (log : IActiveCodeEditor) (n : nat) (body more : list EditorEvent) :
  log = editor c0 ++ (if (n =? 0)%nat then [] else PushUndoStop :: body) ->
  forallb isEdit body = true ->
  forallb isEdit more = true ->
  exists body',
    log ++ (if (n =? 0)%nat then [PushUndoStop] else []) ++ more
    = editor c0 ++ PushUndoStop :: body'
    /\ forallb isEdit body' = true.
Proof.
  intros -> Hbody Hmore. destruct n as [|n]; simpl.
  - exists more. now rewrite app_nil_r.
  - exists (body ++ more). rewrite <- app_assoc. simpl.
    now rewrite forallb_app, Hbody, Hmore.
Qed.

Lemma Coalesced_makeChanges (countWords : string -> number)
  (computeMoreMinimalEdits :
     IActiveCodeEditor -> list TextEdit -> option (list TextEdit))
  (c0 c : NotebookCellChatController) (edits : list TextEdit)
  (opts : option ProgressingEditsOptions) :
  Coalesced c0 c ->
  Coalesced c0 (snd (_makeChanges countWords computeMoreMinimalEdits c edits opts)).
Proof.
  intros (n & body & Hn & Hlog & Hbody). unfold _makeChanges.
  destruct (_activeSession c); [|exists n, body; auto].
  destruct (_strategy c) as [strategy|] eqn:Hs; [|discriminate].
  simpl in Hn. injection Hn as Hn.
  assert (Hkeep : Coalesced c0 c)
    by (exists n, body; rewrite Hs; simpl; rewrite Hn; auto).
  destruct (computeMoreMinimalEdits (editor c) edits) as [[|m minimal]|];
    [exact Hkeep| |]; destruct opts as [o|]; unfold afterEdit; cbn [snd];
    try rewrite (makeProgressiveChanges_spec countWords);
    try rewrite (makeChanges_spec countWords);
    cbn [fst snd]; rewrite Hn;
    match goal with
    | |- context [callEdits countWords ?call] =>
        destruct (Coalesced_grow c0 (editor c) n body
                    (callEdits countWords call) Hlog Hbody
                    (forallb_isEdit_callEdits countWords call))
          as (body' & Hlog' & Hbody')
    end;
    exists (S n), body'; simpl; auto.
Qed.

Lemma Coalesced_frame (c0 c c' : NotebookCellChatController) :
  editor c' = editor c -> _strategy c' = _strategy c ->
  Coalesced c0 c -> Coalesced c0 c'.
Proof.
  intros He Hs (n & body & Hn & Hlog & Hbody).
  exists n, body. now rewrite He, Hs.
Qed.

(** X2.  However many requests a session makes, and whatever their progress
    events and outcomes (rejection included), the strategy of the session
    sends the editor at most one undo boundary, ahead of all its edits: what
    the requests add to the editor's history is nothing, or one boundary
    followed by edits only, so at most one undo step. *)
Theorem requests_form_one_undo_step
  (countWords : string -> number)
  (computeMoreMinimalEdits :
     IActiveCodeEditor -> list TextEdit -> option (list TextEdit))
  (IInlineChatResponse : Type)
  (allLocalEdits :
     IInlineChatResponse -> list (list TextEdit) -> list (list TextEdit))
  (c : NotebookCellChatController) (strategy : EditStrategy)
  (runs : list (ProviderRun IInlineChatResponse)) :
  _strategy c = Some strategy ->
  _editCount strategy = 0%nat ->
  let c' := fold_left
              (fun c run =>
                 snd (acceptInput countWords computeMoreMinimalEdits
                        allLocalEdits c run))
              runs c in
  exists n body,
    option_map _editCount (_strategy c') = Some n
    /\ editor c'
       = editor c ++ (if (n =? 0)%nat then [] else PushUndoStop :: body)
    /\ forallb isEdit body = true
    /\ (forall open : bool,
          (undoSteps open (if (n =? 0)%nat then [] else PushUndoStop :: body)
           <= 1)%nat).
Proof.
  intros Hs Hn c'.
  assert (H : Coalesced c c').
  { subst c'. generalize (Coalesced_start c strategy Hs Hn).
    generalize c at 2 4 as c1. induction runs as [|run runs IH]; intros c1 H1.
    - exact H1.
    - simpl. apply IH.
      refine (P_acceptInput countWords computeMoreMinimalEdits (Coalesced c)
                _ _ _ _ allLocalEdits _ _ c1 run H1).
      + intros c2 a _. now apply Coalesced_frame.
      + intros c2 f. now apply Coalesced_frame.
      + intros c2 edits opts H2. unfold callMakeChanges.
        apply Coalesced_makeChanges. revert H2. now apply Coalesced_frame.
      + intros c2 b. now apply Coalesced_frame.
      + intros c2 s. now apply Coalesced_frame. }
  destruct H as (n & body & Hcount & Hlog & Hbody).
  exists n, body. repeat split; auto.
  intros open. destruct n; simpl; [lia|].
  pose proof (undoSteps_after_stop open body Hbody) as Hsteps.
  simpl in Hsteps. rewrite Hsteps. destruct body; lia.
Qed.

Lemma requests_form_one_undo_step_witness :
  let c' := fold_left
              (fun c run =>
                 snd (acceptInput (fun _ => 1%float) (fun _ e => Some e)
                        (fun (reply : list (list TextEdit)) received =>
                           received ++ reply)
                        c run))
              [mkRun [Progress (100%float)
                        (mkProgressItem None (Some [someEdit]) None)]
                     (Resolved (Some [[someEdit; someEdit]]))
                     [Progress 100%float
                        (mkProgressItem None (Some [someEdit]) None)]]
              readyController in
  exists n body,
    option_map _editCount (_strategy c') = Some n
    /\ editor c'
       = editor readyController
           ++ (if (n =? 0)%nat then [] else PushUndoStop :: body)
    /\ forallb isEdit body = true
    /\ (forall open : bool,
          (undoSteps open (if (n =? 0)%nat then [] else PushUndoStop :: body)
           <= 1)%nat).
Proof.
  exact (requests_form_one_undo_step
           (fun _ => 1%float) (fun _ e => Some e) _
           (fun (reply : list (list TextEdit)) received => received ++ reply)
           readyController (newEditStrategy plainSession)
           [mkRun [Progress (100%float)
                     (mkProgressItem None (Some [someEdit]) None)]
                  (Resolved (Some [[someEdit; someEdit]]))
                     [Progress 100%float
                        (mkProgressItem None (Some [someEdit]) None)]]
           eq_refl eq_refl).
Defined.

(** ** The queue of progressive edits *)

Section QueueFacts.

Variable countWords : string -> number.
Variable computeMoreMinimalEdits :
  IActiveCodeEditor -> list TextEdit -> option (list TextEdit).

Lemma calls_runTask (l : RequestLocals) (c : NotebookCellChatController)
  (data : IInlineChatProgressItem) :
  calls (runTask countWords computeMoreMinimalEdits l c data) = S (calls c).
Proof.
  unfold calls. rewrite runTask_trace, filter_app, length_app. simpl. lia.
Qed.

Lemma one_task_per_step (s : RequestLocals * NotebookCellChatController)
  (ev : ProviderEvent) :
  (calls (snd (providerStep countWords computeMoreMinimalEdits s ev))
   + busy (fst s)
   <= calls (snd s) + settles [ev]
      + busy (fst (providerStep countWords computeMoreMinimalEdits s ev)))%nat.
Proof.
  destruct s as [[pe avg [running pending]] c].
  destruct ev as [elapsed data|]; simpl.
  - unfold onProgress, enqueue, busy. simpl.
    destruct (truthyLength (edits data)), (truthyString (message data)),
      running; simpl; rewrite ?calls_runTask; unfold calls; simpl; lia.
  - unfold settle, busy. simpl.
    destruct running; simpl; [|lia].
    destruct pending; simpl; rewrite ?calls_runTask; unfold calls; simpl; lia.
Qed.

Lemma settles_cons (ev : ProviderEvent) (evs : list ProviderEvent) :
  settles (ev :: evs) = (settles [ev] + settles evs)%nat.
Proof. destruct ev; simpl; lia. Qed.

Lemma one_task_at_a_time (evs : list ProviderEvent)
  (s : RequestLocals * NotebookCellChatController) :
  (calls (snd (fold_left (providerStep countWords computeMoreMinimalEdits)
                 evs s))
   + busy (fst s)
   <= calls (snd s) + settles evs
      + busy (fst (fold_left (providerStep countWords computeMoreMinimalEdits)
                     evs s)))%nat.
Proof.
  revert s. induction evs as [|ev evs IH]; intros s.
  - simpl. lia.
  - rewrite settles_cons. simpl fold_left.
    pose proof (one_task_per_step s ev) as Hstep.
    pose proof (IH (providerStep countWords computeMoreMinimalEdits s ev))
      as Hrest.
    lia.
Qed.

End QueueFacts.

(** X3.  The batches a request receives through progress go through the
    queue one at a time and in order of arrival: at any moment the batches
    already handed to [_makeChanges], followed by those still waiting, are the
    batches received so far, in order; and the number of tasks started never
    exceeds the number of tasks that have settled by more than the one that is
    running. *)
Theorem queue_runs_batches_in_order_one_at_a_time
  (countWords : string -> number)
  (computeMoreMinimalEdits :
     IActiveCodeEditor -> list TextEdit -> option (list TextEdit))
  (c : NotebookCellChatController) (evs : list ProviderEvent) :
  let s := fold_left (providerStep countWords computeMoreMinimalEdits) evs
                     (newRequestLocals, c) in
  exists added,
    trace (snd s) = trace c ++ added
    /\ forallb isCalled added = true
    /\ calledBatches added
         ++ map editsOf (Queue.pending (progressiveEditsQueue (fst s)))
       = map (fun b => editsOf (snd b)) (batchesOf evs)
    /\ progressEdits (fst s) = map (fun b => editsOf (snd b)) (batchesOf evs)
    /\ (List.length added <= settles evs + busy (fst s))%nat
    /\ (busy (fst s) = 0%nat ->
        Queue.pending (progressiveEditsQueue (fst s)) = []).
Proof.
  intros s.
  destruct (Streaming_events countWords computeMoreMinimalEdits evs
              (Streaming_initial c)) as (started & Hs).
  simpl in Hs. fold s in Hs.
  destruct (ext_trace (stream_Extends countWords computeMoreMinimalEdits evs
                         (newRequestLocals, c)))
    as (added & Htrace & Hadded).
  simpl in Htrace. fold s in Htrace.
  exists added. split; [exact Htrace|]. split; [exact Hadded|].
  assert (Hcalls : added = map (taskCall (map fst (batchesOf evs))) started).
  { rewrite <- (filter_all _ _ Hadded).
    apply (added_calls added Hs). now rewrite Htrace, filter_app. }
  split; [|split; [exact (st_edits Hs)|split]].
  - rewrite Hcalls, calledBatches_taskCall.
    rewrite <- (map_map fst editsOf), <- map_app, (st_order Hs), map_map.
    reflexivity.
  - pose proof (one_task_at_a_time countWords computeMoreMinimalEdits evs
                  (newRequestLocals, c)) as Hone.
    fold s in Hone. unfold calls in Hone. simpl in Hone.
    rewrite Htrace, filter_app, length_app in Hone.
    rewrite (filter_all _ _ Hadded) in Hone. unfold busy at 1 in Hone.
    simpl in Hone. lia.
  - unfold busy. intros Hidle. apply (st_idle Hs).
    destruct (Queue.running (progressiveEditsQueue (fst s)));
      [discriminate|reflexivity].
Qed.

(** ** What the widget shows after a request *)

Section WidgetFacts.

Variable countWords : string -> number.
Variable computeMoreMinimalEdits :
  IActiveCodeEditor -> list TextEdit -> option (list TextEdit).

Lemma widget_makeChanges (c : NotebookCellChatController)
  (edits : list TextEdit) (opts : option ProgressingEditsOptions) :
  _widget (snd (_makeChanges countWords computeMoreMinimalEdits c edits opts))
  = _widget c.
Proof.
  unfold _makeChanges.
  destruct (_activeSession c), (_strategy c); try reflexivity.
  destruct (computeMoreMinimalEdits (editor c) edits) as [[|m minimal]|];
    destruct opts; reflexivity.
Qed.

Lemma widget_runTask (l : RequestLocals) (c : NotebookCellChatController)
  (data : IInlineChatProgressItem) :
  _widget (runTask countWords computeMoreMinimalEdits l c data) = _widget c.
Proof. unfold runTask, callMakeChanges. now rewrite widget_makeChanges. Qed.

Lemma widget_providerStep (s : RequestLocals * NotebookCellChatController)
  (ev : ProviderEvent) :
  _widget (snd (providerStep countWords computeMoreMinimalEdits s ev))
  = option_map (fun w => messageStep w ev) (_widget (snd s)).
Proof.
  destruct s as [l c]. destruct ev as [elapsed data|]; simpl.
  - unfold onProgress, enqueue. simpl.
    destruct (truthyString (message data)), (truthyLength (edits data)),
      (Queue.running (progressiveEditsQueue l)); simpl;
      rewrite ?widget_runTask; simpl; destruct (_widget c); reflexivity.
  - unfold settle.
    destruct (Queue.running (progressiveEditsQueue l)); simpl.
    + destruct (Queue.pending (progressiveEditsQueue l)); simpl;
        rewrite ?widget_runTask; destruct (_widget c); reflexivity.
    + destruct (_widget c); reflexivity.
Qed.

Lemma widget_stream (evs : list ProviderEvent)
  (s : RequestLocals * NotebookCellChatController) :
  _widget (snd (fold_left (providerStep countWords computeMoreMinimalEdits)
                  evs s))
  = option_map (fold_left messageStep evs) (_widget (snd s)).
Proof.
  revert s. induction evs as [|ev evs IH]; intros s; simpl.
  - destruct (_widget (snd s)); reflexivity.
  - rewrite IH, widget_providerStep. destruct (_widget (snd s)); reflexivity.
Qed.

Lemma messageStep_settled (n : nat) (w : InlineChatWidget) :
  fold_left messageStep (repeat TaskSettled n) w = w.
Proof. induction n; simpl; auto. Qed.

Lemma widget_awaitDrained (l : RequestLocals) (c : NotebookCellChatController)
  (late : list ProviderEvent) :
  exists used,
    late = used ++ snd (awaitDrained countWords computeMoreMinimalEdits l c late)
    /\ _widget (snd (fst (awaitDrained countWords computeMoreMinimalEdits
                            l c late)))
       = option_map (fold_left messageStep used) (_widget c).
Proof.
  destruct (awaitDrained_as_events countWords computeMoreMinimalEdits l c late)
    as (used & n & Hlate & ->).
  exists used. split; [exact Hlate|]. cbn zeta. cbn [fst snd].
  pose proof (widget_stream (used ++ repeat TaskSettled n) (l, c)) as Hw.
  cbn [snd] in Hw.
  assert (Hsame : _widget
                    (if (0 <? Queue.size (progressiveEditsQueue l))%nat
                     then record AwaitedQueueDrained
                            (snd (fold_left
                                    (providerStep countWords
                                       computeMoreMinimalEdits)
                                    (used ++ repeat TaskSettled n) (l, c)))
                     else snd (fold_left
                                 (providerStep countWords
                                    computeMoreMinimalEdits)
                                 (used ++ repeat TaskSettled n) (l, c)))
                  = _widget (snd (fold_left
                                    (providerStep countWords
                                       computeMoreMinimalEdits)
                                    (used ++ repeat TaskSettled n) (l, c))))
    by (destruct (0 <? Queue.size (progressiveEditsQueue l))%nat; reflexivity).
  rewrite Hsame, Hw. destruct (_widget c); [|reflexivity].
  cbn [option_map]. now rewrite fold_left_app, messageStep_settled.
Qed.

End WidgetFacts.

Lemma messageStep_quiet (evs : list ProviderEvent) (w : InlineChatWidget) :
  forallb (fun ev => negb (showsMessage ev)) evs = true ->
  fold_left messageStep evs w = w.
Proof.
  revert w. induction evs as [|ev evs IH]; intros w H; simpl; auto.
  simpl in H. apply andb_prop in H as [Hev Hevs]. rewrite IH by exact Hevs.
  destruct ev as [elapsed data|]; simpl in *; [|reflexivity].
  now destruct (truthyString (message data)).
Qed.

(** X4.  When the provider resolves without a reply, [acceptInput] returns
    with the context key and the progress indicator reset, but it neither
    clears the info line nor shows the toolbar again: the widget keeps what
    the progress messages of the request made of it, those handled after the
    provider's promise settled included.  In particular, after a progress
    item with message [m] and no later message, the info line still reads [m]
    and the toolbar is still hidden. *)
Theorem empty_reply_keeps_progress_message
  (countWords : string -> number)
  (computeMoreMinimalEdits :
     IActiveCodeEditor -> list TextEdit -> option (list TextEdit))
  (IInlineChatResponse : Type)
  (allLocalEdits :
     IInlineChatResponse -> list (list TextEdit) -> list (list TextEdit))
  (c : NotebookCellChatController) (session : Session)
  (widget : InlineChatWidget) (evs later : list ProviderEvent) :
  _activeSession c = Some session ->
  _widget c = Some widget ->
  editorAttached c = true ->
  let result := acceptInput countWords computeMoreMinimalEdits allLocalEdits c
                  (mkRun evs (@Resolved IInlineChatResponse None) later) in
  fst result = Returned
  /\ _ctxHasActiveRequest (snd result) = false
  /\ _widget (snd result)
     = Some (updateProgress
               (fold_left messageStep (evs ++ later)
                  (updateProgress widget true))
               false)
  /\ (forall before elapsed data m rest after,
        evs ++ later = before ++ Progress elapsed data :: after ->
        message data = Some (String m rest) ->
        forallb (fun ev => negb (showsMessage ev)) after = true ->
        option_map w_info (_widget (snd result)) = Some (String m rest)
        /\ option_map w_toolbar (_widget (snd result)) = Some false).
Proof.
  intros Hs Hw Ha result.
  assert (Hresult :
            fst result = Returned
            /\ _ctxHasActiveRequest (snd result) = false
            /\ _widget (snd result)
               = Some (updateProgress
                         (fold_left messageStep (evs ++ later)
                            (updateProgress widget true))
                         false)).
  { subst result.
    rewrite (@acceptInput_request countWords computeMoreMinimalEdits _
               allLocalEdits c session widget _ Hs Hw Ha).
    unfold request. cbn [events outcome late].
    pose proof (widget_stream countWords computeMoreMinimalEdits evs
                  (newRequestLocals, atRequest c session widget)) as Hstream.
    destruct (fold_left _ evs _) as [l2 c2]. cbn [snd] in Hstream.
    destruct (widget_awaitDrained countWords computeMoreMinimalEdits l2
                (record AwaitedReply c2) later) as (used & Hlate & Hdrain).
    destruct (awaitDrained _ _ l2 _ later) as [s3 rest].
    cbn [fst snd] in Hlate, Hdrain.
    pose proof (widget_stream countWords computeMoreMinimalEdits rest s3)
      as Hrest.
    destruct (fold_left _ rest s3) as [l4 c4]. cbn [fst snd] in *.
    split; [reflexivity|]. split; [reflexivity|].
    cbn [_widget onWidget setHasActiveRequest record].
    rewrite Hrest, Hdrain. cbn [_widget record]. rewrite Hstream.
    unfold atRequest. cbn [_widget onWidget setHasActiveRequest
                             setActiveSession].
    rewrite Hw. cbn [option_map]. subst later.
    now rewrite !fold_left_app. }
  destruct Hresult as (Hret & Hflag & Hwidget).
  refine (conj Hret (conj Hflag (conj Hwidget _))).
  intros before elapsed data m rest after Hevs Hmessage Hquiet.
  rewrite Hwidget, Hevs. cbn [option_map].
  rewrite fold_left_app. cbn [fold_left messageStep].
  rewrite (messageStep_quiet after) by assumption.
  rewrite Hmessage. split; reflexivity.
Qed.

Lemma empty_reply_keeps_progress_message_witness :
  option_map w_info
    (_widget
       (snd (acceptInput (fun _ => 1%float) (fun _ e => Some e)
               (fun (reply : list (list TextEdit)) received => received ++ reply)
               readyController
               (mkRun [Progress 100%float
                         (mkProgressItem (Some "thinking"%string) None None)]
                      (@Resolved (list (list TextEdit)) None) []))))
  = Some "thinking"%string.
Proof.
  destruct (empty_reply_keeps_progress_message
              (fun _ => 1%float) (fun _ e => Some e) _
              (fun (reply : list (list TextEdit)) received => received ++ reply)
              readyController plainSession
              (mkWidget "fix bug" false "" false)
              [Progress 100%float
                 (mkProgressItem (Some "thinking"%string) None None)]
              []
              eq_refl eq_refl eq_refl)
    as (_ & _ & _ & Hmessage).
  exact (proj1 (Hmessage [] _ _ _ _ [] eq_refl eq_refl eq_refl)).
Defined.

(** ** Starting, dismissing and accepting a session *)

Lemma makeChanges_after_fresh_strategy
  (countWords : string -> number)
  (computeMoreMinimalEdits :
     IActiveCodeEditor -> list TextEdit -> option (list TextEdit))
  (c : NotebookCellChatController) (active session : Session)
  (edits : list TextEdit) (opts : option ProgressingEditsOptions) :
  _activeSession c = Some active ->
  _strategy c = Some (newEditStrategy session) ->
  computeMoreMinimalEdits (editor c) edits <> Some [] ->
  exists rest,
    editor (snd (_makeChanges countWords computeMoreMinimalEdits c edits opts))
    = editor c ++ PushUndoStop :: rest.
Proof.
  intros Ha Hs Hedits. unfold _makeChanges. rewrite Ha, Hs.
  destruct (computeMoreMinimalEdits (editor c) edits) as [[|m minimal]|];
    [congruence| |]; destruct opts as [o|]; unfold afterEdit; cbn [snd editor];
    try rewrite (makeProgressiveChanges_spec countWords);
    try rewrite (makeChanges_spec countWords);
    cbn [snd newEditStrategy _editCount Nat.eqb]; simpl; eauto.
Qed.

(** X5.  A session that [_startSession] has created starts with a strategy
    of its own whose edit counter is zero, so the first batch of the new
    session that has edits is preceded by an undo boundary whatever the
    previous session did; the previous session, if any, has been released.
    When [createSession] yields nothing the previous session has been released
    all the same, and the controller goes on referring to it and to its
    strategy. *)
Theorem startSession_gives_fresh_strategy
  (countWords : string -> number)
  (computeMoreMinimalEdits :
     IActiveCodeEditor -> list TextEdit -> option (list TextEdit))
  (chat : CellChat) (session : Session)
  (edits : list TextEdit) (opts : option ProgressingEditsOptions) :
  let before := match _activeSession (controller chat) with
                | Some old => [old]
                | None => []
                end in
  let chat' := _startSession chat (Some session) in
  let stale := _startSession chat None in
  _activeSession (controller chat') = Some session
  /\ _strategy (controller chat') = Some (newEditStrategy session)
  /\ released chat' = released chat ++ before
  /\ (computeMoreMinimalEdits (editor (controller chat)) edits <> Some [] ->
      exists rest,
        editor (snd (_makeChanges countWords computeMoreMinimalEdits
                       (controller chat') edits opts))
        = editor (controller chat) ++ PushUndoStop :: rest)
  /\ controller stale = controller chat
  /\ released stale = released chat ++ before.
Proof.
  intros before chat' stale. subst before chat' stale.
  unfold _startSession, releaseActiveSession.
  destruct (_activeSession (controller chat)) as [old|]; simpl;
    rewrite ?app_nil_r;
    (split; [reflexivity|]); (split; [reflexivity|]); (split; [reflexivity|]);
    (split; [|split; reflexivity]);
    intros Hedits;
    exact (makeChanges_after_fresh_strategy countWords computeMoreMinimalEdits
             (setStrategy (Some (newEditStrategy session))
                (setActiveSession (Some session) (controller chat)))
             session session edits opts eq_refl eq_refl Hedits).
Qed.

Lemma startSession_gives_fresh_strategy_witness :
  exists rest,
    editor
      (snd (_makeChanges (fun _ => 1%float) (fun _ e => Some e)
              (controller
                 (_startSession
                    (mkCellChat
                       (setEditor [PushUndoStop; ExecuteEdits "inline-chat-live" []
                       cursorStateComputerAndInlineDiffCollection]
                          (setStrategy (Some (mkStrategy 1 plainSession))
                             readyController))
                       true "flex" true true 98 0 [])
                    (Some snapshotSession)))
              [someEdit] None))
    = [PushUndoStop; ExecuteEdits "inline-chat-live" []
                       cursorStateComputerAndInlineDiffCollection]
        ++ PushUndoStop :: rest.
Proof.
  destruct (startSession_gives_fresh_strategy
              (fun _ => 1%float) (fun _ e => Some e)
              (mkCellChat
                 (setEditor [PushUndoStop; ExecuteEdits "inline-chat-live" []
                       cursorStateComputerAndInlineDiffCollection]
                    (setStrategy (Some (mkStrategy 1 plainSession))
                       readyController))
                 true "flex" true true 98 0 [])
              snapshotSession [someEdit] None)
    as (_ & _ & _ & Hfirst & _).
  apply Hfirst. discriminate.
Defined.

Lemma cancel_reaches_target (strategy : EditStrategy) :
  TextModel.isDisposed (textModelN (_session strategy)) = false ->
  TextModel.getAlternativeVersionId (textModelN (_session (cancel strategy)))
  <= targetAltVersionOf (_session strategy)
  \/ TextModel.canUndo (textModelN (_session (cancel strategy))) = false.
Proof.
  intros Hlive. unfold cancel. rewrite Hlive. simpl.
  destruct (undoWhileAbove_spec (targetAltVersionOf (_session strategy))
              (textModelN (_session strategy))) as (n & Hn & _ & Hstop).
  rewrite Hn. now apply aboveTarget_false.
Qed.

Ltac dismiss_cases chat discard :=
  unfold dismiss, cancelCurrentRequest, releaseActiveSession, releaseSession,
    withController;
  destruct discard;
  cbn [controller released _isVisible display chatHeight _ctxVisible
       _ctxCellWidgetFocused widgetResets _activeSession _strategy _widget
       editor wholeRange setStrategy setActiveSession];
  destruct (_activeSession (controller chat));
  cbn [controller released _isVisible display chatHeight _ctxVisible
       _ctxCellWidgetFocused widgetResets _activeSession _strategy _widget
       editor wholeRange setStrategy setActiveSession];
  rewrite ?app_nil_r; try reflexivity.

Lemma dismiss_no_session (chat : CellChat) (discard : bool) :
  _activeSession (controller (dismiss chat discard)) = None.
Proof. dismiss_cases chat discard. Qed.

Lemma dismiss_editor (chat : CellChat) (discard : bool) :
  editor (controller (dismiss chat discard)) = editor (controller chat).
Proof. dismiss_cases chat discard. Qed.


Lemma dismiss_strategy (chat : CellChat) (discard : bool) :
  _strategy (controller (dismiss chat discard))
  = (if discard then option_map cancel (_strategy (controller chat))
     else _strategy (controller chat)).
Proof. dismiss_cases chat discard. Qed.

Lemma dismiss_released (chat : CellChat) (discard : bool) :
  released (dismiss chat discard)
  = released chat ++ match _activeSession (controller chat) with
                     | Some session => [session]
                     | None => []
                     end.
Proof. dismiss_cases chat discard. Qed.

Lemma dismiss_view (chat : CellChat) (discard : bool) :
  (_isVisible (dismiss chat discard), display (dismiss chat discard),
   chatHeight (dismiss chat discard), _ctxVisible (dismiss chat discard),
   _ctxCellWidgetFocused (dismiss chat discard))
  = (false, "none"%string, 0, false, false).
Proof. dismiss_cases chat discard. Qed.

Lemma acceptInput_without_session
  (countWords : string -> number)
  (computeMoreMinimalEdits :
     IActiveCodeEditor -> list TextEdit -> option (list TextEdit))
  (IInlineChatResponse : Type)
  (allLocalEdits :
     IInlineChatResponse -> list (list TextEdit) -> list (list TextEdit))
  (c : NotebookCellChatController) (run : ProviderRun IInlineChatResponse) :
  _activeSession c = None ->
  acceptInput countWords computeMoreMinimalEdits allLocalEdits c run
  = (Threw AssertionFailed, c).
Proof. intros H. unfold acceptInput. now rewrite H. Qed.

(** X6.  [dismiss] hides the part, clears the active session and releases
    it, once: a second [dismiss] releases nothing.  It never calls the editor.
    With [discard] false it leaves the strategy, and so the document, as they
    are; with [discard] true it cancels the strategy, after which a document
    that is not disposed is at or below the target marker or has nothing left
    to undo. *)
Theorem dismiss_releases_once_and_rolls_back_on_discard
  (chat : CellChat) (discard again : bool) :
  let chat' := dismiss chat discard in
  _activeSession (controller chat') = None
  /\ released chat'
     = released chat ++ match _activeSession (controller chat) with
                        | Some session => [session]
                        | None => []
                        end
  /\ released (dismiss chat' again) = released chat'
  /\ editor (controller chat') = editor (controller chat)
  /\ _strategy (controller chat')
     = (if discard then option_map cancel (_strategy (controller chat))
        else _strategy (controller chat))
  /\ (forall strategy,
        discard = true ->
        _strategy (controller chat) = Some strategy ->
        TextModel.isDisposed (textModelN (_session strategy)) = false ->
        exists strategy',
          _strategy (controller chat') = Some strategy'
          /\ (TextModel.getAlternativeVersionId
                (textModelN (_session strategy'))
              <= targetAltVersionOf (_session strategy)
              \/ TextModel.canUndo (textModelN (_session strategy')) = false))
  /\ (_isVisible chat', display chat', chatHeight chat',
      _ctxVisible chat', _ctxCellWidgetFocused chat')
     = (false, "none"%string, 0, false, false).
Proof.
  intros chat'. subst chat'.
  refine (conj (dismiss_no_session chat discard)
            (conj (dismiss_released chat discard)
               (conj _ (conj (dismiss_editor chat discard)
                  (conj (dismiss_strategy chat discard)
                     (conj _ (dismiss_view chat discard))))))).
  - rewrite (dismiss_released (dismiss chat discard) again),
            dismiss_no_session.
    apply app_nil_r.
  - intros strategy Hd Hs Hlive. subst discard.
    rewrite dismiss_strategy, Hs. cbn [option_map].
    eexists. split; [reflexivity|]. now apply cancel_reaches_target.
Qed.

Lemma dismiss_releases_once_and_rolls_back_on_discard_witness :
  exists strategy',
    _strategy
      (controller
         (dismiss
            (mkCellChat
               (setStrategy (Some (mkStrategy 2 snapshotSession))
                  readyController)
               true "flex" true true 98 0 [])
            true))
    = Some strategy'
    /\ (TextModel.getAlternativeVersionId (textModelN (_session strategy'))
        <= 3
        \/ TextModel.canUndo (textModelN (_session strategy')) = false).
Proof.
  destruct (dismiss_releases_once_and_rolls_back_on_discard
              (mkCellChat
                 (setStrategy (Some (mkStrategy 2 snapshotSession))
                    readyController)
                 true "flex" true true 98 0 [])
              true false)
    as (_ & _ & _ & _ & _ & Hrollback & _).
  apply (Hrollback (mkStrategy 2 snapshotSession)); reflexivity.
Defined.


Lemma apply_editor (this : EditStrategy) (log : IActiveCodeEditor) :
  snd (apply this log)
  = log ++ (if (0 <? _editCount this)%nat then [PushUndoStop] else []).
Proof.
  unfold apply.
  assert (Hlog : (if (0 <? _editCount this)%nat then log ++ [PushUndoStop]
                  else log)
                 = log ++ (if (0 <? _editCount this)%nat then [PushUndoStop]
                           else []))
    by (destruct (0 <? _editCount this)%nat; [reflexivity|];
        now rewrite app_nil_r).
  destruct (lastExchange (_session this)) as [[p [[u|]| |]]|]; simpl; auto.
  destruct (negb (u_disposed u) && u_dirty u); simpl; auto.
Qed.

(** X8.  [acceptSession] needs an active session, a strategy and the cell
    editor, and throws before doing anything when one is missing.  Otherwise
    it returns, having pushed one closing undo boundary when the strategy
    has edited and none when it has not, having handed the session to
    [releaseSession] twice (once itself and once through [dismiss]), and
    leaving the controller without active session, so that a further
    [acceptSession] or [acceptInput] fails its assertion. *)
Theorem acceptSession_closes_and_releases
  (countWords : string -> number)
  (computeMoreMinimalEdits :
     IActiveCodeEditor -> list TextEdit -> option (list TextEdit))
  (IInlineChatResponse : Type)
  (allLocalEdits :
     IInlineChatResponse -> list (list TextEdit) -> list (list TextEdit))
  (run : ProviderRun IInlineChatResponse)
  (chat : CellChat) :
  let result := acceptSession chat in
  match _activeSession (controller chat), _strategy (controller chat),
        editorAttached (controller chat) with
  | Some session, Some strategy, true =>
      fst result = Returned
      /\ editor (controller (snd result))
         = editor (controller chat)
             ++ (if (0 <? _editCount strategy)%nat then [PushUndoStop] else [])
      /\ released (snd result) = released chat ++ [session; session]
      /\ _activeSession (controller (snd result)) = None
      /\ _isVisible (snd result) = false
      /\ fst (acceptSession (snd result)) = Threw AssertionFailed
      /\ fst (acceptInput countWords computeMoreMinimalEdits allLocalEdits
                (controller (snd result)) run)
         = Threw AssertionFailed
  | _, _, _ => result = (Threw AssertionFailed, chat)
  end.
Proof.
  intros result. subst result. unfold acceptSession.
  destruct (_activeSession (controller chat)) as [session|] eqn:Ha;
    [|reflexivity].
  destruct (_strategy (controller chat)) as [strategy|] eqn:Hs;
    [|reflexivity].
  destruct (editorAttached (controller chat)) eqn:He; [|reflexivity].
  cbn [negb].
  pose proof (apply_editor strategy (editor (controller chat))) as Hlog.
  destruct (apply strategy (editor (controller chat))) as [strategy' editor'].
  cbn [snd fst] in *. subst editor'.
  set (accepted := releaseSession _ session).
  assert (Hactive : _activeSession (controller accepted) = Some session)
    by exact Ha.
  refine (conj eq_refl (conj _ (conj _ (conj (dismiss_no_session _ _)
            (conj _ (conj _ _)))))).
  - rewrite dismiss_editor. reflexivity.
  - rewrite dismiss_released, Hactive. unfold accepted, releaseSession.
    cbn [released withController]. now rewrite <- app_assoc.
  - pose proof (dismiss_view accepted false) as Hview.
    now injection Hview.
  - rewrite dismiss_no_session. reflexivity.
  - rewrite acceptInput_without_session by apply dismiss_no_session.
    reflexivity.
Qed.

(** ** Merging the diff editor's configuration *)

Section OptionsFacts.

Variable JsValue : Type.
Variable undefined : JsValue.

Lemma get_set (o : MultiDiff.JsObject JsValue) (k key : string) (v : JsValue) :
  MultiDiff.get undefined (MultiDiff.set o k v) key
  = if String.eqb k key then v else MultiDiff.get undefined o key.
Proof.
  induction o as [|[k0 x] o IH]; simpl.
  - reflexivity.
  - destruct (String.eqb_spec k0 k) as [->|Hk]; simpl.
    + now destruct (String.eqb k key).
    + rewrite IH. destruct (String.eqb_spec k0 key) as [->|]; auto.
      destruct (String.eqb_spec k key) as [->|]; congruence.
Qed.

Lemma has_set (o : MultiDiff.JsObject JsValue) (k key : string) (v : JsValue) :
  MultiDiff.has (MultiDiff.set o k v) key
  = String.eqb k key || MultiDiff.has o key.
Proof.
  induction o as [|[k0 x] o IH]; simpl.
  - now destruct (String.eqb k key).
  - destruct (String.eqb_spec k0 k) as [->|Hk]; simpl.
    + now destruct (String.eqb k key).
    + rewrite IH. destruct (String.eqb k0 key), (String.eqb k key); auto.
Qed.

Lemma get_delete (o : MultiDiff.JsObject JsValue) (k key : string) :
  MultiDiff.get undefined (MultiDiff.delete o k) key
  = if String.eqb k key then undefined else MultiDiff.get undefined o key.
Proof.
  induction o as [|[k0 x] o IH]; simpl.
  - now destruct (String.eqb k key).
  - destruct (String.eqb_spec k0 k) as [->|Hk]; simpl.
    + rewrite IH. now destruct (String.eqb k key).
    + rewrite IH. destruct (String.eqb_spec k0 key) as [->|]; auto.
      destruct (String.eqb_spec k key) as [->|]; congruence.
Qed.

Lemma has_delete (o : MultiDiff.JsObject JsValue) (k key : string) :
  MultiDiff.has (MultiDiff.delete o k) key
  = negb (String.eqb k key) && MultiDiff.has o key.
Proof.
  induction o as [|[k0 x] o IH]; simpl.
  - now destruct (String.eqb k key).
  - destruct (String.eqb_spec k0 k) as [->|Hk]; simpl.
    + rewrite IH. now destruct (String.eqb k key).
    + rewrite IH. destruct (String.eqb_spec k0 key) as [->|]; auto.
      destruct (String.eqb_spec k key) as [->|]; simpl; congruence.
Qed.

Lemma has_In (o : MultiDiff.JsObject JsValue) (key : string) :
  MultiDiff.has o key = true <-> In key (map fst o).
Proof.
  induction o as [|[k0 x] o IH]; simpl.
  - split; [discriminate|contradiction].
  - destruct (String.eqb_spec k0 key) as [->|Hk].
    + split; auto.
    + rewrite IH. split; [now right|]. intros [H|H]; [congruence|exact H].
Qed.

Lemma keys_set (o : MultiDiff.JsObject JsValue) (k : string) (v : JsValue) :
  map fst (MultiDiff.set o k v)
  = if MultiDiff.has o k then map fst o else map fst o ++ [k].
Proof.
  induction o as [|[k0 x] o IH]; simpl.
  - reflexivity.
  - destruct (String.eqb_spec k0 k) as [->|Hk]; simpl.
    + reflexivity.
    + rewrite IH. now destruct (MultiDiff.has o k).
Qed.

Lemma NoDup_set (o : MultiDiff.JsObject JsValue) (k : string) (v : JsValue) :
  NoDup (map fst o) -> NoDup (map fst (MultiDiff.set o k v)).
Proof.
  intros H. rewrite keys_set.
  destruct (MultiDiff.has o k) eqn:Hk; [exact H|].
  apply NoDup_app; [exact H|repeat constructor; auto|].
  intros key Hin [<-|[]].
  apply has_In in Hin. congruence.
Qed.

Lemma NoDup_delete (o : MultiDiff.JsObject JsValue) (k : string) :
  NoDup (map fst o) -> NoDup (map fst (MultiDiff.delete o k)).
Proof.
  induction o as [|[k0 x] o IH]; simpl; intros H.
  - constructor.
  - inversion H as [|? ? Hnotin Hrest]; subst.
    destruct (String.eqb k0 k); simpl; auto.
    constructor; auto.
    intros Hin. apply Hnotin.
    apply has_In in Hin. rewrite has_delete in Hin.
    apply andb_prop in Hin as [_ Hin]. now apply has_In.
Qed.

Lemma get_assign (source target : MultiDiff.JsObject JsValue) (key : string) :
  NoDup (map fst source) ->
  MultiDiff.get undefined (MultiDiff.assign target source) key
  = if MultiDiff.has source key then MultiDiff.get undefined source key
    else MultiDiff.get undefined target key.
Proof.
  unfold MultiDiff.assign. revert target.
  induction source as [|[k0 v0] source IH]; intros target H; simpl.
  - reflexivity.
  - inversion H as [|? ? Hnotin Hrest]; subst.
    rewrite IH by exact Hrest. rewrite get_set.
    destruct (String.eqb_spec k0 key) as [->|Hk]; [|reflexivity].
    destruct (MultiDiff.has source key) eqn:Hhas; [|reflexivity].
    apply has_In in Hhas. contradiction.
Qed.

End OptionsFacts.

(** X9.  [computeOptions] overlays the diff editor's settings on the
    editor's, property by property, except for [codeLens] and [wordWrap]:
    these two keep the editor's value, and the diff editor's values for them
    appear as [diffCodeLens] and [diffWordWrap] instead ([undefined] when the
    diff editor does not set them, whatever the editor had under those
    names).  Every other property has the diff editor's value when the diff
    editor has the property and the editor's otherwise.  Without a diff editor
    object the result is the clone of the editor's settings. *)
Theorem computeOptions_overlays_diff_settings
  (JsValue : Type) (undefined : JsValue)
  (deepClone : MultiDiff.JsObject JsValue -> MultiDiff.JsObject JsValue)
  (editorSettings diffSettings : MultiDiff.JsObject JsValue) (key : string) :
  NoDup (map fst (deepClone diffSettings)) ->
  let e := deepClone editorSettings in
  let d := deepClone diffSettings in
  let get := MultiDiff.get undefined in
  get (MultiDiff.computeOptions undefined deepClone
         (MultiDiff.mkConfiguration editorSettings (Some diffSettings)))
      key
  = (if String.eqb key "diffCodeLens" then get d "codeLens"%string
     else if String.eqb key "diffWordWrap" then get d "wordWrap"%string
     else if String.eqb key "codeLens" || String.eqb key "wordWrap"
          then get e key
     else if MultiDiff.has d key then get d key
     else get e key)
  /\ MultiDiff.computeOptions undefined deepClone
       (MultiDiff.mkConfiguration editorSettings None)
     = e.
Proof.
  intros Hkeys e d get. split; [|reflexivity].
  unfold MultiDiff.computeOptions. simpl. fold d e. subst get.
  rewrite get_assign
    by (apply NoDup_delete, NoDup_set, NoDup_delete, NoDup_set, Hkeys).
  rewrite !has_delete, !has_set, !has_delete, !has_set.
  rewrite !get_delete, !get_set, !get_delete, !get_set.
  rewrite (String.eqb_sym key "diffCodeLens"),
          (String.eqb_sym key "diffWordWrap"),
          (String.eqb_sym key "codeLens"), (String.eqb_sym key "wordWrap").
  destruct (String.eqb_spec "diffCodeLens" key) as [<-|H1]; [reflexivity|].
  destruct (String.eqb_spec "diffWordWrap" key) as [<-|H2]; [reflexivity|].
  destruct (String.eqb_spec "codeLens" key) as [<-|H3]; [reflexivity|].
  destruct (String.eqb_spec "wordWrap" key) as [<-|H4]; [reflexivity|].
  simpl. reflexivity.
Qed.

Lemma computeOptions_overlays_diff_settings_witness :
  MultiDiff.get 0%nat
    (MultiDiff.computeOptions 0%nat (fun o => o)
       (MultiDiff.mkConfiguration
          [("codeLens", 1); ("fontSize", 12)]%string%nat
          (Some [("codeLens", 2); ("fontSize", 14)]%string%nat)))
    "codeLens"%string
  = 1%nat.
Proof.
  exact (proj1 (computeOptions_overlays_diff_settings nat 0%nat (fun o => o)
                  [("codeLens", 1); ("fontSize", 12)]%string%nat
                  [("codeLens", 2); ("fontSize", 14)]%string%nat
                  "codeLens"%string
                  ltac:(repeat constructor; simpl; intuition discriminate))).
Defined.

(** ** The registry of controllers *)

Lemma holdsOnly_disposed (part : CellChatPart.t) (r : Registry.t) :
  holdsOnly part r ->
  match CellChatPart.disposeController part r with
  | (Returned, r') => holdsOnly None r'
  | (Threw _, r') => r' = r
  end.
Proof.
  intros H. unfold CellChatPart.disposeController, Registry.dispose.
  destruct part as [[n own widget]|]; [|exact H].
  cbn [Registry.hasWidget Registry._cell]. destruct widget; [|reflexivity].
  intros cell. specialize (H cell). unfold Registry.get in *.
  cbn [Registry._cellChatControllers Registry._cell Registry.serial] in *.
  destruct (cell =? own)%nat; auto.
Qed.

Lemma holdsOnly_call (s : CellChatPart.t * Registry.t) (c : CellChatPart.Call) :
  holdsOnly (fst s) (snd s) ->
  holdsOnly (fst (snd (CellChatPart.call s c)))
            (snd (snd (CellChatPart.call s c))).
Proof.
  destruct s as [part r]. intros H. cbn [fst snd] in H.
  pose proof (holdsOnly_disposed part r H) as Hdisposed.
  destruct c as [element|element| |found];
    cbn [CellChatPart.call fst snd];
    unfold CellChatPart.didRenderCell, CellChatPart.unrenderCell,
      CellChatPart.dispose;
    try (destruct (CellChatPart.disposeController part r) as [[|e] r'];
         cbn [fst snd]; [|subst r'; exact H]).
  - intros cell. specialize (Hdisposed cell). unfold Registry.get in *.
    cbn [Registry.construct fst snd Registry._cellChatControllers
         Registry._cell Registry.serial].
    destruct (cell =? element)%nat; auto.
  - exact Hdisposed.
  - exact Hdisposed.
  - destruct part as [[n own widget]|]; exact H.
Qed.

Lemma noEditor_call (controller : Registry.Controller) (r : Registry.t)
  (c : CellChatPart.Call) :
  Registry.hasWidget controller = false ->
  noEditor c = true ->
  snd (CellChatPart.call (Some controller, r) c) = (Some controller, r).
Proof.
  intros Hnone Hc. destruct controller as [n own widget].
  cbn [Registry.hasWidget] in Hnone. subst widget.
  destruct c as [element|element| |[|]]; try discriminate; reflexivity.
Qed.

(** X10.  As long as one [CellChatPart] alone renders cells, the registry
    holds exactly the controller the part holds, under the cell it was
    rendered for, whatever the sequence of [didRenderCell], [unrenderCell],
    [dispose] and editor attachments.  A controller whose cell editor has
    never been attached cannot be disposed: [dispose] throws on removing the
    toolbar it never appended, the registry keeps the entry, and the part
    keeps the controller, whatever it is asked to render or unrender.  And
    the entry belongs to the cell, not to the controller: when a second part
    renders a cell whose controller has seen its editor, and the first part
    then unrenders the cell, the cell has no entry although the second part's
    controller is still in use. *)
Theorem registry_follows_the_part
  (cs stuck : list CellChatPart.Call) (cell n own element : nat)
  (r : Registry.t) :
  let s := CellChatPart.calls (None, emptyRegistry) cs in
  let unattached := Registry.mkC n own false in
  let first := CellChatPart.calls (None, r)
                 [CellChatPart.DidRenderCell cell;
                  CellChatPart.EditorAttachStateChanged true] in
  let second := snd (CellChatPart.didRenderCell None (snd first) cell) in
  let left := CellChatPart.unrenderCell (fst first) (snd second) cell in
  Registry.get (snd s) cell
  = match fst s with
    | Some controller =>
        if (cell =? Registry._cell controller)%nat
        then Some (Registry.serial controller)
        else None
    | None => None
    end
  /\ Registry.dispose r unattached = (Threw NotFoundError, r)
  /\ CellChatPart.didRenderCell (Some unattached) r element
     = (Threw NotFoundError, (Some unattached, r))
  /\ CellChatPart.unrenderCell (Some unattached) r element
     = (Threw NotFoundError, (Some unattached, r))
  /\ CellChatPart.calls (Some unattached, r) (filter noEditor stuck)
     = (Some unattached, r)
  /\ Registry.get (snd second) cell
     = option_map Registry.serial (fst second)
  /\ fst second <> None
  /\ left = (Returned, (None, snd (snd left)))
  /\ Registry.get (snd (snd left)) cell = None.
Proof.
  intros s unattached first second left.
  split; [|split; [reflexivity|split; [reflexivity|split; [reflexivity|split]]]].
  - assert (Hall : forall p : CellChatPart.t * Registry.t,
               holdsOnly (fst p) (snd p) ->
               holdsOnly (fst (CellChatPart.calls p cs))
                         (snd (CellChatPart.calls p cs))).
    { unfold CellChatPart.calls.
      induction cs as [|c cs' IH]; intros p Hp; cbn [fold_left]; auto.
      apply IH, holdsOnly_call, Hp. }
    apply (Hall (None, emptyRegistry)). intros x. reflexivity.
  - unfold CellChatPart.calls.
    induction stuck as [|c stuck' IH]; [reflexivity|].
    cbn [filter]. destruct (noEditor c) eqn:Hc; [|exact IH].
    cbn [fold_left]. rewrite noEditor_call by auto. exact IH.
  - subst left second first. unfold CellChatPart.calls.
    cbn [fold_left CellChatPart.call CellChatPart.didRenderCell
         CellChatPart.unrenderCell CellChatPart.disposeController
         Registry.construct Registry.dispose Registry.hasWidget
         Registry.onDidChangeEditorAttachState option_map orb fst snd
         Registry._cell Registry.serial].
    unfold Registry.get.
    cbn [Registry._cellChatControllers]. rewrite Nat.eqb_refl.
    repeat split; discriminate.
Qed.

(** ** The flags of a request and its completion *)

Section CompletionFacts.

Variable countWords : string -> number.
Variable computeMoreMinimalEdits :
  IActiveCodeEditor -> list TextEdit -> option (list TextEdit).

Lemma applyRemaining_Same (c : NotebookCellChatController)
  (batches : list (list TextEdit)) :
  Same c (snd (applyRemaining countWords computeMoreMinimalEdits c batches)).
Proof.
  revert c. induction batches as [|batch rest IH]; intros c; simpl.
  - constructor; auto.
  - pose proof (callMakeChanges_Extends countWords computeMoreMinimalEdits
                  c batch None) as Hext.
    destruct (callMakeChanges countWords computeMoreMinimalEdits c batch None)
      as [[|e] c1]; simpl in *.
    + exact (Same_trans (Extends_Same Hext) (IH c1)).
    + exact (Extends_Same Hext).
Qed.

End CompletionFacts.

(** X11.  With a session, a widget and the cell editor in place,
    [acceptInput] leaves the has-active-request key and the progress
    indicator set exactly when it throws: they are reset on both paths that
    return, and stay on when the provider rejects or when an assertion of
    [_makeChanges] fails in the loop over the remaining batches.  Without the
    cell editor it returns without having touched them; without session or
    widget it throws at once. *)
Theorem acceptInput_leaves_flags_set_when_it_throws
  (countWords : string -> number)
  (computeMoreMinimalEdits :
     IActiveCodeEditor -> list TextEdit -> option (list TextEdit))
  (IInlineChatResponse : Type)
  (allLocalEdits :
     IInlineChatResponse -> list (list TextEdit) -> list (list TextEdit))
  (c : NotebookCellChatController) (run : ProviderRun IInlineChatResponse) :
  let result := acceptInput countWords computeMoreMinimalEdits allLocalEdits
                  c run in
  let thrown := match fst result with Returned => false | Threw _ => true end in
  match _activeSession c, _widget c with
  | Some _, Some _ =>
      if editorAttached c
      then _ctxHasActiveRequest (snd result) = thrown
           /\ option_map w_progress (_widget (snd result)) = Some thrown
      else fst result = Returned
           /\ _ctxHasActiveRequest (snd result) = _ctxHasActiveRequest c
           /\ _widget (snd result) = _widget c
           /\ trace (snd result) = trace c
  | _, _ => result = (Threw AssertionFailed, c)
  end.
Proof.
  intros result thrown. subst thrown result. unfold acceptInput.
  destruct (_activeSession c) as [session|] eqn:Hs; [|reflexivity].
  destruct (_widget c) as [widget|] eqn:Hw; [|reflexivity].
  cbn [setActiveSession editorAttached].
  destruct (editorAttached c) eqn:Ha; cbn [negb]; [|simpl; auto].
  fold (atRequest c session widget). set (c1 := atRequest c session widget).
  assert (Hset : _ctxHasActiveRequest c1 = true
                 /\ option_map w_progress (_widget c1) = Some true).
  { unfold c1, atRequest. simpl. now rewrite Hw. }
  destruct Hset as (Hflag1 & Hprogress1).
  assert (Hkeep : forall c', Same c1 c' ->
                    _ctxHasActiveRequest c' = true
                    /\ option_map w_progress (_widget c') = Some true).
  { intros c' H. now rewrite (same_flag H), (same_progress H). }
  assert (Hreset : forall c' (f : InlineChatWidget -> InlineChatWidget),
             Same c1 c' ->
             (forall w, w_progress (f w) = false) ->
             option_map w_progress
               (_widget (onWidget f (setHasActiveRequest false c')))
             = Some false).
  { intros c' f H Hf. pose proof (same_progress H) as Hp.
    rewrite Hprogress1 in Hp. simpl.
    destruct (_widget c'); [simpl; now rewrite Hf|discriminate]. }
  clearbody c1. unfold request.
  pose proof (Extends_Same
                (stream_Extends countWords computeMoreMinimalEdits
                   (events run) (newRequestLocals, c1))) as Hstream.
  destruct (fold_left _ (events run) _) as [l2 c2]. cbn [snd] in Hstream.
  destruct (outcome run) as [|reply]; cbn [fst snd]; [now apply Hkeep|].
  pose proof (@awaitDrained_Same countWords computeMoreMinimalEdits l2
                (record AwaitedReply c2) (late run)) as Hdrain.
  destruct (awaitDrained _ _ l2 _ (late run)) as [s3 rest].
  cbn [fst snd] in Hdrain.
  pose proof (Extends_Same
                (stream_Extends countWords computeMoreMinimalEdits rest s3))
    as Hrest.
  destruct (fold_left _ rest s3) as [l4 c4]. cbn [snd] in Hrest.
  assert (Hwaited : Same c1 (record AwaitedProgressDrain c4)).
  { eapply Same_trans; [exact Hstream|].
    eapply Same_trans; [apply Same_record|].
    eapply Same_trans; [exact Hdrain|].
    eapply Same_trans; [exact Hrest|apply Same_record]. }
  destruct reply as [reply|].
  - pose proof (applyRemaining_Same countWords computeMoreMinimalEdits
                  (record AwaitedProgressDrain c4)
                  (skipn (List.length (progressEdits l4))
                     (allLocalEdits reply (progressEdits l4)))) as Hloop.
    destruct (applyRemaining _ _ _ _) as [[|e] c5]; cbn [fst snd] in *.
    + split; [reflexivity|].
      apply (Hreset c5 _ (Same_trans Hwaited Hloop)). reflexivity.
    + apply Hkeep. exact (Same_trans Hwaited Hloop).
  - cbn [fst snd]. split; [reflexivity|].
    apply (Hreset _ _ Hwaited). reflexivity.
Qed.

(** ** Edits sent and edits tracked *)

Lemma flat_map_eventEdits_callEdits (countWords : string -> number)
  (call : StrategyCall) :
  flat_map eventEdits (callEdits countWords call)
  = match call with Progressive edits _ => edits | Atomic edits => edits end.
Proof.
  destruct call as [edits opts|edits]; simpl.
  - induction edits as [|e edits IH]; simpl; [reflexivity|]. now rewrite IH.
  - now rewrite app_nil_r.
Qed.

Lemma makeChanges_sends
  (countWords : string -> number)
  (computeMoreMinimalEdits :
     IActiveCodeEditor -> list TextEdit -> option (list TextEdit))
  (c : NotebookCellChatController) (edits : list TextEdit)
  (opts : option ProgressingEditsOptions) :
  let c' := snd (_makeChanges countWords computeMoreMinimalEdits c edits opts) in
  exists sent tracked,
    editor c' = editor c ++ sent
    /\ wholeRange c' = wholeRange c ++ tracked
    /\ flat_map eventEdits sent = List.concat tracked
    /\ (_activeSession c <> None -> _strategy c <> None ->
        flat_map eventEdits sent
        = map asEditOperation
            (actualEdits edits opts
               (computeMoreMinimalEdits (editor c) edits))).
Proof.
  intros c'. subst c'. unfold _makeChanges.
  assert (Hnothing : exists sent tracked,
             editor c = editor c ++ sent
             /\ wholeRange c = wholeRange c ++ tracked
             /\ flat_map eventEdits sent = List.concat tracked
             /\ flat_map eventEdits sent = [])
    by (exists [], []; rewrite !app_nil_r; auto).
  destruct (_activeSession c);
    [|destruct Hnothing as (sn & tn & H1 & H2 & H3 & _); exists sn, tn;
      repeat split; auto; congruence].
  destruct (_strategy c) as [strategy|];
    [|destruct Hnothing as (sn & tn & H1 & H2 & H3 & _); exists sn, tn;
      repeat split; auto; congruence].
  destruct (computeMoreMinimalEdits (editor c) edits) as [[|m minimal]|];
    [destruct Hnothing as (sn & tn & H1 & H2 & H3 & H4); exists sn, tn;
     repeat split; auto | |];
    destruct opts as [o|]; unfold afterEdit; cbn [snd editor wholeRange];
    try rewrite (makeProgressiveChanges_spec countWords);
    try rewrite (makeChanges_spec countWords); cbn [snd];
    match goal with
    | |- context [callEdits countWords ?call] =>
        exists ((if (_editCount strategy =? 0)%nat then [PushUndoStop] else [])
                ++ callEdits countWords call);
        eexists [_];
        pose proof (flat_map_eventEdits_callEdits countWords call) as Hsent
    end;
    (split; [reflexivity|]); (split; [reflexivity|]);
    rewrite flat_map_app, Hsent;
    destruct (_editCount strategy =? 0)%nat; simpl; rewrite ?app_nil_r; auto.
Qed.

Lemma Tracked_makeChanges
  (countWords : string -> number)
  (computeMoreMinimalEdits :
     IActiveCodeEditor -> list TextEdit -> option (list TextEdit))
  (c0 c : NotebookCellChatController) (edits : list TextEdit)
  (opts : option ProgressingEditsOptions) :
  Tracked c0 c ->
  Tracked c0 (snd (_makeChanges countWords computeMoreMinimalEdits c edits opts)).
Proof.
  intros (sent & tracked & He & Hw & Hsame).
  destruct (makeChanges_sends countWords computeMoreMinimalEdits c edits opts)
    as (sent' & tracked' & He' & Hw' & Hsame' & _).
  exists (sent ++ sent'), (tracked ++ tracked').
  rewrite He', Hw', He, Hw, <- !app_assoc, flat_map_app, List.concat_app.
  rewrite Hsame, Hsame'. auto.
Qed.

(** X12.  Whatever a request sends to the editor it has tracked on the
    session's whole range.  When the provider resolves and no batch is left
    to be handled once its promise has settled, so that every task of the
    queue is waited for and no two applications overlap, the edit operations
    the editor receives over the request are, in order, those handed to
    [wholeRange.trackEdits].  For one batch they are the worker's minimal
    edits when the batch is applied atomically and the worker returned some,
    and the provider's own edits when the batch is paced or the worker
    returned nothing. *)
Theorem edits_sent_are_edits_tracked
  (countWords : string -> number)
  (computeMoreMinimalEdits :
     IActiveCodeEditor -> list TextEdit -> option (list TextEdit))
  (IInlineChatResponse : Type)
  (allLocalEdits :
     IInlineChatResponse -> list (list TextEdit) -> list (list TextEdit))
  (c : NotebookCellChatController) (run : ProviderRun IInlineChatResponse)
  (reply : option IInlineChatResponse)
  (edits : list TextEdit) (opts : option ProgressingEditsOptions) :
  outcome run = Resolved reply ->
  batchesOf (late run) = [] ->
  let c' := snd (acceptInput countWords computeMoreMinimalEdits allLocalEdits
                   c run) in
  let c1 := snd (_makeChanges countWords computeMoreMinimalEdits c edits opts) in
  (exists sent tracked,
      editor c' = editor c ++ sent
      /\ wholeRange c' = wholeRange c ++ tracked
      /\ flat_map eventEdits sent = List.concat tracked)
  /\ (exists sent,
        editor c1 = editor c ++ sent
        /\ (_activeSession c <> None -> _strategy c <> None ->
            flat_map eventEdits sent
            = map asEditOperation
                (actualEdits edits opts
                   (computeMoreMinimalEdits (editor c) edits)))).
Proof.
  intros _ _ c' c1. split.
  - assert (Hstart : Tracked c c)
      by (exists [], []; rewrite !app_nil_r; auto).
    refine (P_acceptInput countWords computeMoreMinimalEdits (Tracked c)
              _ _ _ _ allLocalEdits _ _ c run Hstart).
    + intros c2 a _ H. exact H.
    + intros c2 f H. exact H.
    + intros c2 e o H. unfold callMakeChanges.
      apply Tracked_makeChanges. exact H.
    + intros c2 b H. exact H.
    + intros c2 s H. exact H.
  - destruct (makeChanges_sends countWords computeMoreMinimalEdits c edits opts)
      as (sent & tracked & He & _ & _ & Hsent).
    exists sent. split; [exact He|exact Hsent].
Qed.

Lemma edits_sent_are_edits_tracked_witness :
  let run := mkRun [Progress 100%float
                      (mkProgressItem None (Some [someEdit]) None)]
                   (Resolved (Some [[someEdit; someEdit]])) [] in
  let c' := snd (acceptInput (fun _ => 1%float) (fun _ e => Some e)
                   (fun (reply : list (list TextEdit)) received =>
                      received ++ reply)
                   readyController run) in
  exists sent tracked,
    editor c' = editor readyController ++ sent
    /\ wholeRange c' = wholeRange readyController ++ tracked
    /\ flat_map eventEdits sent = List.concat tracked.
Proof.
  exact (proj1 (edits_sent_are_edits_tracked
                  (fun _ => 1%float) (fun _ e => Some e) _
                  (fun (reply : list (list TextEdit)) received =>
                     received ++ reply)
                  readyController
                  (mkRun [Progress 100%float
                            (mkProgressItem None (Some [someEdit]) None)]
                         (Resolved (Some [[someEdit; someEdit]])) [])
                  (Some [[someEdit; someEdit]])
                  [someEdit] None eq_refl eq_refl)).
Defined.
